(** * SMR-BRIDGE: the streaming DSMR telegram parser

    A shallow embedding of the parser of the MULTI-SMR firmware (the
    CRC-validating revision with power-factor support, and, where it differs
    for a stated property, the older [SMR-Multi.ino] sketch), followed by the
    properties of its specification.

    Conventions of the embedding.
    - [uint8_t], [uint16_t], [int16_t], [int32_t], [int64_t], [uint64_t]
      values are integers in [Z]; every assignment that can leave the range of
      its C type is wrapped explicitly ([to_u16], [to_s64], ...).
    - A [char] is its code in [Z]; a [char] array is a [list Z] of the declared
      size; a C string is read from an array up to its first NUL.
    - One-bit bit-fields are [bool].
    - The pointer [parser->data] always designates the global working record,
      so the record is threaded next to the parser state. *)

From Stdlib Require Import ZArith List Ascii String Lia Bool.
From stdpp Require Import base list.
Import ListNotations.
Open Scope Z_scope.

(** ** Machine integers *)

Module CInt.

Definition to_unsigned (w : Z) (x : Z) : Z := x mod 2 ^ w.

Definition to_signed (w : Z) (x : Z) : Z :=
  (x + 2 ^ (w - 1)) mod 2 ^ w - 2 ^ (w - 1).

Definition to_u8 : Z -> Z := to_unsigned 8.
Definition to_u16 : Z -> Z := to_unsigned 16.
Definition to_u64 : Z -> Z := to_unsigned 64.
Definition to_s16 : Z -> Z := to_signed 16.
Definition to_s32 : Z -> Z := to_signed 32.
Definition to_s64 : Z -> Z := to_signed 64.

Definition in_u8 (x : Z) : Prop := 0 <= x < 256.
Definition in_u16 (x : Z) : Prop := 0 <= x < 65536.
Definition in_s32 (x : Z) : Prop := - 2 ^ 31 <= x < 2 ^ 31.
Definition in_s64 (x : Z) : Prop := - 2 ^ 63 <= x < 2 ^ 63.

End CInt.
Import CInt.

(** ** Characters and C strings *)

Definition chr (a : ascii) : Z := Z.of_N (N_of_ascii a).

Definition bytes (s : string) : list Z := List.map chr (list_ascii_of_string s).

Definition NUL : Z := 0.
Definition LF : Z := 10.
Definition CR : Z := 13.
Definition BANG : Z := Eval cbv in chr "!".
Definition SLASH : Z := Eval cbv in chr "/".
Definition COLON : Z := Eval cbv in chr ":".
Definition LPAREN : Z := Eval cbv in chr "(".
Definition RPAREN : Z := Eval cbv in chr ")".
Definition STAR : Z := Eval cbv in chr "*".
Definition DOT : Z := Eval cbv in chr ".".
Definition MINUS : Z := Eval cbv in chr "-".

Definition is_digit (c : Z) : bool := (48 <=? c) && (c <=? 57).
Definition is_upper (c : Z) : bool := (65 <=? c) && (c <=? 90).

(** [s[i]] for an array that holds at least [i+1] characters. *)
Definition char_at (s : list Z) (i : nat) : Z := nth i s NUL.

(** The text of a C string: the characters before the first NUL. *)
Fixpoint cstr (s : list Z) : list Z :=
  match s with
  | [] => []
  | c :: t => if c =? NUL then [] else c :: cstr t
  end.

Fixpoint strlen (s : list Z) : Z :=
  match s with
  | [] => 0
  | c :: t => if c =? NUL then 0 else 1 + strlen t
  end.

(** [strchr s ch] for [ch <> NUL]: the offset of the first [ch] before the
    terminator, [None] for a null pointer. *)
Fixpoint strchr (s : list Z) (ch : Z) : option nat :=
  match s with
  | [] => None
  | c :: t =>
      if c =? ch then Some O
      else if c =? NUL then None
      else option_map S (strchr t ch)
  end.

(** A pointer result tested with [!p]. *)
Definition is_null {A : Type} (p : option A) : bool :=
  match p with
  | None => true
  | Some _ => false
  end.

(** [strncpy dst src n]: exactly [n] characters are written at the start of
    [dst]; once [src] is exhausted the rest is filled with NUL; no terminator
    is added when [src] has [n] characters or more. *)
Fixpoint strncpy (dst src : list Z) (n : nat) {struct n} : list Z :=
  match n, dst with
  | O, _ => dst
  | S _, [] => []
  | S n', _ :: dst' =>
      match src with
      | [] => NUL :: strncpy dst' [] n'
      | c :: src' =>
          if c =? NUL then NUL :: strncpy dst' [] n'
          else c :: strncpy dst' src' n'
      end
  end.

(** [strtol(s, NULL, 16)] of the C library: leading white space, an optional
    sign, an optional [0x] prefix, then hexadecimal digits up to the first
    character that is not one.  (Clamping at [LONG_MAX] needs more digits
    than the four the parser ever passes.) *)
Definition isspace (c : Z) : bool := (c =? 32) || ((9 <=? c) && (c <=? 13)).

Definition hex_digit (c : Z) : option Z :=
  if is_digit c then Some (c - 48)
  else if (97 <=? c) && (c <=? 102) then Some (c - 97 + 10)
  else if (65 <=? c) && (c <=? 70) then Some (c - 65 + 10)
  else None.

Fixpoint skip_space (s : list Z) : list Z :=
  match s with
  | c :: t => if isspace c then skip_space t else s
  | [] => []
  end.

Fixpoint strtol_digits (s : list Z) (acc : Z) : Z :=
  match s with
  | [] => acc
  | c :: t =>
      match hex_digit c with
      | Some d => strtol_digits t (acc * 16 + d)
      | None => acc
      end
  end.

Definition strtol_prefix (s : list Z) : list Z :=
  match s with
  | c0 :: cx :: t =>
      if (c0 =? 48) && ((cx =? 120) || (cx =? 88)) then t else s
  | _ => s
  end.

Definition strtol16 (s : list Z) : Z :=
  let s := skip_space (cstr s) in
  match s with
  | c :: t =>
      if c =? MINUS then - strtol_digits (strtol_prefix t) 0
      else if c =? 43 then strtol_digits (strtol_prefix t) 0
      else strtol_digits (strtol_prefix s) 0
  | [] => 0
  end.

(** ** OBIS codes *)

Inductive obis_id_t : Set :=
  | OBIS_ID_NONE
  | OBIS_ID_METER_ID | OBIS_ID_TIMESTAMP | OBIS_ID_POWER_LIMIT
  | OBIS_ID_ENERGY_DEL_LOW | OBIS_ID_ENERGY_DEL_HIGH
  | OBIS_ID_ENERGY_PROD_LOW | OBIS_ID_ENERGY_PROD_HIGH
  | OBIS_ID_CURRENT_POWER | OBIS_ID_CURRENT_RETURN
  | OBIS_ID_POWER_L1 | OBIS_ID_POWER_L2 | OBIS_ID_POWER_L3
  | OBIS_ID_RETURN_L1 | OBIS_ID_RETURN_L2 | OBIS_ID_RETURN_L3
  | OBIS_ID_VOLTAGE_L1 | OBIS_ID_VOLTAGE_L2 | OBIS_ID_VOLTAGE_L3
  | OBIS_ID_CURRENT_L1 | OBIS_ID_CURRENT_L2 | OBIS_ID_CURRENT_L3
  | OBIS_ID_PF_TOTAL | OBIS_ID_PF_L1 | OBIS_ID_PF_L2 | OBIS_ID_PF_L3.

(** The enumerator values, as the range tests of [store_value] use them. *)
Definition obis_value (o : obis_id_t) : Z :=
  match o with
  | OBIS_ID_NONE => 0
  | OBIS_ID_METER_ID => 1 | OBIS_ID_TIMESTAMP => 2 | OBIS_ID_POWER_LIMIT => 3
  | OBIS_ID_ENERGY_DEL_LOW => 4 | OBIS_ID_ENERGY_DEL_HIGH => 5
  | OBIS_ID_ENERGY_PROD_LOW => 6 | OBIS_ID_ENERGY_PROD_HIGH => 7
  | OBIS_ID_CURRENT_POWER => 8 | OBIS_ID_CURRENT_RETURN => 9
  | OBIS_ID_POWER_L1 => 10 | OBIS_ID_POWER_L2 => 11 | OBIS_ID_POWER_L3 => 12
  | OBIS_ID_RETURN_L1 => 13 | OBIS_ID_RETURN_L2 => 14 | OBIS_ID_RETURN_L3 => 15
  | OBIS_ID_VOLTAGE_L1 => 16 | OBIS_ID_VOLTAGE_L2 => 17
  | OBIS_ID_VOLTAGE_L3 => 18
  | OBIS_ID_CURRENT_L1 => 19 | OBIS_ID_CURRENT_L2 => 20
  | OBIS_ID_CURRENT_L3 => 21
  | OBIS_ID_PF_TOTAL => 22 | OBIS_ID_PF_L1 => 23 | OBIS_ID_PF_L2 => 24
  | OBIS_ID_PF_L3 => 25
  end.

Definition OBIS_TABLE : list (list Z * obis_id_t) :=
  [ (bytes "0-0:96.1.1", OBIS_ID_METER_ID);
    (bytes "0-0:1.0.0", OBIS_ID_TIMESTAMP);
    (bytes "0-0:17.0.0", OBIS_ID_POWER_LIMIT);
    (bytes "1-0:1.8.1", OBIS_ID_ENERGY_DEL_LOW);
    (bytes "1-0:1.8.2", OBIS_ID_ENERGY_DEL_HIGH);
    (bytes "1-0:2.8.1", OBIS_ID_ENERGY_PROD_LOW);
    (bytes "1-0:2.8.2", OBIS_ID_ENERGY_PROD_HIGH);
    (bytes "1-0:1.7.0", OBIS_ID_CURRENT_POWER);
    (bytes "1-0:2.7.0", OBIS_ID_CURRENT_RETURN);
    (bytes "1-0:21.7.0", OBIS_ID_POWER_L1);
    (bytes "1-0:41.7.0", OBIS_ID_POWER_L2);
    (bytes "1-0:61.7.0", OBIS_ID_POWER_L3);
    (bytes "1-0:22.7.0", OBIS_ID_RETURN_L1);
    (bytes "1-0:42.7.0", OBIS_ID_RETURN_L2);
    (bytes "1-0:62.7.0", OBIS_ID_RETURN_L3);
    (bytes "1-0:32.7.0", OBIS_ID_VOLTAGE_L1);
    (bytes "1-0:52.7.0", OBIS_ID_VOLTAGE_L2);
    (bytes "1-0:72.7.0", OBIS_ID_VOLTAGE_L3);
    (bytes "1-0:31.7.0", OBIS_ID_CURRENT_L1);
    (bytes "1-0:51.7.0", OBIS_ID_CURRENT_L2);
    (bytes "1-0:71.7.0", OBIS_ID_CURRENT_L3);
    (bytes "1-0:13.7.0", OBIS_ID_PF_TOTAL);
    (bytes "1-0:33.7.0", OBIS_ID_PF_L1);
    (bytes "1-0:53.7.0", OBIS_ID_PF_L2);
    (bytes "1-0:73.7.0", OBIS_ID_PF_L3) ].

(** [strcmp_P_safe str pstr]: equality of two C strings, [pstr] in flash. *)
Fixpoint strcmp_P_safe (str pstr : list Z) : bool :=
  let c2 := char_at pstr 0 in
  match str with
  | [] => c2 =? NUL
  | c1 :: str' =>
      if c1 =? NUL then c2 =? NUL
      else if c1 =? c2 then strcmp_P_safe str' (tl pstr)
      else false
  end.

Fixpoint match_obis_table (table : list (list Z * obis_id_t)) (obis : list Z)
  : obis_id_t :=
  match table with
  | [] => OBIS_ID_NONE
  | (obis_str, id) :: rest =>
      if strcmp_P_safe obis obis_str then id else match_obis_table rest obis
  end.

Definition match_obis_code (obis : list Z) : obis_id_t :=
  match_obis_table OBIS_TABLE obis.

(** ** CRC16/IBM, reflected polynomial 0xA001 *)

Definition crc16_shift (crc : Z) : Z :=
  if negb (Z.land crc 1 =? 0)
  then to_u16 (Z.lxor (Z.shiftr crc 1) 0xA001)
  else to_u16 (Z.shiftr crc 1).

Definition crc16_update (crc byte : Z) : Z :=
  Nat.iter 8 crc16_shift (to_u16 (Z.lxor crc byte)).

(** The checksum of a whole byte sequence, initial value 0. *)
Definition crc16 (bs : list Z) : Z := fold_left crc16_update bs 0.

(** ** Fixed-point ASCII decoder *)

Record scan_t : Set := mkScan {
  sc_result : Z;
  sc_fraction : Z;
  sc_decimal_seen : Z;
  sc_frac_digits : Z
}.

Definition scan_init : scan_t := mkScan 0 0 0 0.

(** The scanning loop is the same in both revisions of the firmware, up to the
    width of the accumulators: [wrap] is the conversion to their type. *)
Section Scan.
Variable wrap : Z -> Z.

(** One turn of the scanning loop on the character [c] (not NUL). *)
Definition scan_char (st : scan_t) (c : Z) : scan_t :=
  if c =? DOT then
    mkScan (sc_result st) (sc_fraction st) 1 (sc_frac_digits st)
  else if is_digit c then
    if sc_decimal_seen st =? 0 then
      mkScan (wrap (sc_result st * 10 + (c - 48))) (sc_fraction st)
             (sc_decimal_seen st) (sc_frac_digits st)
    else if sc_frac_digits st <? 6 then
      mkScan (sc_result st) (wrap (sc_fraction st * 10 + (c - 48)))
             (sc_decimal_seen st) (to_u8 (sc_frac_digits st + 1))
    else st
  else st.

Fixpoint scan_string (str : list Z) (st : scan_t) : scan_t :=
  match str with
  | [] => st
  | c :: t => if c =? NUL then st else scan_string t (scan_char st c)
  end.

(** [while (frac_digits < N) { fraction *= 10; frac_digits++; }], which makes
    [N - frac_digits] turns. *)
Fixpoint pad_fraction (turns : nat) (fraction : Z) : Z :=
  match turns with
  | O => fraction
  | S n => pad_fraction n (wrap (fraction * 10))
  end.

End Scan.

(** [ascii_to_fixed] of the CRC-validating revision: [int64_t] accumulators,
    an optional leading [-], padding to six fractional digits. *)
Definition ascii_to_fixed (str : list Z) (scale : Z) : Z :=
  let '(sign, str) :=
    if char_at str 0 =? MINUS then (-1, tl str) else (1, str) in
  let st := scan_string to_s64 str scan_init in
  let fraction :=
    pad_fraction to_s64 (Z.to_nat (6 - sc_frac_digits st)) (sc_fraction st) in
  let result := to_s64 (sc_result st * 1000000 + fraction) in
  let result :=
    if scale =? 2 then Z.quot result 10000
    else if scale =? 3 then Z.quot result 1000
    else result in
  to_s64 (result * sign).

(** [ascii_to_fixed] of the older [SMR-Multi.ino]: [int32_t] accumulators, no
    sign, padding up to [scale] fractional digits. *)
Module Legacy.

Definition ascii_to_fixed (str : list Z) (scale : Z) : Z :=
  let st := scan_string to_s32 str scan_init in
  let fraction :=
    pad_fraction to_s32 (Z.to_nat (scale - sc_frac_digits st))
                 (sc_fraction st) in
  let result := to_s32 (sc_result st * 1000000 + fraction) in
  if scale =? 2 then Z.quot result 10000
  else if scale =? 3 then Z.quot result 1000
  else result.

End Legacy.

(** ** Value extraction *)

Definition extract_value (line : list Z) : option (list Z) :=
  match strchr line LPAREN with
  | None => None
  | Some i =>
      let start := skipn (S i) line in
      let end_ := strchr start RPAREN in
      let unit_ := strchr start STAR in
      let len :=
        match unit_, end_ with
        | Some u, None => Some u
        | Some u, Some e => if (u <? e)%nat then Some u else Some e
        | None, Some e => Some e
        | None, None => None
        end in
      match len with
      | None => None
      | Some len =>
          let len := if (80 <=? len)%nat then 79%nat else len in
          Some (firstn len start)
      end
  end.

(** ** The telegram record *)

Record dsmr_data_t : Set := {
  energy_delivered_low : Z;
  energy_delivered_high : Z;
  energy_produced_low : Z;
  energy_produced_high : Z;
  current_power : Z;
  current_return : Z;
  power_l1 : Z; power_l2 : Z; power_l3 : Z;
  return_l1 : Z; return_l2 : Z; return_l3 : Z;
  voltage_l1 : Z; voltage_l2 : Z; voltage_l3 : Z;
  current_l1 : Z; current_l2 : Z; current_l3 : Z;
  pf_total : Z; pf_l1 : Z; pf_l2 : Z; pf_l3 : Z;
  power_limit : Z;
  meter_id : list Z;
  timestamp : list Z;
  equipment_id : list Z;
  is_3phase : bool;
  frame_complete : bool;
  has_pf_data : bool
}.

(** Declared sizes of the text fields. *)
Definition METER_ID_SIZE : nat := 33.
Definition TIMESTAMP_SIZE : nat := 14.
Definition EQUIPMENT_ID_SIZE : nat := 33.

Definition set_energy_delivered_low (v : Z) (d : dsmr_data_t) : dsmr_data_t :=
  {| energy_delivered_low := v; energy_delivered_high := energy_delivered_high d;
     energy_produced_low := energy_produced_low d;
     energy_produced_high := energy_produced_high d; current_power := current_power d;
     current_return := current_return d; power_l1 := power_l1 d; power_l2 := power_l2 d;
     power_l3 := power_l3 d; return_l1 := return_l1 d; return_l2 := return_l2 d;
     return_l3 := return_l3 d; voltage_l1 := voltage_l1 d; voltage_l2 := voltage_l2 d;
     voltage_l3 := voltage_l3 d; current_l1 := current_l1 d; current_l2 := current_l2 d;
     current_l3 := current_l3 d; pf_total := pf_total d; pf_l1 := pf_l1 d; pf_l2 := pf_l2 d;
     pf_l3 := pf_l3 d; power_limit := power_limit d; meter_id := meter_id d;
     timestamp := timestamp d; equipment_id := equipment_id d; is_3phase := is_3phase d;
     frame_complete := frame_complete d; has_pf_data := has_pf_data d |}.

Definition set_energy_delivered_high (v : Z) (d : dsmr_data_t) : dsmr_data_t :=
  {| energy_delivered_low := energy_delivered_low d; energy_delivered_high := v;
     energy_produced_low := energy_produced_low d;
     energy_produced_high := energy_produced_high d; current_power := current_power d;
     current_return := current_return d; power_l1 := power_l1 d; power_l2 := power_l2 d;
     power_l3 := power_l3 d; return_l1 := return_l1 d; return_l2 := return_l2 d;
     return_l3 := return_l3 d; voltage_l1 := voltage_l1 d; voltage_l2 := voltage_l2 d;
     voltage_l3 := voltage_l3 d; current_l1 := current_l1 d; current_l2 := current_l2 d;
     current_l3 := current_l3 d; pf_total := pf_total d; pf_l1 := pf_l1 d; pf_l2 := pf_l2 d;
     pf_l3 := pf_l3 d; power_limit := power_limit d; meter_id := meter_id d;
     timestamp := timestamp d; equipment_id := equipment_id d; is_3phase := is_3phase d;
     frame_complete := frame_complete d; has_pf_data := has_pf_data d |}.

Definition set_energy_produced_low (v : Z) (d : dsmr_data_t) : dsmr_data_t :=
  {| energy_delivered_low := energy_delivered_low d;
     energy_delivered_high := energy_delivered_high d; energy_produced_low := v;
     energy_produced_high := energy_produced_high d; current_power := current_power d;
     current_return := current_return d; power_l1 := power_l1 d; power_l2 := power_l2 d;
     power_l3 := power_l3 d; return_l1 := return_l1 d; return_l2 := return_l2 d;
     return_l3 := return_l3 d; voltage_l1 := voltage_l1 d; voltage_l2 := voltage_l2 d;
     voltage_l3 := voltage_l3 d; current_l1 := current_l1 d; current_l2 := current_l2 d;
     current_l3 := current_l3 d; pf_total := pf_total d; pf_l1 := pf_l1 d; pf_l2 := pf_l2 d;
     pf_l3 := pf_l3 d; power_limit := power_limit d; meter_id := meter_id d;
     timestamp := timestamp d; equipment_id := equipment_id d; is_3phase := is_3phase d;
     frame_complete := frame_complete d; has_pf_data := has_pf_data d |}.

Definition set_energy_produced_high (v : Z) (d : dsmr_data_t) : dsmr_data_t :=
  {| energy_delivered_low := energy_delivered_low d;
     energy_delivered_high := energy_delivered_high d;
     energy_produced_low := energy_produced_low d; energy_produced_high := v;
     current_power := current_power d; current_return := current_return d;
     power_l1 := power_l1 d; power_l2 := power_l2 d; power_l3 := power_l3 d;
     return_l1 := return_l1 d; return_l2 := return_l2 d; return_l3 := return_l3 d;
     voltage_l1 := voltage_l1 d; voltage_l2 := voltage_l2 d; voltage_l3 := voltage_l3 d;
     current_l1 := current_l1 d; current_l2 := current_l2 d; current_l3 := current_l3 d;
     pf_total := pf_total d; pf_l1 := pf_l1 d; pf_l2 := pf_l2 d; pf_l3 := pf_l3 d;
     power_limit := power_limit d; meter_id := meter_id d; timestamp := timestamp d;
     equipment_id := equipment_id d; is_3phase := is_3phase d;
     frame_complete := frame_complete d; has_pf_data := has_pf_data d |}.

Definition set_current_power (v : Z) (d : dsmr_data_t) : dsmr_data_t :=
  {| energy_delivered_low := energy_delivered_low d;
     energy_delivered_high := energy_delivered_high d;
     energy_produced_low := energy_produced_low d;
     energy_produced_high := energy_produced_high d; current_power := v;
     current_return := current_return d; power_l1 := power_l1 d; power_l2 := power_l2 d;
     power_l3 := power_l3 d; return_l1 := return_l1 d; return_l2 := return_l2 d;
     return_l3 := return_l3 d; voltage_l1 := voltage_l1 d; voltage_l2 := voltage_l2 d;
     voltage_l3 := voltage_l3 d; current_l1 := current_l1 d; current_l2 := current_l2 d;
     current_l3 := current_l3 d; pf_total := pf_total d; pf_l1 := pf_l1 d; pf_l2 := pf_l2 d;
     pf_l3 := pf_l3 d; power_limit := power_limit d; meter_id := meter_id d;
     timestamp := timestamp d; equipment_id := equipment_id d; is_3phase := is_3phase d;
     frame_complete := frame_complete d; has_pf_data := has_pf_data d |}.

Definition set_current_return (v : Z) (d : dsmr_data_t) : dsmr_data_t :=
  {| energy_delivered_low := energy_delivered_low d;
     energy_delivered_high := energy_delivered_high d;
     energy_produced_low := energy_produced_low d;
     energy_produced_high := energy_produced_high d; current_power := current_power d;
     current_return := v; power_l1 := power_l1 d; power_l2 := power_l2 d;
     power_l3 := power_l3 d; return_l1 := return_l1 d; return_l2 := return_l2 d;
     return_l3 := return_l3 d; voltage_l1 := voltage_l1 d; voltage_l2 := voltage_l2 d;
     voltage_l3 := voltage_l3 d; current_l1 := current_l1 d; current_l2 := current_l2 d;
     current_l3 := current_l3 d; pf_total := pf_total d; pf_l1 := pf_l1 d; pf_l2 := pf_l2 d;
     pf_l3 := pf_l3 d; power_limit := power_limit d; meter_id := meter_id d;
     timestamp := timestamp d; equipment_id := equipment_id d; is_3phase := is_3phase d;
     frame_complete := frame_complete d; has_pf_data := has_pf_data d |}.

Definition set_power_l1 (v : Z) (d : dsmr_data_t) : dsmr_data_t :=
  {| energy_delivered_low := energy_delivered_low d;
     energy_delivered_high := energy_delivered_high d;
     energy_produced_low := energy_produced_low d;
     energy_produced_high := energy_produced_high d; current_power := current_power d;
     current_return := current_return d; power_l1 := v; power_l2 := power_l2 d;
     power_l3 := power_l3 d; return_l1 := return_l1 d; return_l2 := return_l2 d;
     return_l3 := return_l3 d; voltage_l1 := voltage_l1 d; voltage_l2 := voltage_l2 d;
     voltage_l3 := voltage_l3 d; current_l1 := current_l1 d; current_l2 := current_l2 d;
     current_l3 := current_l3 d; pf_total := pf_total d; pf_l1 := pf_l1 d; pf_l2 := pf_l2 d;
     pf_l3 := pf_l3 d; power_limit := power_limit d; meter_id := meter_id d;
     timestamp := timestamp d; equipment_id := equipment_id d; is_3phase := is_3phase d;
     frame_complete := frame_complete d; has_pf_data := has_pf_data d |}.

Definition set_power_l2 (v : Z) (d : dsmr_data_t) : dsmr_data_t :=
  {| energy_delivered_low := energy_delivered_low d;
     energy_delivered_high := energy_delivered_high d;
     energy_produced_low := energy_produced_low d;
     energy_produced_high := energy_produced_high d; current_power := current_power d;
     current_return := current_return d; power_l1 := power_l1 d; power_l2 := v;
     power_l3 := power_l3 d; return_l1 := return_l1 d; return_l2 := return_l2 d;
     return_l3 := return_l3 d; voltage_l1 := voltage_l1 d; voltage_l2 := voltage_l2 d;
     voltage_l3 := voltage_l3 d; current_l1 := current_l1 d; current_l2 := current_l2 d;
     current_l3 := current_l3 d; pf_total := pf_total d; pf_l1 := pf_l1 d; pf_l2 := pf_l2 d;
     pf_l3 := pf_l3 d; power_limit := power_limit d; meter_id := meter_id d;
     timestamp := timestamp d; equipment_id := equipment_id d; is_3phase := is_3phase d;
     frame_complete := frame_complete d; has_pf_data := has_pf_data d |}.

Definition set_power_l3 (v : Z) (d : dsmr_data_t) : dsmr_data_t :=
  {| energy_delivered_low := energy_delivered_low d;
     energy_delivered_high := energy_delivered_high d;
     energy_produced_low := energy_produced_low d;
     energy_produced_high := energy_produced_high d; current_power := current_power d;
     current_return := current_return d; power_l1 := power_l1 d; power_l2 := power_l2 d;
     power_l3 := v; return_l1 := return_l1 d; return_l2 := return_l2 d;
     return_l3 := return_l3 d; voltage_l1 := voltage_l1 d; voltage_l2 := voltage_l2 d;
     voltage_l3 := voltage_l3 d; current_l1 := current_l1 d; current_l2 := current_l2 d;
     current_l3 := current_l3 d; pf_total := pf_total d; pf_l1 := pf_l1 d; pf_l2 := pf_l2 d;
     pf_l3 := pf_l3 d; power_limit := power_limit d; meter_id := meter_id d;
     timestamp := timestamp d; equipment_id := equipment_id d; is_3phase := is_3phase d;
     frame_complete := frame_complete d; has_pf_data := has_pf_data d |}.

Definition set_return_l1 (v : Z) (d : dsmr_data_t) : dsmr_data_t :=
  {| energy_delivered_low := energy_delivered_low d;
     energy_delivered_high := energy_delivered_high d;
     energy_produced_low := energy_produced_low d;
     energy_produced_high := energy_produced_high d; current_power := current_power d;
     current_return := current_return d; power_l1 := power_l1 d; power_l2 := power_l2 d;
     power_l3 := power_l3 d; return_l1 := v; return_l2 := return_l2 d;
     return_l3 := return_l3 d; voltage_l1 := voltage_l1 d; voltage_l2 := voltage_l2 d;
     voltage_l3 := voltage_l3 d; current_l1 := current_l1 d; current_l2 := current_l2 d;
     current_l3 := current_l3 d; pf_total := pf_total d; pf_l1 := pf_l1 d; pf_l2 := pf_l2 d;
     pf_l3 := pf_l3 d; power_limit := power_limit d; meter_id := meter_id d;
     timestamp := timestamp d; equipment_id := equipment_id d; is_3phase := is_3phase d;
     frame_complete := frame_complete d; has_pf_data := has_pf_data d |}.

Definition set_return_l2 (v : Z) (d : dsmr_data_t) : dsmr_data_t :=
  {| energy_delivered_low := energy_delivered_low d;
     energy_delivered_high := energy_delivered_high d;
     energy_produced_low := energy_produced_low d;
     energy_produced_high := energy_produced_high d; current_power := current_power d;
     current_return := current_return d; power_l1 := power_l1 d; power_l2 := power_l2 d;
     power_l3 := power_l3 d; return_l1 := return_l1 d; return_l2 := v;
     return_l3 := return_l3 d; voltage_l1 := voltage_l1 d; voltage_l2 := voltage_l2 d;
     voltage_l3 := voltage_l3 d; current_l1 := current_l1 d; current_l2 := current_l2 d;
     current_l3 := current_l3 d; pf_total := pf_total d; pf_l1 := pf_l1 d; pf_l2 := pf_l2 d;
     pf_l3 := pf_l3 d; power_limit := power_limit d; meter_id := meter_id d;
     timestamp := timestamp d; equipment_id := equipment_id d; is_3phase := is_3phase d;
     frame_complete := frame_complete d; has_pf_data := has_pf_data d |}.

Definition set_return_l3 (v : Z) (d : dsmr_data_t) : dsmr_data_t :=
  {| energy_delivered_low := energy_delivered_low d;
     energy_delivered_high := energy_delivered_high d;
     energy_produced_low := energy_produced_low d;
     energy_produced_high := energy_produced_high d; current_power := current_power d;
     current_return := current_return d; power_l1 := power_l1 d; power_l2 := power_l2 d;
     power_l3 := power_l3 d; return_l1 := return_l1 d; return_l2 := return_l2 d;
     return_l3 := v; voltage_l1 := voltage_l1 d; voltage_l2 := voltage_l2 d;
     voltage_l3 := voltage_l3 d; current_l1 := current_l1 d; current_l2 := current_l2 d;
     current_l3 := current_l3 d; pf_total := pf_total d; pf_l1 := pf_l1 d; pf_l2 := pf_l2 d;
     pf_l3 := pf_l3 d; power_limit := power_limit d; meter_id := meter_id d;
     timestamp := timestamp d; equipment_id := equipment_id d; is_3phase := is_3phase d;
     frame_complete := frame_complete d; has_pf_data := has_pf_data d |}.

Definition set_voltage_l1 (v : Z) (d : dsmr_data_t) : dsmr_data_t :=
  {| energy_delivered_low := energy_delivered_low d;
     energy_delivered_high := energy_delivered_high d;
     energy_produced_low := energy_produced_low d;
     energy_produced_high := energy_produced_high d; current_power := current_power d;
     current_return := current_return d; power_l1 := power_l1 d; power_l2 := power_l2 d;
     power_l3 := power_l3 d; return_l1 := return_l1 d; return_l2 := return_l2 d;
     return_l3 := return_l3 d; voltage_l1 := v; voltage_l2 := voltage_l2 d;
     voltage_l3 := voltage_l3 d; current_l1 := current_l1 d; current_l2 := current_l2 d;
     current_l3 := current_l3 d; pf_total := pf_total d; pf_l1 := pf_l1 d; pf_l2 := pf_l2 d;
     pf_l3 := pf_l3 d; power_limit := power_limit d; meter_id := meter_id d;
     timestamp := timestamp d; equipment_id := equipment_id d; is_3phase := is_3phase d;
     frame_complete := frame_complete d; has_pf_data := has_pf_data d |}.

Definition set_voltage_l2 (v : Z) (d : dsmr_data_t) : dsmr_data_t :=
  {| energy_delivered_low := energy_delivered_low d;
     energy_delivered_high := energy_delivered_high d;
     energy_produced_low := energy_produced_low d;
     energy_produced_high := energy_produced_high d; current_power := current_power d;
     current_return := current_return d; power_l1 := power_l1 d; power_l2 := power_l2 d;
     power_l3 := power_l3 d; return_l1 := return_l1 d; return_l2 := return_l2 d;
     return_l3 := return_l3 d; voltage_l1 := voltage_l1 d; voltage_l2 := v;
     voltage_l3 := voltage_l3 d; current_l1 := current_l1 d; current_l2 := current_l2 d;
     current_l3 := current_l3 d; pf_total := pf_total d; pf_l1 := pf_l1 d; pf_l2 := pf_l2 d;
     pf_l3 := pf_l3 d; power_limit := power_limit d; meter_id := meter_id d;
     timestamp := timestamp d; equipment_id := equipment_id d; is_3phase := is_3phase d;
     frame_complete := frame_complete d; has_pf_data := has_pf_data d |}.

Definition set_voltage_l3 (v : Z) (d : dsmr_data_t) : dsmr_data_t :=
  {| energy_delivered_low := energy_delivered_low d;
     energy_delivered_high := energy_delivered_high d;
     energy_produced_low := energy_produced_low d;
     energy_produced_high := energy_produced_high d; current_power := current_power d;
     current_return := current_return d; power_l1 := power_l1 d; power_l2 := power_l2 d;
     power_l3 := power_l3 d; return_l1 := return_l1 d; return_l2 := return_l2 d;
     return_l3 := return_l3 d; voltage_l1 := voltage_l1 d; voltage_l2 := voltage_l2 d;
     voltage_l3 := v; current_l1 := current_l1 d; current_l2 := current_l2 d;
     current_l3 := current_l3 d; pf_total := pf_total d; pf_l1 := pf_l1 d; pf_l2 := pf_l2 d;
     pf_l3 := pf_l3 d; power_limit := power_limit d; meter_id := meter_id d;
     timestamp := timestamp d; equipment_id := equipment_id d; is_3phase := is_3phase d;
     frame_complete := frame_complete d; has_pf_data := has_pf_data d |}.

Definition set_current_l1 (v : Z) (d : dsmr_data_t) : dsmr_data_t :=
  {| energy_delivered_low := energy_delivered_low d;
     energy_delivered_high := energy_delivered_high d;
     energy_produced_low := energy_produced_low d;
     energy_produced_high := energy_produced_high d; current_power := current_power d;
     current_return := current_return d; power_l1 := power_l1 d; power_l2 := power_l2 d;
     power_l3 := power_l3 d; return_l1 := return_l1 d; return_l2 := return_l2 d;
     return_l3 := return_l3 d; voltage_l1 := voltage_l1 d; voltage_l2 := voltage_l2 d;
     voltage_l3 := voltage_l3 d; current_l1 := v; current_l2 := current_l2 d;
     current_l3 := current_l3 d; pf_total := pf_total d; pf_l1 := pf_l1 d; pf_l2 := pf_l2 d;
     pf_l3 := pf_l3 d; power_limit := power_limit d; meter_id := meter_id d;
     timestamp := timestamp d; equipment_id := equipment_id d; is_3phase := is_3phase d;
     frame_complete := frame_complete d; has_pf_data := has_pf_data d |}.

Definition set_current_l2 (v : Z) (d : dsmr_data_t) : dsmr_data_t :=
  {| energy_delivered_low := energy_delivered_low d;
     energy_delivered_high := energy_delivered_high d;
     energy_produced_low := energy_produced_low d;
     energy_produced_high := energy_produced_high d; current_power := current_power d;
     current_return := current_return d; power_l1 := power_l1 d; power_l2 := power_l2 d;
     power_l3 := power_l3 d; return_l1 := return_l1 d; return_l2 := return_l2 d;
     return_l3 := return_l3 d; voltage_l1 := voltage_l1 d; voltage_l2 := voltage_l2 d;
     voltage_l3 := voltage_l3 d; current_l1 := current_l1 d; current_l2 := v;
     current_l3 := current_l3 d; pf_total := pf_total d; pf_l1 := pf_l1 d; pf_l2 := pf_l2 d;
     pf_l3 := pf_l3 d; power_limit := power_limit d; meter_id := meter_id d;
     timestamp := timestamp d; equipment_id := equipment_id d; is_3phase := is_3phase d;
     frame_complete := frame_complete d; has_pf_data := has_pf_data d |}.

Definition set_current_l3 (v : Z) (d : dsmr_data_t) : dsmr_data_t :=
  {| energy_delivered_low := energy_delivered_low d;
     energy_delivered_high := energy_delivered_high d;
     energy_produced_low := energy_produced_low d;
     energy_produced_high := energy_produced_high d; current_power := current_power d;
     current_return := current_return d; power_l1 := power_l1 d; power_l2 := power_l2 d;
     power_l3 := power_l3 d; return_l1 := return_l1 d; return_l2 := return_l2 d;
     return_l3 := return_l3 d; voltage_l1 := voltage_l1 d; voltage_l2 := voltage_l2 d;
     voltage_l3 := voltage_l3 d; current_l1 := current_l1 d; current_l2 := current_l2 d;
     current_l3 := v; pf_total := pf_total d; pf_l1 := pf_l1 d; pf_l2 := pf_l2 d;
     pf_l3 := pf_l3 d; power_limit := power_limit d; meter_id := meter_id d;
     timestamp := timestamp d; equipment_id := equipment_id d; is_3phase := is_3phase d;
     frame_complete := frame_complete d; has_pf_data := has_pf_data d |}.

Definition set_pf_total (v : Z) (d : dsmr_data_t) : dsmr_data_t :=
  {| energy_delivered_low := energy_delivered_low d;
     energy_delivered_high := energy_delivered_high d;
     energy_produced_low := energy_produced_low d;
     energy_produced_high := energy_produced_high d; current_power := current_power d;
     current_return := current_return d; power_l1 := power_l1 d; power_l2 := power_l2 d;
     power_l3 := power_l3 d; return_l1 := return_l1 d; return_l2 := return_l2 d;
     return_l3 := return_l3 d; voltage_l1 := voltage_l1 d; voltage_l2 := voltage_l2 d;
     voltage_l3 := voltage_l3 d; current_l1 := current_l1 d; current_l2 := current_l2 d;
     current_l3 := current_l3 d; pf_total := v; pf_l1 := pf_l1 d; pf_l2 := pf_l2 d;
     pf_l3 := pf_l3 d; power_limit := power_limit d; meter_id := meter_id d;
     timestamp := timestamp d; equipment_id := equipment_id d; is_3phase := is_3phase d;
     frame_complete := frame_complete d; has_pf_data := has_pf_data d |}.

Definition set_pf_l1 (v : Z) (d : dsmr_data_t) : dsmr_data_t :=
  {| energy_delivered_low := energy_delivered_low d;
     energy_delivered_high := energy_delivered_high d;
     energy_produced_low := energy_produced_low d;
     energy_produced_high := energy_produced_high d; current_power := current_power d;
     current_return := current_return d; power_l1 := power_l1 d; power_l2 := power_l2 d;
     power_l3 := power_l3 d; return_l1 := return_l1 d; return_l2 := return_l2 d;
     return_l3 := return_l3 d; voltage_l1 := voltage_l1 d; voltage_l2 := voltage_l2 d;
     voltage_l3 := voltage_l3 d; current_l1 := current_l1 d; current_l2 := current_l2 d;
     current_l3 := current_l3 d; pf_total := pf_total d; pf_l1 := v; pf_l2 := pf_l2 d;
     pf_l3 := pf_l3 d; power_limit := power_limit d; meter_id := meter_id d;
     timestamp := timestamp d; equipment_id := equipment_id d; is_3phase := is_3phase d;
     frame_complete := frame_complete d; has_pf_data := has_pf_data d |}.

Definition set_pf_l2 (v : Z) (d : dsmr_data_t) : dsmr_data_t :=
  {| energy_delivered_low := energy_delivered_low d;
     energy_delivered_high := energy_delivered_high d;
     energy_produced_low := energy_produced_low d;
     energy_produced_high := energy_produced_high d; current_power := current_power d;
     current_return := current_return d; power_l1 := power_l1 d; power_l2 := power_l2 d;
     power_l3 := power_l3 d; return_l1 := return_l1 d; return_l2 := return_l2 d;
     return_l3 := return_l3 d; voltage_l1 := voltage_l1 d; voltage_l2 := voltage_l2 d;
     voltage_l3 := voltage_l3 d; current_l1 := current_l1 d; current_l2 := current_l2 d;
     current_l3 := current_l3 d; pf_total := pf_total d; pf_l1 := pf_l1 d; pf_l2 := v;
     pf_l3 := pf_l3 d; power_limit := power_limit d; meter_id := meter_id d;
     timestamp := timestamp d; equipment_id := equipment_id d; is_3phase := is_3phase d;
     frame_complete := frame_complete d; has_pf_data := has_pf_data d |}.

Definition set_pf_l3 (v : Z) (d : dsmr_data_t) : dsmr_data_t :=
  {| energy_delivered_low := energy_delivered_low d;
     energy_delivered_high := energy_delivered_high d;
     energy_produced_low := energy_produced_low d;
     energy_produced_high := energy_produced_high d; current_power := current_power d;
     current_return := current_return d; power_l1 := power_l1 d; power_l2 := power_l2 d;
     power_l3 := power_l3 d; return_l1 := return_l1 d; return_l2 := return_l2 d;
     return_l3 := return_l3 d; voltage_l1 := voltage_l1 d; voltage_l2 := voltage_l2 d;
     voltage_l3 := voltage_l3 d; current_l1 := current_l1 d; current_l2 := current_l2 d;
     current_l3 := current_l3 d; pf_total := pf_total d; pf_l1 := pf_l1 d; pf_l2 := pf_l2 d;
     pf_l3 := v; power_limit := power_limit d; meter_id := meter_id d;
     timestamp := timestamp d; equipment_id := equipment_id d; is_3phase := is_3phase d;
     frame_complete := frame_complete d; has_pf_data := has_pf_data d |}.

Definition set_power_limit (v : Z) (d : dsmr_data_t) : dsmr_data_t :=
  {| energy_delivered_low := energy_delivered_low d;
     energy_delivered_high := energy_delivered_high d;
     energy_produced_low := energy_produced_low d;
     energy_produced_high := energy_produced_high d; current_power := current_power d;
     current_return := current_return d; power_l1 := power_l1 d; power_l2 := power_l2 d;
     power_l3 := power_l3 d; return_l1 := return_l1 d; return_l2 := return_l2 d;
     return_l3 := return_l3 d; voltage_l1 := voltage_l1 d; voltage_l2 := voltage_l2 d;
     voltage_l3 := voltage_l3 d; current_l1 := current_l1 d; current_l2 := current_l2 d;
     current_l3 := current_l3 d; pf_total := pf_total d; pf_l1 := pf_l1 d; pf_l2 := pf_l2 d;
     pf_l3 := pf_l3 d; power_limit := v; meter_id := meter_id d; timestamp := timestamp d;
     equipment_id := equipment_id d; is_3phase := is_3phase d;
     frame_complete := frame_complete d; has_pf_data := has_pf_data d |}.

Definition set_meter_id (v : list Z) (d : dsmr_data_t) : dsmr_data_t :=
  {| energy_delivered_low := energy_delivered_low d;
     energy_delivered_high := energy_delivered_high d;
     energy_produced_low := energy_produced_low d;
     energy_produced_high := energy_produced_high d; current_power := current_power d;
     current_return := current_return d; power_l1 := power_l1 d; power_l2 := power_l2 d;
     power_l3 := power_l3 d; return_l1 := return_l1 d; return_l2 := return_l2 d;
     return_l3 := return_l3 d; voltage_l1 := voltage_l1 d; voltage_l2 := voltage_l2 d;
     voltage_l3 := voltage_l3 d; current_l1 := current_l1 d; current_l2 := current_l2 d;
     current_l3 := current_l3 d; pf_total := pf_total d; pf_l1 := pf_l1 d; pf_l2 := pf_l2 d;
     pf_l3 := pf_l3 d; power_limit := power_limit d; meter_id := v; timestamp := timestamp d;
     equipment_id := equipment_id d; is_3phase := is_3phase d;
     frame_complete := frame_complete d; has_pf_data := has_pf_data d |}.

Definition set_timestamp (v : list Z) (d : dsmr_data_t) : dsmr_data_t :=
  {| energy_delivered_low := energy_delivered_low d;
     energy_delivered_high := energy_delivered_high d;
     energy_produced_low := energy_produced_low d;
     energy_produced_high := energy_produced_high d; current_power := current_power d;
     current_return := current_return d; power_l1 := power_l1 d; power_l2 := power_l2 d;
     power_l3 := power_l3 d; return_l1 := return_l1 d; return_l2 := return_l2 d;
     return_l3 := return_l3 d; voltage_l1 := voltage_l1 d; voltage_l2 := voltage_l2 d;
     voltage_l3 := voltage_l3 d; current_l1 := current_l1 d; current_l2 := current_l2 d;
     current_l3 := current_l3 d; pf_total := pf_total d; pf_l1 := pf_l1 d; pf_l2 := pf_l2 d;
     pf_l3 := pf_l3 d; power_limit := power_limit d; meter_id := meter_id d; timestamp := v;
     equipment_id := equipment_id d; is_3phase := is_3phase d;
     frame_complete := frame_complete d; has_pf_data := has_pf_data d |}.

Definition set_equipment_id (v : list Z) (d : dsmr_data_t) : dsmr_data_t :=
  {| energy_delivered_low := energy_delivered_low d;
     energy_delivered_high := energy_delivered_high d;
     energy_produced_low := energy_produced_low d;
     energy_produced_high := energy_produced_high d; current_power := current_power d;
     current_return := current_return d; power_l1 := power_l1 d; power_l2 := power_l2 d;
     power_l3 := power_l3 d; return_l1 := return_l1 d; return_l2 := return_l2 d;
     return_l3 := return_l3 d; voltage_l1 := voltage_l1 d; voltage_l2 := voltage_l2 d;
     voltage_l3 := voltage_l3 d; current_l1 := current_l1 d; current_l2 := current_l2 d;
     current_l3 := current_l3 d; pf_total := pf_total d; pf_l1 := pf_l1 d; pf_l2 := pf_l2 d;
     pf_l3 := pf_l3 d; power_limit := power_limit d; meter_id := meter_id d;
     timestamp := timestamp d; equipment_id := v; is_3phase := is_3phase d;
     frame_complete := frame_complete d; has_pf_data := has_pf_data d |}.

Definition set_is_3phase (v : bool) (d : dsmr_data_t) : dsmr_data_t :=
  {| energy_delivered_low := energy_delivered_low d;
     energy_delivered_high := energy_delivered_high d;
     energy_produced_low := energy_produced_low d;
     energy_produced_high := energy_produced_high d; current_power := current_power d;
     current_return := current_return d; power_l1 := power_l1 d; power_l2 := power_l2 d;
     power_l3 := power_l3 d; return_l1 := return_l1 d; return_l2 := return_l2 d;
     return_l3 := return_l3 d; voltage_l1 := voltage_l1 d; voltage_l2 := voltage_l2 d;
     voltage_l3 := voltage_l3 d; current_l1 := current_l1 d; current_l2 := current_l2 d;
     current_l3 := current_l3 d; pf_total := pf_total d; pf_l1 := pf_l1 d; pf_l2 := pf_l2 d;
     pf_l3 := pf_l3 d; power_limit := power_limit d; meter_id := meter_id d;
     timestamp := timestamp d; equipment_id := equipment_id d; is_3phase := v;
     frame_complete := frame_complete d; has_pf_data := has_pf_data d |}.

Definition set_frame_complete (v : bool) (d : dsmr_data_t) : dsmr_data_t :=
  {| energy_delivered_low := energy_delivered_low d;
     energy_delivered_high := energy_delivered_high d;
     energy_produced_low := energy_produced_low d;
     energy_produced_high := energy_produced_high d; current_power := current_power d;
     current_return := current_return d; power_l1 := power_l1 d; power_l2 := power_l2 d;
     power_l3 := power_l3 d; return_l1 := return_l1 d; return_l2 := return_l2 d;
     return_l3 := return_l3 d; voltage_l1 := voltage_l1 d; voltage_l2 := voltage_l2 d;
     voltage_l3 := voltage_l3 d; current_l1 := current_l1 d; current_l2 := current_l2 d;
     current_l3 := current_l3 d; pf_total := pf_total d; pf_l1 := pf_l1 d; pf_l2 := pf_l2 d;
     pf_l3 := pf_l3 d; power_limit := power_limit d; meter_id := meter_id d;
     timestamp := timestamp d; equipment_id := equipment_id d; is_3phase := is_3phase d;
     frame_complete := v; has_pf_data := has_pf_data d |}.

Definition set_has_pf_data (v : bool) (d : dsmr_data_t) : dsmr_data_t :=
  {| energy_delivered_low := energy_delivered_low d;
     energy_delivered_high := energy_delivered_high d;
     energy_produced_low := energy_produced_low d;
     energy_produced_high := energy_produced_high d; current_power := current_power d;
     current_return := current_return d; power_l1 := power_l1 d; power_l2 := power_l2 d;
     power_l3 := power_l3 d; return_l1 := return_l1 d; return_l2 := return_l2 d;
     return_l3 := return_l3 d; voltage_l1 := voltage_l1 d; voltage_l2 := voltage_l2 d;
     voltage_l3 := voltage_l3 d; current_l1 := current_l1 d; current_l2 := current_l2 d;
     current_l3 := current_l3 d; pf_total := pf_total d; pf_l1 := pf_l1 d; pf_l2 := pf_l2 d;
     pf_l3 := pf_l3 d; power_limit := power_limit d; meter_id := meter_id d;
     timestamp := timestamp d; equipment_id := equipment_id d; is_3phase := is_3phase d;
     frame_complete := frame_complete d; has_pf_data := v |}.

Definition dsmr_data_zero : dsmr_data_t :=
  {| energy_delivered_low := 0; energy_delivered_high := 0;
     energy_produced_low := 0; energy_produced_high := 0;
     current_power := 0; current_return := 0;
     power_l1 := 0; power_l2 := 0; power_l3 := 0;
     return_l1 := 0; return_l2 := 0; return_l3 := 0;
     voltage_l1 := 0; voltage_l2 := 0; voltage_l3 := 0;
     current_l1 := 0; current_l2 := 0; current_l3 := 0;
     pf_total := 0; pf_l1 := 0; pf_l2 := 0; pf_l3 := 0;
     power_limit := 0;
     meter_id := repeat NUL METER_ID_SIZE;
     timestamp := repeat NUL TIMESTAMP_SIZE;
     equipment_id := repeat NUL EQUIPMENT_ID_SIZE;
     is_3phase := false; frame_complete := false; has_pf_data := false |}.

(** ** Storing a parsed value *)

Definition in_range (lo hi : obis_id_t) (o : obis_id_t) : bool :=
  (obis_value lo <=? obis_value o) && (obis_value o <=? obis_value hi).

Definition store_value (data : dsmr_data_t) (obis_type : obis_id_t)
    (value_str : list Z) : dsmr_data_t :=
  match obis_type with
  | OBIS_ID_METER_ID =>
      set_meter_id
        (strncpy (meter_id data) value_str (METER_ID_SIZE - 1)) data
  | OBIS_ID_TIMESTAMP =>
      set_timestamp
        (strncpy (timestamp data) value_str (TIMESTAMP_SIZE - 1)) data
  | _ =>
      let '(value, data) :=
        if in_range OBIS_ID_VOLTAGE_L1 OBIS_ID_VOLTAGE_L3 obis_type then
          (ascii_to_fixed value_str 2, data)
        else if in_range OBIS_ID_CURRENT_L1 OBIS_ID_CURRENT_L3 obis_type then
          (ascii_to_fixed value_str 3, data)
        else if in_range OBIS_ID_PF_TOTAL OBIS_ID_PF_L3 obis_type then
          (Z.quot (ascii_to_fixed value_str 6) 100, set_has_pf_data true data)
        else
          (ascii_to_fixed value_str 6, data) in
      match obis_type with
      | OBIS_ID_POWER_LIMIT => set_power_limit (to_s32 value) data
      | OBIS_ID_ENERGY_DEL_LOW => set_energy_delivered_low (to_u64 value) data
      | OBIS_ID_ENERGY_DEL_HIGH =>
          set_energy_delivered_high (to_u64 value) data
      | OBIS_ID_ENERGY_PROD_LOW => set_energy_produced_low (to_u64 value) data
      | OBIS_ID_ENERGY_PROD_HIGH =>
          set_energy_produced_high (to_u64 value) data
      | OBIS_ID_CURRENT_POWER => set_current_power (to_s32 value) data
      | OBIS_ID_CURRENT_RETURN => set_current_return (to_s32 value) data
      | OBIS_ID_POWER_L1 => set_power_l1 (to_s32 value) data
      | OBIS_ID_POWER_L2 =>
          set_is_3phase true (set_power_l2 (to_s32 value) data)
      | OBIS_ID_POWER_L3 =>
          set_is_3phase true (set_power_l3 (to_s32 value) data)
      | OBIS_ID_RETURN_L1 => set_return_l1 (to_s32 value) data
      | OBIS_ID_RETURN_L2 => set_return_l2 (to_s32 value) data
      | OBIS_ID_RETURN_L3 => set_return_l3 (to_s32 value) data
      | OBIS_ID_VOLTAGE_L1 => set_voltage_l1 (to_s16 value) data
      | OBIS_ID_VOLTAGE_L2 =>
          set_is_3phase true (set_voltage_l2 (to_s16 value) data)
      | OBIS_ID_VOLTAGE_L3 =>
          set_is_3phase true (set_voltage_l3 (to_s16 value) data)
      | OBIS_ID_CURRENT_L1 => set_current_l1 (to_s16 value) data
      | OBIS_ID_CURRENT_L2 =>
          set_is_3phase true (set_current_l2 (to_s16 value) data)
      | OBIS_ID_CURRENT_L3 =>
          set_is_3phase true (set_current_l3 (to_s16 value) data)
      | OBIS_ID_PF_TOTAL => set_pf_total (to_s32 value) data
      | OBIS_ID_PF_L1 => set_pf_l1 (to_s32 value) data
      | OBIS_ID_PF_L2 => set_pf_l2 (to_s32 value) data
      | OBIS_ID_PF_L3 => set_pf_l3 (to_s32 value) data
      | _ => data
      end
  end.

(** ** Parser state *)

Definition LINE_BUFFER_SIZE : nat := 80.

Record dsmr_parser_t : Set := {
  line_buffer : list Z;
  line_index : Z;
  frame_active : Z;
  crc_calculated : Z;
  crc_done : Z
}.

Definition set_frame_active (v : Z) (p : dsmr_parser_t) : dsmr_parser_t :=
  {| line_buffer := line_buffer p; line_index := line_index p;
     frame_active := v; crc_calculated := crc_calculated p;
     crc_done := crc_done p |}.

Definition set_line (buf : list Z) (idx : Z) (p : dsmr_parser_t)
  : dsmr_parser_t :=
  {| line_buffer := buf; line_index := idx;
     frame_active := frame_active p; crc_calculated := crc_calculated p;
     crc_done := crc_done p |}.

Definition set_crc (crc done : Z) (p : dsmr_parser_t) : dsmr_parser_t :=
  {| line_buffer := line_buffer p; line_index := line_index p;
     frame_active := frame_active p; crc_calculated := crc;
     crc_done := done |}.

(** ** Line dispatch

    [line] is the parser's own line buffer.  The source overwrites the first
    [(] with NUL while it looks the code up and puts it back afterwards, so the
    buffer leaves [process_line] as it entered. *)
Definition process_line (parser : dsmr_parser_t) (data : dsmr_data_t)
    (line : list Z) : dsmr_parser_t * dsmr_data_t :=
  let c0 := char_at line 0 in
  if (c0 =? NUL) || (c0 =? CR) then (parser, data)
  else if ((c0 =? SLASH) || is_upper c0) && is_null (strchr line COLON)
  then
    (parser,
     set_equipment_id
       (strncpy (equipment_id data) line (EQUIPMENT_ID_SIZE - 1)) data)
  else if c0 =? BANG then
    let parser := set_frame_active 0 parser in
    if 5 <=? strlen line then
      let hex :=
        [char_at line 1; char_at line 2; char_at line 3; char_at line 4; NUL] in
      let received_crc := to_u16 (strtol16 hex) in
      if received_crc =? crc_calculated parser
      then (parser, set_frame_complete true data)
      else (parser, data)
    else (parser, set_frame_complete true data)
  else
    match strchr line LPAREN with
    | None => (parser, data)
    | Some paren =>
        let obis_type := match_obis_code (<[paren := NUL]> line) in
        match obis_type with
        | OBIS_ID_NONE => (parser, data)
        | _ =>
            match extract_value line with
            | Some value => (parser, store_value data obis_type value)
            | None => (parser, data)
            end
        end
    end.

(** ** Initialisation and the byte-level state machine *)

Definition dsmr_parser_zero : dsmr_parser_t :=
  {| line_buffer := repeat NUL LINE_BUFFER_SIZE; line_index := 0;
     frame_active := 0; crc_calculated := 0; crc_done := 0 |}.

Definition dsmr_parser_init : dsmr_parser_t * dsmr_data_t :=
  (dsmr_parser_zero, dsmr_data_zero).

Definition is_frame_start (c : Z) : bool :=
  (c =? SLASH) || is_upper c || is_digit c.

Definition dsmr_parse_byte (parser : dsmr_parser_t) (data : dsmr_data_t)
    (c : Z) : dsmr_parser_t * dsmr_data_t * Z :=
  if frame_active parser =? 0 then
    if is_frame_start c then
      ({| line_buffer := <[O := c]> (line_buffer parser);
          line_index := 1;
          frame_active := 1;
          crc_calculated := crc16_update 0 c;
          crc_done := 0 |}, data, 0)
    else (parser, data, 0)
  else
    let parser :=
      if crc_done parser =? 0 then
        set_crc (crc16_update (crc_calculated parser) c)
                (if c =? BANG then 1 else crc_done parser) parser
      else parser in
    if c =? LF then
      let parser :=
        set_line (<[Z.to_nat (line_index parser) := NUL]> (line_buffer parser))
                 (line_index parser) parser in
      let '(parser, data) := process_line parser data (line_buffer parser) in
      let parser := set_line (line_buffer parser) 0 parser in
      (parser, data, if frame_complete data then 1 else 0)
    else if c =? CR then (parser, data, 0)
    else if line_index parser <? Z.of_nat LINE_BUFFER_SIZE - 1 then
      (set_line (<[Z.to_nat (line_index parser) := c]> (line_buffer parser))
                (to_u8 (line_index parser + 1)) parser, data, 0)
    else (parser, data, 0).

(** Feeding a byte sequence to [dsmr_parse_byte], collecting the values it
    returns. *)
Fixpoint feed (parser : dsmr_parser_t) (data : dsmr_data_t) (bs : list Z)
  : dsmr_parser_t * dsmr_data_t * list Z :=
  match bs with
  | [] => (parser, data, [])
  | c :: rest =>
      let '(parser, data, r) := dsmr_parse_byte parser data c in
      let '(parser, data, rs) := feed parser data rest in
      (parser, data, r :: rs)
  end.

(** ** The caller: working record and last known good record *)

Record system_t : Set := {
  dsmr_data : dsmr_data_t;
  dsmr_last_good : dsmr_data_t;
  dsmr_parser : dsmr_parser_t
}.

Definition system_start : system_t :=
  {| dsmr_data := dsmr_data_zero; dsmr_last_good := dsmr_data_zero;
     dsmr_parser := dsmr_parser_zero |}.

(** The parser-related part of [processDataByte]; forwarding to TCP clients
    and the raw diagnostic buffer do not touch these three objects. *)
Definition processDataByte (s : system_t) (c : Z) : system_t :=
  let '(parser, data, ready) := dsmr_parse_byte (dsmr_parser s) (dsmr_data s) c in
  if ready =? 0 then
    {| dsmr_data := data; dsmr_last_good := dsmr_last_good s;
       dsmr_parser := parser |}
  else
    let last_good :=
      if negb (char_at (meter_id data) 0 =? NUL) && frame_complete data
      then data else dsmr_last_good s in
    let '(parser, data) := dsmr_parser_init in
    {| dsmr_data := data; dsmr_last_good := last_good; dsmr_parser := parser |}.

Definition run (s : system_t) (bs : list Z) : system_t :=
  fold_left processDataByte bs s.

(** ** Notions used in the statements *)

(** The number a string of decimal digits denotes. *)
Definition digits_value (ds : list Z) : Z :=
  fold_left (fun acc c => acc * 10 + (c - 48)) ds 0.

(** A character that [ascii_to_fixed] gives no meaning to. *)
Definition ignorable (c : Z) : Prop :=
  is_digit c = false /\ c <> DOT /\ c <> NUL.

(** The sample telegram of the specification, up to and including its [!],
    and with its checksum. *)
Definition CRLF : list Z := [CR; LF].

Definition sample_body : list Z :=
  bytes "/ISk5\2MT382-1000" ++ CRLF ++
  bytes "1-0:1.7.0(00.424*kW)" ++ CRLF ++
  bytes "1-0:2.7.0(00.000*kW)" ++ CRLF ++
  bytes "!".

Definition sample_telegram : list Z := sample_body ++ bytes "383D" ++ CRLF.

(** The text fields of a record have their declared sizes and their last
    character, which [strncpy] is never asked to write, is still the NUL that
    [memset] put there. *)
Definition text_field_ok (size : nat) (field : list Z) : Prop :=
  length field = size /\ char_at field (size - 1) = NUL.

Definition text_fields_ok (d : dsmr_data_t) : Prop :=
  text_field_ok METER_ID_SIZE (meter_id d) /\
  text_field_ok TIMESTAMP_SIZE (timestamp d) /\
  text_field_ok EQUIPMENT_ID_SIZE (equipment_id d).

(** The inverse of one shift of the CRC register on 16-bit values: bit 15 of
    the result tells whether the polynomial was applied. *)
Definition crc16_unshift (r : Z) : Z :=
  if Z.testbit r 15 then 2 * Z.lxor r 0xA001 + 1 else 2 * r.

(** [f] holds of the [count] integers from [x] on. *)
Fixpoint all_from (f : Z -> bool) (count : nat) (x : Z) : bool :=
  match count with
  | O => true
  | S n => if f x then all_from f n (x + 1) else false
  end.

(** Hexadecimal digits and the number four of them denote. *)
Definition is_hex (c : Z) : bool :=
  match hex_digit c with
  | Some _ => true
  | None => false
  end.

Definition hex_digit_value (c : Z) : Z :=
  match hex_digit c with
  | Some v => v
  | None => 0
  end.

Definition hex_value (h : list Z) : Z :=
  fold_left (fun acc c => acc * 16 + hex_digit_value c) h 0.

(** A character that ends up in the line buffer as it is. *)
Definition plain (c : Z) : Prop := c <> NUL /\ c <> LF /\ c <> CR.

(** The parser inside a frame whose bytes so far are [consumed], none of them
    a [!] at the start of a line: the CRC is open and up to date, nothing has
    been signalled, and the current line does not start with [!]. *)
Definition in_frame (consumed : list Z) (p : dsmr_parser_t) (d : dsmr_data_t)
  : Prop :=
  frame_active p = 1 /\ crc_done p = 0 /\
  crc_calculated p = crc16 consumed /\
  frame_complete d = false /\
  length (line_buffer p) = LINE_BUFFER_SIZE /\
  0 <= line_index p <= 79 /\
  (line_index p = 0 \/ char_at (line_buffer p) 0 <> BANG).

(** The parser inside a line that has started with something else than [!]. *)
Definition off_line_start (p : dsmr_parser_t) (d : dsmr_data_t) : Prop :=
  frame_active p = 1 /\
  frame_complete d = false /\
  length (line_buffer p) = LINE_BUFFER_SIZE /\
  0 < line_index p <= 79 /\
  char_at (line_buffer p) 0 <> BANG.

(** What every state the firmware reaches satisfies between two calls of
    [processDataByte]. *)
Definition system_ok (s : system_t) : Prop :=
  length (line_buffer (dsmr_parser s)) = LINE_BUFFER_SIZE /\
  frame_complete (dsmr_data s) = false.

(** The frame-complete flag of the working record after a byte sequence has
    been fed to a freshly initialised parser. *)
Definition frame_complete_after (bs : list Z) : bool :=
  let '(_, data, _) :=
    feed (fst dsmr_parser_init) (snd dsmr_parser_init) bs in
  frame_complete data.

(** A telegram with two data lines, the first character of its first data
    line and its checksum left open. *)
Definition meter_header : list Z :=
  bytes "/XMX5LGBBFG106088" ++ CRLF ++ CRLF.

Definition meter_lines : list Z :=
  bytes "-0:1.7.0(00.424*kW)" ++ CRLF ++
  bytes "1-0:2.7.0(00.000*kW)" ++ CRLF.

Definition meter_telegram (first : Z) (checksum : list Z) : list Z :=
  meter_header ++ first :: meter_lines ++ BANG :: checksum ++ CRLF.

(** A telegram with a line of one character. *)
Definition short_line_telegram (line : Z) (checksum : list Z) : list Z :=
  bytes "/ISk5\2MT382-1000" ++ CRLF ++ line :: CRLF ++
  BANG :: checksum ++ CRLF.

(** The value of a decimal numeral [ds.fs] in millionths, digits after the
    sixth fractional digit left out. *)
Definition micro_value (ds fs : list Z) : Z :=
  digits_value ds * 1000000 +
  digits_value (take 6 fs) * 10 ^ (6 - Z.of_nat (length (take 6 fs))).

(** The division [ascii_to_fixed] applies for a scale. *)
Definition rescale (scale x : Z) : Z :=
  if scale =? 2 then Z.quot x 10000
  else if scale =? 3 then Z.quot x 1000
  else x.

(** ** The raw frame shown on the status page *)

(** The second half of [processDataByte] keeps a copy of the bytes of the
    current telegram in the String [tempBuffer] and moves it to
    [lastFrameBuffer] when a line that follows a [!] ends.  It shares no
    state with the parser half above.  A String is modelled by the list of
    its characters; an Arduino String holds no NUL character, so the
    statements about this code are about streams without one. *)
Definition MAX_FRAME_SIZE : Z := 1500.

Record raw_t : Set := mkRaw {
  tempBuffer : list Z;
  tempOverflowed : bool;
  frameEndDetected : bool;
  lastFrameBuffer : list Z
}.

Definition raw_start : raw_t :=
  {| tempBuffer := []; tempOverflowed := false; frameEndDetected := false;
     lastFrameBuffer := bytes "Waiting for P1 Data..." |}.

Definition processDataByte_raw (r : raw_t) (c : Z) : raw_t :=
  let r :=
    if c =? SLASH then
      {| tempBuffer := []; tempOverflowed := false;
         frameEndDetected := false; lastFrameBuffer := lastFrameBuffer r |}
    else r in
  let r :=
    if MAX_FRAME_SIZE <=? Z.of_nat (length (tempBuffer r)) then
      {| tempBuffer := []; tempOverflowed := true;
         frameEndDetected := false; lastFrameBuffer := lastFrameBuffer r |}
    else r in
  let r :=
    {| tempBuffer := tempBuffer r ++ [c];
       tempOverflowed := tempOverflowed r;
       frameEndDetected := frameEndDetected r;
       lastFrameBuffer := lastFrameBuffer r |} in
  let r :=
    if c =? BANG then
      {| tempBuffer := tempBuffer r; tempOverflowed := tempOverflowed r;
         frameEndDetected := true; lastFrameBuffer := lastFrameBuffer r |}
    else r in
  if frameEndDetected r && (c =? LF) then
    {| tempBuffer := []; tempOverflowed := false; frameEndDetected := false;
       lastFrameBuffer :=
         if tempOverflowed r then lastFrameBuffer r else tempBuffer r |}
  else r.

Definition run_raw (r : raw_t) (bs : list Z) : raw_t :=
  fold_left processDataByte_raw bs r.

(** A byte stream without a NUL character. *)
Definition text (bs : list Z) : Prop := Forall (fun c => c <> NUL) bs.

(** What links the raw buffers to the bytes consumed so far: the working
    buffer is the end of the stream, it holds a [!] when the flag says so,
    and the captured frame is the start-up text or a piece of the stream
    that ends in a line feed and holds a [!] before it. *)
Definition received (consumed : list Z) (r : raw_t) : Prop :=
  (exists pre, consumed = pre ++ tempBuffer r) /\
  (frameEndDetected r = true -> In BANG (tempBuffer r)) /\
  (lastFrameBuffer r = lastFrameBuffer raw_start \/
   exists pre frame post,
     consumed = pre ++ (frame ++ [LF]) ++ post /\
     lastFrameBuffer r = frame ++ [LF] /\ In BANG frame).

(** ** URL encoding of network names *)

Definition PERCENT : Z := Eval cbv in chr "%".

Definition is_lower (c : Z) : bool := (97 <=? c) && (c <=? 122).

(** [isalnum] in the C locale. *)
Definition isalnum (c : Z) : bool := is_digit c || is_upper c || is_lower c.

(** One digit of [sprintf("%02X")]. *)
Definition hex_upper (n : Z) : Z := if n <? 10 then 48 + n else 55 + n.

(** [customUrlEncode]: letters and digits are kept, every other character
    becomes [%] and the two upper-case hexadecimal digits of its value as an
    unsigned char. *)
Definition customUrlEncode (str : list Z) : list Z :=
  flat_map
    (fun c =>
       if isalnum c then [c]
       else [PERCENT; hex_upper (Z.quot (to_u8 c) 16);
             hex_upper (Z.rem (to_u8 c) 16)])
    str.

(** * Properties *)

(** ** C strings *)

Lemma strlen_cstr (s : list Z) : strlen s = Z.of_nat (length (cstr s)).
Proof.
  induction s as [|c t IH]; [reflexivity|].
  simpl. destruct (c =? NUL); [reflexivity|].
  simpl length. rewrite IH. lia.
Qed.

Lemma char_at_cstr (s : list Z) (i : nat) :
  (i < length (cstr s))%nat -> char_at s i = nth i (cstr s) NUL.
Proof.
  revert i. induction s as [|c t IH]; intros i Hi; simpl in *; [lia|].
  destruct (c =? NUL); simpl in *; [lia|].
  destruct i as [|i]; [reflexivity|].
  apply IH. lia.
Qed.

Lemma cstr_nonzero (s : list Z) : Forall (fun c => c <> NUL) (cstr s).
Proof.
  induction s as [|c t IH]; simpl; [constructor|].
  destruct (Z.eqb_spec c NUL); constructor; assumption.
Qed.

Lemma cstr_idem (s : list Z) : cstr (cstr s) = cstr s.
Proof.
  induction s as [|c t IH]; simpl; [reflexivity|].
  destruct (c =? NUL) eqn:E; simpl; [reflexivity|].
  rewrite E, IH. reflexivity.
Qed.

Lemma cstr_app_nul (s r : list Z) :
  Forall (fun c => c <> NUL) s -> cstr (s ++ NUL :: r) = s.
Proof.
  induction 1 as [|c t Hc _ IH]; simpl; [reflexivity|].
  destruct (Z.eqb_spec c NUL); [contradiction|]. now rewrite IH.
Qed.

(** ** The terminator line *)

Lemma process_line_bang (parser : dsmr_parser_t) (data : dsmr_data_t)
    (line : list Z) :
  char_at line 0 = BANG ->
  process_line parser data line =
    (set_frame_active 0 parser,
     if 5 <=? strlen line then
       if to_u16 (strtol16 [char_at line 1; char_at line 2; char_at line 3;
                            char_at line 4; NUL])
          =? crc_calculated parser
       then set_frame_complete true data else data
     else set_frame_complete true data).
Proof.
  intros H0. unfold process_line. rewrite H0. simpl.
  destruct (5 <=? strlen line); [|reflexivity].
  destruct (_ =? _); reflexivity.
Qed.

Lemma strtol16_cstr (s : list Z) : strtol16 (cstr s) = strtol16 s.
Proof. unfold strtol16. now rewrite cstr_idem. Qed.

Lemma terminator_shape (line trailing : list Z) :
  cstr line = BANG :: trailing ->
  char_at line 0 = BANG /\
  strlen line = 1 + Z.of_nat (length trailing) /\
  Forall (fun c => c <> NUL) trailing /\
  forall i, (i < length trailing)%nat ->
            char_at line (S i) = nth i trailing NUL.
Proof.
  intros H. pose proof (cstr_nonzero line) as Hnz. rewrite H in Hnz.
  repeat split.
  - rewrite (char_at_cstr line 0); rewrite H; simpl; [reflexivity|lia].
  - rewrite strlen_cstr, H. simpl length. lia.
  - now inversion Hnz.
  - intros i Hi. rewrite (char_at_cstr line (S i)); rewrite H; simpl;
      [reflexivity|lia].
Qed.

(** C3.  A completed line that starts with [!]: with four or more characters
    after the [!], the first four are converted by [strtol] to the transmitted
    CRC16 and compared with the accumulated one; when they are equal the
    frame-complete flag is set, when they differ the record is left exactly as
    it was (the frame is dropped without any signal); with nothing after the
    [!], the flag is set without a comparison.  In every case the parser
    leaves the frame. *)
Theorem terminator_line_crc_check (parser : dsmr_parser_t)
    (data : dsmr_data_t) (line trailing : list Z) :
  cstr line = BANG :: trailing ->
  let received_crc := to_u16 (strtol16 (firstn 4 trailing)) in
  let result := process_line parser data line in
  fst result = set_frame_active 0 parser /\
  ((4 <= length trailing)%nat -> received_crc = crc_calculated parser ->
     snd result = set_frame_complete true data /\
     frame_complete (snd result) = true) /\
  ((4 <= length trailing)%nat -> received_crc <> crc_calculated parser ->
     snd result = data) /\
  (trailing = [] ->
     snd result = set_frame_complete true data /\
     frame_complete (snd result) = true).
Proof.
  intros Hline received_crc result.
  destruct (terminator_shape _ _ Hline) as (H0 & Hlen & Hnz & Hat).
  subst result. rewrite (process_line_bang _ _ _ H0). simpl fst. simpl snd.
  split; [reflexivity|].
  assert (Hhex : (4 <= length trailing)%nat ->
     to_u16 (strtol16 [char_at line 1; char_at line 2; char_at line 3;
                       char_at line 4; NUL]) = received_crc).
  { intros H4. subst received_crc.
    rewrite !Hat by lia.
    destruct trailing as [|t0 [|t1 [|t2 [|t3 rest]]]]; simpl in H4; try lia.
    cbn [nth firstn].
    assert (E : cstr [t0; t1; t2; t3; NUL] = [t0; t1; t2; t3]).
    { apply (cstr_app_nul [t0; t1; t2; t3] []).
      inversion Hnz as [|? ? ? Hnz1]; inversion Hnz1 as [|? ? ? Hnz2];
        inversion Hnz2 as [|? ? ? Hnz3]; inversion Hnz3; subst.
      repeat constructor; assumption. }
    now rewrite <- (strtol16_cstr [t0; t1; t2; t3; NUL]), E. }
  repeat split.
  - destruct (Z.leb_spec 5 (strlen line)); [|lia].
    rewrite (Hhex H), H1. now rewrite Z.eqb_refl.
  - destruct (Z.leb_spec 5 (strlen line)); [|lia].
    rewrite (Hhex H), H1. now rewrite Z.eqb_refl.
  - intros H4 Hne. destruct (Z.leb_spec 5 (strlen line)); [|lia].
    rewrite (Hhex H4). destruct (Z.eqb_spec received_crc (crc_calculated parser));
      [contradiction|reflexivity].
  - subst trailing. simpl in Hlen. rewrite Hlen. reflexivity.
  - subst trailing. simpl in Hlen. rewrite Hlen. reflexivity.
Qed.

Lemma terminator_line_crc_check_witness :
  let parser := set_crc 0x383D 1 dsmr_parser_zero in
  let result := process_line parser dsmr_data_zero (bytes "!383D" ++ [NUL]) in
  fst result = set_frame_active 0 parser /\
  frame_complete (snd result) = true.
Proof.
  intros parser result.
  pose proof (terminator_line_crc_check parser dsmr_data_zero
                (bytes "!383D" ++ [NUL]) (bytes "383D") eq_refl) as H.
  cbv zeta in H. destruct H as (Hp & Heq & _ & _).
  split; [exact Hp|].
  apply Heq; [vm_compute; lia | reflexivity].
Defined.

(** C10.  A terminator line with one, two or three characters after the [!] is
    accepted as it stands: the frame-complete flag is set whatever those
    characters are and whatever the accumulated CRC is. *)
Theorem short_terminator_accepted (parser : dsmr_parser_t)
    (data : dsmr_data_t) (line trailing : list Z) :
  cstr line = BANG :: trailing ->
  (1 <= length trailing <= 3)%nat ->
  process_line parser data line =
    (set_frame_active 0 parser, set_frame_complete true data) /\
  frame_complete (snd (process_line parser data line)) = true.
Proof.
  intros Hline Hlen.
  destruct (terminator_shape _ _ Hline) as (H0 & Hl & _ & _).
  rewrite (process_line_bang _ _ _ H0).
  destruct (Z.leb_spec 5 (strlen line)); [lia|]. split; reflexivity.
Qed.

Lemma short_terminator_accepted_witness :
  let parser := set_crc 0x383D 1 dsmr_parser_zero in
  process_line parser dsmr_data_zero (bytes "!zz" ++ [NUL]) =
    (set_frame_active 0 parser, set_frame_complete true dsmr_data_zero).
Proof.
  intros parser.
  apply (short_terminator_accepted parser dsmr_data_zero
           (bytes "!zz" ++ [NUL]) (bytes "zz") eq_refl).
  simpl. lia.
Defined.

(** ** Resynchronisation *)

(** C4 (as amended).  A [/] that arrives while a frame is in progress is an
    ordinary byte of that frame: it is hashed into the running CRC while the
    CRC is open, it is appended to the line buffer while there is room, the
    frame stays active, the record is untouched and nothing is signalled.  The
    line buffer and the CRC are reset, and the CRC seeded with the [/], only
    when the [/] arrives while no frame is in progress. *)
Theorem slash_mid_frame_is_data (parser : dsmr_parser_t) (data : dsmr_data_t) :
  (frame_active parser <> 0 ->
   let '(parser', data', ready) := dsmr_parse_byte parser data SLASH in
   ready = 0 /\ data' = data /\
   frame_active parser' = frame_active parser /\
   crc_done parser' = crc_done parser /\
   crc_calculated parser' =
     (if crc_done parser =? 0
      then crc16_update (crc_calculated parser) SLASH
      else crc_calculated parser) /\
   (line_index parser < 79 ->
    line_buffer parser' =
      <[Z.to_nat (line_index parser) := SLASH]> (line_buffer parser) /\
    line_index parser' = to_u8 (line_index parser + 1)) /\
   (79 <= line_index parser ->
    line_buffer parser' = line_buffer parser /\
    line_index parser' = line_index parser)) /\
  (frame_active parser = 0 ->
   dsmr_parse_byte parser data SLASH =
     ({| line_buffer := <[O := SLASH]> (line_buffer parser);
         line_index := 1;
         frame_active := 1;
         crc_calculated := crc16_update 0 SLASH;
         crc_done := 0 |}, data, 0)).
Proof.
  split.
  - intros Hactive. unfold dsmr_parse_byte.
    destruct (Z.eqb_spec (frame_active parser) 0) as [E|_]; [contradiction|].
    change (SLASH =? LF) with false. change (SLASH =? CR) with false.
    change (SLASH =? BANG) with false. cbv iota.
    change (Z.of_nat LINE_BUFFER_SIZE - 1) with 79.
    destruct (crc_done parser =? 0) eqn:Hdone.
    all: cbn [line_index line_buffer set_crc set_line frame_active crc_done
                crc_calculated].
    all: destruct (Z.ltb_spec (line_index parser) 79).
    all: cbn [line_index line_buffer set_crc set_line frame_active crc_done
                crc_calculated].
    all: repeat split; try reflexivity; intros; try lia; try reflexivity.
  - intros Hidle. unfold dsmr_parse_byte. rewrite Hidle. reflexivity.
Qed.

Lemma slash_mid_frame_is_data_witness :
  let parser := fst (fst (feed dsmr_parser_zero dsmr_data_zero (bytes "/A"))) in
  let '(parser', data', ready) :=
    dsmr_parse_byte parser dsmr_data_zero SLASH in
  ready = 0 /\ data' = dsmr_data_zero /\
  frame_active parser' = 1 /\
  crc_calculated parser' = crc16 (bytes "/A/") /\
  line_index parser' = 3.
Proof.
  intros parser.
  pose proof (proj1 (slash_mid_frame_is_data parser dsmr_data_zero)) as H.
  assert (Hactive : frame_active parser <> 0) by (vm_compute; lia).
  specialize (H Hactive).
  destruct (dsmr_parse_byte parser dsmr_data_zero SLASH) as [[parser' data'] r].
  destruct H as (Hr & Hd & Hfa & _ & Hcrc & Hlt & _).
  assert (Hidx : line_index parser < 79) by (vm_compute; reflexivity).
  destruct (Hlt Hidx) as [_ Hi].
  split; [exact Hr|]. split; [exact Hd|]. split; [exact Hfa|].
  split; [exact Hcrc|exact Hi].
Defined.

(** The claim as the specification states it fails: after ["/A"] the parser is
    inside a frame, and the next [/] neither empties the line buffer nor
    re-seeds the CRC; a record value read before that [/] is still in the
    record when the frame is later signalled. *)
Lemma slash_mid_frame_no_resync :
  let '(parser, data, _) :=
    feed dsmr_parser_zero dsmr_data_zero (bytes "/A") in
  frame_active parser = 1 /\
  (let '(parser', _, _) := dsmr_parse_byte parser data SLASH in
   crc_calculated parser' <> crc16_update 0 SLASH /\
   crc_calculated parser' = crc16 (bytes "/A/") /\
   line_index parser' = 3 /\
   firstn 3 (line_buffer parser') = bytes "/A/") /\
  (let '(_, data', rets) :=
     feed dsmr_parser_zero dsmr_data_zero
       (bytes "/A" ++ [CR; LF] ++ bytes "1-0:1.7.0(00.424*kW)" ++ [CR; LF] ++
        bytes "/B" ++ [CR; LF] ++ bytes "!" ++ [CR; LF]) in
   last rets = Some 1 /\ current_power data' = 424000).
Proof. vm_compute. repeat split; congruence. Qed.

(** ** Publishing to the last known good record *)

Lemma parse_byte_ready (parser : dsmr_parser_t) (data : dsmr_data_t) (c : Z)
    (parser' : dsmr_parser_t) (data' : dsmr_data_t) (ready : Z) :
  dsmr_parse_byte parser data c = (parser', data', ready) ->
  (ready = 0 \/ ready = 1) /\
  (ready = 1 <-> frame_active parser <> 0 /\ c = LF /\
                 frame_complete data' = true) /\
  (c <> LF -> data' = data).
Proof.
  unfold dsmr_parse_byte. intros H.
  destruct (Z.eqb_spec (frame_active parser) 0) as [Hfa|Hfa].
  { destruct (is_frame_start c) eqn:Hs; inversion H; subst;
      (split; [now left|split; [split; [discriminate|tauto]|reflexivity]]). }
  destruct (Z.eqb_spec c LF) as [Hc|Hc].
  { destruct (process_line _ _ _) as [p1 d1]. inversion H; subst.
    destruct (frame_complete data') eqn:Hfc.
    - split; [now right|]. split; [tauto|]. intros Hn; now elim Hn.
    - split; [now left|]. split; [|intros Hn; now elim Hn].
      split; [discriminate|]. intros (_ & _ & Habs). discriminate. }
  destruct (c =? CR);
    [|destruct (_ <? _)]; inversion H; subst;
    (split; [now left|split; [split; [discriminate|tauto]|reflexivity]]).
Qed.

(** C9.  When [dsmr_parse_byte] returns 1 but the working record's meter id is
    empty, [processDataByte] leaves the last known good record as it was, and
    still reinitialises the parser and the working record. *)
Theorem empty_meter_id_not_published (s : system_t) (c : Z)
    (parser' : dsmr_parser_t) (data' : dsmr_data_t) :
  dsmr_parse_byte (dsmr_parser s) (dsmr_data s) c = (parser', data', 1) ->
  char_at (meter_id data') 0 = NUL ->
  processDataByte s c =
    {| dsmr_data := dsmr_data_zero;
       dsmr_last_good := dsmr_last_good s;
       dsmr_parser := dsmr_parser_zero |}.
Proof.
  intros Hstep Hid. unfold processDataByte. rewrite Hstep.
  change (1 =? 0) with false. cbv iota.
  rewrite Hid. reflexivity.
Qed.

(** ** Machine integers *)

Lemma to_signed_range (w x : Z) :
  0 < w -> - 2 ^ (w - 1) <= to_signed w x < 2 ^ (w - 1).
Proof.
  intros Hw. unfold to_signed.
  assert (E : 2 ^ w = 2 * 2 ^ (w - 1)).
  { replace w with (Z.succ (w - 1)) at 1 by lia. apply Z.pow_succ_r. lia. }
  assert (0 < 2 ^ (w - 1)) by (apply Z.pow_pos_nonneg; lia).
  pose proof (Z.mod_pos_bound (x + 2 ^ (w - 1)) (2 ^ w)). lia.
Qed.

Lemma to_s64_range (x : Z) : in_s64 (to_s64 x).
Proof. apply (to_signed_range 64 x). lia. Qed.

Lemma to_s32_range (x : Z) : in_s32 (to_s32 x).
Proof. apply (to_signed_range 32 x). lia. Qed.

Lemma to_s64_id (x : Z) : in_s64 x -> to_s64 x = x.
Proof.
  unfold in_s64, to_s64, to_signed. intros H.
  change (2 ^ (64 - 1)) with (2 ^ 63).
  rewrite Z.mod_small; lia.
Qed.

Lemma quot_in_s32 (x k : Z) : 0 < k -> in_s32 x -> in_s32 (Z.quot x k).
Proof.
  unfold in_s32. intros Hk Hx.
  destruct (Z.le_gt_cases 0 x) as [Hpos|Hneg].
  - pose proof (Z.quot_pos x k Hpos Hk).
    assert (Z.quot x k <= x) by (apply Z.quot_le_upper_bound; nia). lia.
  - assert (E : Z.quot x k = - Z.quot (- x) k).
    { rewrite Z.quot_opp_l by lia. lia. }
    pose proof (Z.quot_pos (- x) k ltac:(lia) Hk).
    assert (Z.quot (- x) k <= - x) by (apply Z.quot_le_upper_bound; nia).
    lia.
Qed.

(** ** The fixed-point decoder *)

Section ScanFacts.
Variable wrap : Z -> Z.

Lemma scan_char_ignorable (st : scan_t) (c : Z) :
  is_digit c = false -> c <> DOT -> scan_char wrap st c = st.
Proof.
  intros Hd Hdot. unfold scan_char. rewrite Hd.
  destruct (Z.eqb_spec c DOT); [contradiction|reflexivity].
Qed.

Lemma scan_string_skip (s1 : list Z) (c : Z) (s2 : list Z) (st : scan_t) :
  ignorable c ->
  scan_string wrap (s1 ++ c :: s2) st = scan_string wrap (s1 ++ s2) st.
Proof.
  intros (Hd & Hdot & Hnul). revert st.
  induction s1 as [|a s1 IH]; intros st; simpl.
  - destruct (Z.eqb_spec c NUL); [contradiction|].
    now rewrite scan_char_ignorable.
  - destruct (a =? NUL); [reflexivity|apply IH].
Qed.

Lemma scan_string_app (a b : list Z) (st : scan_t) :
  Forall (fun c => c <> NUL) a ->
  scan_string wrap (a ++ b) st = scan_string wrap b (scan_string wrap a st).
Proof.
  intros Ha. revert st. induction Ha as [|c a Hc _ IH]; intros st; simpl.
  - reflexivity.
  - destruct (Z.eqb_spec c NUL); [contradiction|apply IH].
Qed.

Lemma scan_no_digits (str : list Z) (st : scan_t) :
  Forall (fun c => is_digit c = false) str ->
  sc_result (scan_string wrap str st) = sc_result st /\
  sc_fraction (scan_string wrap str st) = sc_fraction st /\
  sc_frac_digits (scan_string wrap str st) = sc_frac_digits st.
Proof.
  intros Hnd. revert st. induction Hnd as [|c t Hc _ IH]; intros st; simpl.
  - repeat split.
  - destruct (c =? NUL); [repeat split|].
    destruct (IH (scan_char wrap st c)) as (H1 & H2 & H3).
    rewrite H1, H2, H3. unfold scan_char. rewrite Hc.
    destruct (c =? DOT); repeat split.
Qed.

Lemma pad_fraction_zero (n : nat) : wrap 0 = 0 -> pad_fraction wrap n 0 = 0.
Proof.
  intros Hw. induction n as [|n IH]; [reflexivity|].
  cbn [pad_fraction]. change (0 * 10) with 0. now rewrite Hw.
Qed.

End ScanFacts.

Lemma tl_no_digits (str : list Z) :
  Forall (fun c => is_digit c = false) str ->
  Forall (fun c => is_digit c = false) (tl str).
Proof. intros H. destruct H; simpl; [constructor|assumption]. Qed.

Lemma ascii_to_fixed_no_digits (str : list Z) (scale : Z) :
  Forall (fun c => is_digit c = false) str -> ascii_to_fixed str scale = 0.
Proof.
  intros Hnd. unfold ascii_to_fixed.
  destruct (char_at str 0 =? MINUS).
  - destruct (scan_no_digits to_s64 (tl str) scan_init (tl_no_digits _ Hnd))
      as (H1 & H2 & H3).
    rewrite H1, H2, H3. simpl.
    destruct (scale =? 2); [reflexivity|]. destruct (scale =? 3); reflexivity.
  - destruct (scan_no_digits to_s64 str scan_init Hnd) as (H1 & H2 & H3).
    rewrite H1, H2, H3. simpl.
    destruct (scale =? 2); [reflexivity|]. destruct (scale =? 3); reflexivity.
Qed.

Lemma legacy_ascii_to_fixed_no_digits (str : list Z) (scale : Z) :
  Forall (fun c => is_digit c = false) str ->
  Legacy.ascii_to_fixed str scale = 0.
Proof.
  intros Hnd. unfold Legacy.ascii_to_fixed.
  destruct (scan_no_digits to_s32 str scan_init Hnd) as (H1 & H2 & H3).
  rewrite H1, H2, H3. simpl.
  rewrite pad_fraction_zero by reflexivity. simpl.
  destruct (scale =? 2); [reflexivity|]. destruct (scale =? 3); reflexivity.
Qed.

Lemma ascii_to_fixed_skip (s1 : list Z) (c : Z) (s2 : list Z) (scale : Z) :
  ignorable c ->
  s1 <> [] \/ (c <> MINUS /\ char_at s2 0 <> MINUS) ->
  ascii_to_fixed (s1 ++ c :: s2) scale = ascii_to_fixed (s1 ++ s2) scale.
Proof.
  intros Hc Hpos. unfold ascii_to_fixed.
  destruct s1 as [|a s1].
  - destruct Hpos as [Hne|[Hc1 Hc2]]; [now elim Hne|].
    simpl app. change (char_at (c :: s2) 0) with c.
    destruct (Z.eqb_spec c MINUS); [contradiction|].
    destruct (Z.eqb_spec (char_at s2 0) MINUS); [contradiction|].
    pose proof (scan_string_skip to_s64 [] c s2 scan_init Hc) as E.
    simpl app in E. now rewrite E.
  - simpl app. change (char_at (a :: s1 ++ c :: s2) 0) with a.
    change (char_at (a :: s1 ++ s2) 0) with a.
    destruct (a =? MINUS).
    + simpl tl. now rewrite (scan_string_skip to_s64 s1 c s2 scan_init Hc).
    + pose proof (scan_string_skip to_s64 (a :: s1) c s2 scan_init Hc) as E.
      simpl app in E. now rewrite E.
Qed.

(** C6.  [ascii_to_fixed] is a total function of its string and scale and its
    result is a value of its return type; a string without any digit gives 0
    at every scale; a character that is neither a digit nor [.] leaves the
    state of the scanning loop as it was and the loop goes on with the next
    character, so that dropping such a character from the string (unless it
    stands in front of a [-] that would thereby become the leading one, or is
    itself the leading [-]) does not change the result.  The same holds for the
    older revision, which knows no sign. *)
Theorem ascii_to_fixed_total (str : list Z) (scale : Z) :
  (in_s64 (ascii_to_fixed str scale) /\
   in_s32 (Legacy.ascii_to_fixed str scale)) /\
  (Forall (fun c => is_digit c = false) str ->
   ascii_to_fixed str scale = 0 /\ Legacy.ascii_to_fixed str scale = 0) /\
  (forall wrap st c rest, ignorable c ->
   scan_char wrap st c = st /\
   scan_string wrap (c :: rest) st = scan_string wrap rest st) /\
  (forall s1 c s2, str = s1 ++ c :: s2 -> ignorable c ->
   (s1 <> [] \/ (c <> MINUS /\ char_at s2 0 <> MINUS) ->
    ascii_to_fixed str scale = ascii_to_fixed (s1 ++ s2) scale) /\
   Legacy.ascii_to_fixed str scale = Legacy.ascii_to_fixed (s1 ++ s2) scale).
Proof.
  split; [split|split; [|split]].
  - unfold ascii_to_fixed.
    destruct (char_at str 0 =? MINUS); apply to_s64_range.
  - unfold Legacy.ascii_to_fixed.
    destruct (scale =? 2); [apply quot_in_s32; [lia|apply to_s32_range]|].
    destruct (scale =? 3); [apply quot_in_s32; [lia|apply to_s32_range]|].
    apply to_s32_range.
  - intros Hnd. split.
    + now apply ascii_to_fixed_no_digits.
    + now apply legacy_ascii_to_fixed_no_digits.
  - intros wrap st c rest Hc. split.
    + destruct Hc as (Hd & Hdot & _). now apply scan_char_ignorable.
    + apply (scan_string_skip wrap [] c rest st Hc).
  - intros s1 c s2 -> Hc. split.
    + intros Hpos. now apply ascii_to_fixed_skip.
    + unfold Legacy.ascii_to_fixed.
      now rewrite (scan_string_skip to_s32 s1 c s2 scan_init Hc).
Qed.

Lemma ascii_to_fixed_total_witness :
  ascii_to_fixed (bytes "kW*") 3 = 0 /\
  ascii_to_fixed (bytes "2 29.5") 2 = ascii_to_fixed (bytes "229.5") 2.
Proof.
  split.
  - apply (ascii_to_fixed_total (bytes "kW*") 3).
    vm_compute. repeat constructor.
  - apply (ascii_to_fixed_total (bytes "2 29.5") 2) with (s1 := bytes "2")
      (c := 32) (s2 := bytes "29.5").
    + reflexivity.
    + vm_compute. repeat split; discriminate.
    + left. discriminate.
Defined.

(** *** Decimal strings *)

Lemma is_digit_range (c : Z) : is_digit c = true -> 0 <= c - 48 <= 9.
Proof. unfold is_digit. lia. Qed.

Lemma is_digit_plain (c : Z) :
  is_digit c = true -> c <> NUL /\ c <> DOT /\ c <> MINUS.
Proof. unfold is_digit, NUL, DOT, MINUS. lia. Qed.

Lemma digits_not_nul (ds : list Z) :
  Forall (fun c => is_digit c = true) ds -> Forall (fun c => c <> NUL) ds.
Proof.
  induction 1 as [|c t Hc _ IH]; constructor; [|assumption].
  now destruct (is_digit_plain c Hc).
Qed.

Lemma digits_fold_mono (ds : list Z) (r : Z) :
  Forall (fun c => is_digit c = true) ds -> 0 <= r ->
  r <= fold_left (fun acc c => acc * 10 + (c - 48)) ds r.
Proof.
  intros Hds. revert r. induction Hds as [|c t Hc _ IH]; intros r Hr; simpl.
  - lia.
  - pose proof (is_digit_range c Hc).
    specialize (IH (r * 10 + (c - 48)) ltac:(lia)). lia.
Qed.

Lemma scan_int_part (ds : list Z) (st : scan_t) :
  Forall (fun c => is_digit c = true) ds ->
  sc_decimal_seen st = 0 -> 0 <= sc_result st ->
  fold_left (fun acc c => acc * 10 + (c - 48)) ds (sc_result st) < 2 ^ 63 ->
  scan_string to_s64 ds st =
    mkScan (fold_left (fun acc c => acc * 10 + (c - 48)) ds (sc_result st))
           (sc_fraction st) 0 (sc_frac_digits st).
Proof.
  intros Hds. revert st.
  induction Hds as [|c t Hc Ht IH]; intros st Hseen Hres Hbound; simpl.
  - destruct st; simpl in *; now subst.
  - destruct (is_digit_plain c Hc) as (Hnul & Hdot & _).
    pose proof (is_digit_range c Hc) as Hrange.
    destruct (Z.eqb_spec c NUL); [contradiction|].
    simpl in Hbound.
    pose proof (digits_fold_mono t (sc_result st * 10 + (c - 48)) Ht
                  ltac:(lia)) as Hmono.
    assert (Hstep : scan_char to_s64 st c =
              mkScan (sc_result st * 10 + (c - 48)) (sc_fraction st)
                     (sc_decimal_seen st) (sc_frac_digits st)).
    { unfold scan_char. rewrite Hc, Hseen.
      destruct (Z.eqb_spec c DOT); [contradiction|]. simpl.
      rewrite to_s64_id; [reflexivity|unfold in_s64; lia]. }
    rewrite Hstep.
    rewrite IH; cbn [sc_result sc_fraction sc_decimal_seen sc_frac_digits];
      [reflexivity|assumption|lia|assumption].
Qed.

Lemma scan_frac_part (fs : list Z) (st : scan_t) :
  Forall (fun c => is_digit c = true) fs ->
  sc_decimal_seen st = 1 ->
  0 <= sc_frac_digits st ->
  sc_frac_digits st + Z.of_nat (length fs) <= 6 ->
  0 <= sc_fraction st < 10 ^ sc_frac_digits st ->
  scan_string to_s64 fs st =
    mkScan (sc_result st)
           (fold_left (fun acc c => acc * 10 + (c - 48)) fs (sc_fraction st))
           1 (sc_frac_digits st + Z.of_nat (length fs)) /\
  0 <= fold_left (fun acc c => acc * 10 + (c - 48)) fs (sc_fraction st)
    < 10 ^ (sc_frac_digits st + Z.of_nat (length fs)).
Proof.
  intros Hfs. revert st.
  induction Hfs as [|c t Hc Ht IH]; intros st Hseen Hk Hlen Hfrac.
  - simpl. rewrite Z.add_0_r. split; [|assumption].
    destruct st; simpl in *; now subst.
  - destruct (is_digit_plain c Hc) as (Hnul & Hdot & _).
    pose proof (is_digit_range c Hc) as Hrange.
    simpl length in *. cbn [scan_string fold_left].
    destruct (Z.eqb_spec c NUL); [contradiction|].
    assert (Hpow : 10 ^ (sc_frac_digits st + 1) = 10 * 10 ^ sc_frac_digits st).
    { rewrite Z.pow_add_r by lia. lia. }
    assert (Hpow6 : 10 ^ (sc_frac_digits st + 1) <= 10 ^ 6)
      by (apply Z.pow_le_mono_r; lia).
    assert (Hstep : scan_char to_s64 st c =
              mkScan (sc_result st) (sc_fraction st * 10 + (c - 48))
                     1 (sc_frac_digits st + 1)).
    { unfold scan_char. rewrite Hc, Hseen.
      destruct (Z.eqb_spec c DOT); [contradiction|]. simpl.
      destruct (Z.ltb_spec (sc_frac_digits st) 6); [|lia].
      rewrite to_s64_id by (unfold in_s64; lia).
      unfold to_u8, to_unsigned. rewrite Z.mod_small by lia. reflexivity. }
    rewrite Hstep.
    specialize (IH (mkScan (sc_result st) (sc_fraction st * 10 + (c - 48))
                           1 (sc_frac_digits st + 1))).
    cbn [sc_result sc_fraction sc_decimal_seen sc_frac_digits] in IH.
    destruct IH as [IH1 IH2]; try lia.
    replace (sc_frac_digits st + Z.of_nat (S (length t)))
      with (sc_frac_digits st + 1 + Z.of_nat (length t)) by lia.
    split; assumption.
Qed.

Lemma pad_fraction_exact (n : nat) (f : Z) :
  0 <= f -> f * 10 ^ Z.of_nat n < 2 ^ 63 ->
  pad_fraction to_s64 n f = f * 10 ^ Z.of_nat n.
Proof.
  revert f. induction n as [|n IH]; intros f Hf Hb.
  - simpl. lia.
  - rewrite Nat2Z.inj_succ, Z.pow_succ_r in * by lia.
    cbn [pad_fraction].
    assert (0 < 10 ^ Z.of_nat n) by (apply Z.pow_pos_nonneg; lia).
    rewrite to_s64_id by (unfold in_s64; nia).
    rewrite IH; nia.
Qed.

(** C7.  For a string ["D.F"] of decimal digits with at most six digits [F]
    after the point and [D] small enough for the result to fit [int64_t],
    [ascii_to_fixed] at scale 6 returns [D * 1000000] plus [F] padded with
    zeros to six digits.  Divided by [10^6] this is the decimal value itself:
    cross-multiplied by [10^6 * 10^k], [k] the number of digits of [F], the
    two sides are equal, so the distance is 0, within [1e-6]. *)
Theorem ascii_to_fixed_round_trip (ds fs : list Z) :
  Forall (fun c => is_digit c = true) ds ->
  Forall (fun c => is_digit c = true) fs ->
  (length fs <= 6)%nat ->
  digits_value ds * 1000000 + 999999 < 2 ^ 63 ->
  let v := ascii_to_fixed (ds ++ (DOT :: fs)) 6 in
  let k := Z.of_nat (length fs) in
  v = digits_value ds * 1000000 + digits_value fs * 10 ^ (6 - k) /\
  v * 10 ^ k = (digits_value ds * 10 ^ k + digits_value fs) * 1000000 /\
  Z.abs (v * 10 ^ k - (digits_value ds * 10 ^ k + digits_value fs) * 1000000)
    <= 10 ^ k.
Proof.
  intros Hds Hfs Hlen Hrange v k.
  assert (HD : 0 <= digits_value ds)
    by (apply (digits_fold_mono ds 0 Hds); lia).
  assert (Hv : v = digits_value ds * 1000000
                   + digits_value fs * 10 ^ (6 - k)).
  { subst v. unfold ascii_to_fixed.
    assert (Hhead : (char_at (ds ++ DOT :: fs) 0 =? MINUS) = false).
    { destruct Hds as [|c t Hc _]; [reflexivity|].
      change (char_at ((c :: t) ++ DOT :: fs) 0) with c.
      destruct (is_digit_plain c Hc) as (_ & _ & Hm).
      now apply Z.eqb_neq. }
    rewrite Hhead.
    assert (Hscan : scan_string to_s64 (ds ++ DOT :: fs) scan_init =
                      mkScan (digits_value ds) (digits_value fs) 1 k /\
                    0 <= digits_value fs < 10 ^ k).
    { rewrite scan_string_app by now apply digits_not_nul.
      rewrite (scan_int_part ds scan_init Hds)
        by (simpl; fold (digits_value ds); lia).
      change (fold_left (fun acc c => acc * 10 + (c - 48)) ds
                (sc_result scan_init)) with (digits_value ds).
      change (scan_string to_s64 (DOT :: fs)
                (mkScan (digits_value ds) (sc_fraction scan_init) 0
                        (sc_frac_digits scan_init)))
        with (scan_string to_s64 fs (mkScan (digits_value ds) 0 1 0)).
      destruct (scan_frac_part fs (mkScan (digits_value ds) 0 1 0) Hfs)
        as [Hscan Hfrac];
        cbn [sc_result sc_fraction sc_decimal_seen sc_frac_digits];
        try lia.
      cbn [sc_result sc_fraction sc_decimal_seen sc_frac_digits] in *.
      rewrite Z.add_0_l in *. fold k in Hscan, Hfrac.
      split; assumption. }
    destruct Hscan as [Hscan Hfrac]. rewrite Hscan.
    cbn [sc_result sc_fraction sc_frac_digits].
    assert (Hk : 0 <= k <= 6) by (subst k; lia).
    assert (Hsplit : 10 ^ 6 = 10 ^ k * 10 ^ (6 - k)).
    { rewrite <- Z.pow_add_r by lia. f_equal. lia. }
    assert (0 < 10 ^ (6 - k)) by (apply Z.pow_pos_nonneg; lia).
    assert (Hpad : digits_value fs * 10 ^ (6 - k) < 10 ^ 6) by nia.
    rewrite pad_fraction_exact; rewrite ?Z2Nat.id; try lia.
    change (6 =? 2) with false. change (6 =? 3) with false. cbv iota.
    rewrite Z.mul_1_r.
    change (10 ^ 6) with 1000000 in *.
    assert (in_s64 (digits_value ds * 1000000
                    + digits_value fs * 10 ^ (6 - k)))
      as Hin by (unfold in_s64; nia).
    rewrite (to_s64_id _ Hin). apply (to_s64_id _ Hin). }
  assert (Hk : 0 <= k <= 6) by (subst k; lia).
  assert (Hsplit : 10 ^ (6 - k) * 10 ^ k = 1000000).
  { rewrite <- Z.pow_add_r by lia. replace (6 - k + k) with 6 by lia.
    reflexivity. }
  assert (Hexact : v * 10 ^ k =
            (digits_value ds * 10 ^ k + digits_value fs) * 1000000).
  { rewrite Hv, Z.mul_add_distr_r, <- (Z.mul_assoc (digits_value fs)), Hsplit.
    ring. }
  split; [exact Hv|]. split; [exact Hexact|].
  rewrite Hexact, Z.sub_diag. simpl Z.abs.
  apply Z.lt_le_incl, Z.pow_pos_nonneg; lia.
Qed.

Lemma ascii_to_fixed_round_trip_witness :
  ascii_to_fixed (bytes "00.424") 6 = 424000.
Proof.
  apply (ascii_to_fixed_round_trip (bytes "00") (bytes "424")).
  - vm_compute. repeat constructor.
  - vm_compute. repeat constructor.
  - simpl. lia.
  - vm_compute. reflexivity.
Defined.

(** ** Text fields *)

Lemma strncpy_length (dst src : list Z) (n : nat) :
  length (strncpy dst src n) = length dst.
Proof.
  revert dst src. induction n as [|n IH]; intros dst src; [reflexivity|].
  destruct dst as [|d dst]; [reflexivity|].
  destruct src as [|c src]; simpl; [now rewrite IH|].
  destruct (c =? NUL); simpl; now rewrite IH.
Qed.

Lemma strncpy_beyond (dst src : list Z) (n i : nat) :
  (n <= i)%nat -> char_at (strncpy dst src n) i = char_at dst i.
Proof.
  unfold char_at. revert dst src i.
  induction n as [|n IH]; intros dst src i Hi; [reflexivity|].
  destruct dst as [|d dst]; [reflexivity|].
  destruct i as [|i]; [lia|].
  destruct src as [|c src]; simpl; [apply IH; lia|].
  destruct (c =? NUL); simpl; apply IH; lia.
Qed.

Lemma cstr_strncpy_pad (dst : list Z) (n : nat) :
  (n < length dst)%nat -> char_at dst n = NUL ->
  cstr (strncpy dst [] n) = [].
Proof.
  destruct n as [|n]; simpl.
  - destruct dst as [|d dst]; [reflexivity|]. unfold char_at. simpl.
    intros _ ->. reflexivity.
  - destruct dst as [|d dst]; reflexivity.
Qed.

Lemma cstr_strncpy (dst src : list Z) (n : nat) :
  (n < length dst)%nat -> char_at dst n = NUL ->
  cstr (strncpy dst src n) = firstn n (cstr src).
Proof.
  revert dst src. induction n as [|n IH]; intros dst src Hn Hlast.
  - simpl. destruct dst as [|d dst]; [reflexivity|].
    unfold char_at in Hlast. simpl in Hlast. subst d. reflexivity.
  - destruct dst as [|d dst]; [simpl in Hn; lia|].
    destruct src as [|c src]; [reflexivity|].
    simpl. destruct (c =? NUL) eqn:E; [reflexivity|].
    simpl. rewrite E. f_equal. apply IH; [simpl in Hn; lia|exact Hlast].
Qed.

Lemma strncpy_field (size : nat) (field src : list Z) :
  (0 < size)%nat -> text_field_ok size field ->
  text_field_ok size (strncpy field src (size - 1)) /\
  cstr (strncpy field src (size - 1)) = firstn (size - 1) (cstr src).
Proof.
  intros Hsize [Hlen Hlast]. split; [split|].
  - now rewrite strncpy_length.
  - rewrite strncpy_beyond by lia. exact Hlast.
  - apply cstr_strncpy; [lia|exact Hlast].
Qed.

Lemma text_fields_ok_zero : text_fields_ok dsmr_data_zero.
Proof. repeat split. Qed.

Lemma store_value_text_fields (data : dsmr_data_t) (obis_type : obis_id_t)
    (value_str : list Z) :
  text_fields_ok data -> text_fields_ok (store_value data obis_type value_str).
Proof.
  intros (Hm & Ht & He).
  destruct obis_type; try exact (conj Hm (conj Ht He)).
  - split; [|split; assumption].
    apply (strncpy_field METER_ID_SIZE); [unfold METER_ID_SIZE; lia|exact Hm].
  - split; [exact Hm|split; [|exact He]].
    apply (strncpy_field TIMESTAMP_SIZE);
      [unfold TIMESTAMP_SIZE; lia|exact Ht].
Qed.

Lemma process_line_text_fields (parser : dsmr_parser_t) (data : dsmr_data_t)
    (line : list Z) :
  text_fields_ok data -> text_fields_ok (snd (process_line parser data line)).
Proof.
  intros Hok. unfold process_line.
  destruct (_ || _); [exact Hok|].
  destruct (_ && _).
  { destruct Hok as (Hm & Ht & He). split; [exact Hm|split; [exact Ht|]].
    apply (strncpy_field EQUIPMENT_ID_SIZE);
      [unfold EQUIPMENT_ID_SIZE; lia|exact He]. }
  destruct (_ =? BANG).
  { destruct (5 <=? _); [destruct (_ =? _)|]; exact Hok. }
  destruct (strchr line LPAREN) as [paren|]; [|exact Hok].
  destruct (extract_value line) as [value|];
    destruct (match_obis_code _); try exact Hok;
    now apply store_value_text_fields.
Qed.

(** C8 (as amended).  In the CRC-validating revision the meter identifier, the
    timestamp and the equipment identifier are stored as the first 32, 13 and
    32 characters of the input respectively, shorter inputs in full; the
    write stays inside the field: its size is unchanged and its last
    character, the terminator, is not touched. *)
Theorem text_fields_truncated (parser : dsmr_parser_t) (data : dsmr_data_t)
    (value_str line : list Z) :
  text_fields_ok data ->
  (let data' := store_value data OBIS_ID_METER_ID value_str in
   cstr (meter_id data') = firstn 32 (cstr value_str) /\
   text_fields_ok data') /\
  (let data' := store_value data OBIS_ID_TIMESTAMP value_str in
   cstr (timestamp data') = firstn 13 (cstr value_str) /\
   text_fields_ok data') /\
  ((char_at line 0 = SLASH \/ is_upper (char_at line 0) = true) ->
   strchr line COLON = None ->
   let data' := snd (process_line parser data line) in
   cstr (equipment_id data') = firstn 32 (cstr line) /\
   text_fields_ok data').
Proof.
  intros Hok. pose proof Hok as (Hm & Ht & He).
  split; [|split].
  - split; [|now apply store_value_text_fields].
    apply (strncpy_field METER_ID_SIZE); [unfold METER_ID_SIZE; lia|exact Hm].
  - split; [|now apply store_value_text_fields].
    apply (strncpy_field TIMESTAMP_SIZE);
      [unfold TIMESTAMP_SIZE; lia|exact Ht].
  - intros Hhead Hcolon. split; [|now apply process_line_text_fields].
    unfold process_line. rewrite Hcolon.
    assert (Hnot : ((char_at line 0 =? NUL) || (char_at line 0 =? CR)) = false).
    { destruct Hhead as [-> | Hup]; [reflexivity|].
      unfold is_upper, NUL, CR in *. lia. }
    assert (Hyes : ((char_at line 0 =? SLASH) || is_upper (char_at line 0))
                   = true).
    { destruct Hhead as [-> | ->]; [reflexivity|apply orb_true_r]. }
    rewrite Hnot, Hyes. simpl.
    apply (strncpy_field EQUIPMENT_ID_SIZE);
      [unfold EQUIPMENT_ID_SIZE; lia|exact He].
Qed.

Lemma text_fields_truncated_witness :
  cstr (meter_id (store_value dsmr_data_zero OBIS_ID_METER_ID
                    (bytes "4B384547303034303436333935353037")))
  = bytes "4B384547303034303436333935353037".
Proof.
  apply (text_fields_truncated dsmr_parser_zero dsmr_data_zero
           (bytes "4B384547303034303436333935353037") []).
  repeat split.
Defined.

(** The claim as the specification states it fails for the meter identifier:
    a 20-character identifier is stored whole, not cut to 16 characters. *)
Lemma meter_id_not_cut_at_16 :
  let data' := store_value dsmr_data_zero OBIS_ID_METER_ID
                 (bytes "4B384547303034303436") in
  cstr (meter_id data') = bytes "4B384547303034303436" /\
  cstr (meter_id data') <> firstn 16 (bytes "4B384547303034303436").
Proof. vm_compute. split; [reflexivity|discriminate]. Qed.

(** ** The sample telegram *)

(** C1 (as amended).  Fed to a freshly initialised parser, the sample
    telegram [/ISk5\2MT382-1000], [1-0:1.7.0(00.424*kW)],
    [1-0:2.7.0(00.000*kW)], [!383D] (each line ended by CR LF; [383D] is the
    CRC16 of the bytes from [/] to [!]) makes [dsmr_parse_byte] return 1 on
    its last byte, the final LF, and 0 on every byte before; the record then
    has [current_power] 424000, [current_return] 0, and as equipment
    identifier the whole first line, its leading [/] included:
    [/ISk5\2MT382-1000]. *)
Theorem sample_telegram_parsed :
  crc16 sample_body = 0x383D /\
  let '(_, data, rets) :=
    feed (fst dsmr_parser_init) (snd dsmr_parser_init) sample_telegram in
  rets = repeat 0 (length sample_telegram - 1) ++ [1] /\
  current_power data = 424000 /\
  current_return data = 0 /\
  frame_complete data = true /\
  cstr (equipment_id data) = bytes "/ISk5\2MT382-1000".
Proof. vm_compute. repeat split. Qed.

(** The claim as the specification states it fails on the equipment
    identifier: the stored text is not [ISk5\2MT382-1000]. *)
Lemma sample_equipment_id_keeps_slash :
  ~ (let '(_, data, rets) :=
       feed (fst dsmr_parser_init) (snd dsmr_parser_init) sample_telegram in
     rets = repeat 0 (length sample_telegram - 1) ++ [1] /\
     current_power data = 424000 /\
     current_return data = 0 /\
     cstr (equipment_id data) = bytes "ISk5\2MT382-1000").
Proof. vm_compute. intros (_ & _ & _ & H). discriminate H. Qed.

Lemma empty_meter_id_not_published_witness :
  let s := run system_start (removelast sample_telegram) in
  processDataByte s LF =
    {| dsmr_data := dsmr_data_zero;
       dsmr_last_good := dsmr_last_good s;
       dsmr_parser := dsmr_parser_zero |}.
Proof.
  intros s.
  apply (empty_meter_id_not_published s LF
           (fst (fst (dsmr_parse_byte (dsmr_parser s) (dsmr_data s) LF)))
           (snd (fst (dsmr_parse_byte (dsmr_parser s) (dsmr_data s) LF)))).
  - vm_compute. reflexivity.
  - vm_compute. reflexivity.
Defined.

(** ** The checksum *)

Lemma to_u16_range (x : Z) : in_u16 (to_u16 x).
Proof.
  unfold in_u16, to_u16, to_unsigned. change (2 ^ 16) with 65536.
  apply Z.mod_pos_bound. lia.
Qed.

Lemma to_u16_id (x : Z) : in_u16 x -> to_u16 x = x.
Proof.
  unfold in_u16, to_u16, to_unsigned. change (2 ^ 16) with 65536.
  intros H. apply Z.mod_small. lia.
Qed.

Lemma to_u8_id (x : Z) : in_u8 x -> to_u8 x = x.
Proof.
  unfold in_u8, to_u8, to_unsigned. change (2 ^ 8) with 256.
  intros H. apply Z.mod_small. lia.
Qed.

Lemma lxor_bound (n a b : Z) :
  0 <= n -> 0 <= a < 2 ^ n -> 0 <= b < 2 ^ n -> 0 <= Z.lxor a b < 2 ^ n.
Proof.
  intros Hn Ha Hb.
  assert (Hnn : 0 <= Z.lxor a b) by (apply Z.lxor_nonneg; lia).
  split; [exact Hnn|].
  destruct (Z.eq_dec (Z.lxor a b) 0) as [E|E]; [rewrite E; lia|].
  apply Z.log2_lt_pow2; [lia|].
  pose proof (Z.log2_lxor a b ltac:(lia) ltac:(lia)) as Hlog.
  assert (Hla : a = 0 \/ Z.log2 a < n).
  { destruct (Z.eq_dec a 0); [now left|right]. apply Z.log2_lt_pow2; lia. }
  assert (Hlb : b = 0 \/ Z.log2 b < n).
  { destruct (Z.eq_dec b 0); [now left|right]. apply Z.log2_lt_pow2; lia. }
  assert (0 < n).
  { destruct (Z.eq_dec n 0) as [->|]; [|lia].
    assert (a = 0) by (simpl in Ha; lia). assert (b = 0) by (simpl in Hb; lia).
    subst. now elim E. }
  destruct Hla as [-> | Hla]; destruct Hlb as [-> | Hlb];
    change (Z.log2 0) with 0 in Hlog; lia.
Qed.

Lemma lxor_cancel_l (c x y : Z) : Z.lxor c x = Z.lxor c y -> x = y.
Proof.
  intros H. apply (f_equal (Z.lxor c)) in H.
  now rewrite <- !Z.lxor_assoc, Z.lxor_nilpotent, !Z.lxor_0_l in H.
Qed.

Lemma lxor_cancel_r (x a b : Z) : Z.lxor a x = Z.lxor b x -> a = b.
Proof. rewrite !(Z.lxor_comm _ x). apply lxor_cancel_l. Qed.

Lemma all_from_spec (f : Z -> bool) (count : nat) (x0 x : Z) :
  all_from f count x0 = true -> x0 <= x < x0 + Z.of_nat count -> f x = true.
Proof.
  revert x0. induction count as [|n IH]; intros x0 Hall Hx; [lia|].
  simpl in Hall. destruct (f x0) eqn:E; [|discriminate].
  destruct (Z.eq_dec x x0) as [-> | Hne]; [exact E|].
  apply (IH (x0 + 1) Hall). lia.
Qed.

Lemma crc16_unshift_shift (c : Z) :
  in_u16 c -> crc16_unshift (crc16_shift c) = c.
Proof.
  intros Hc. apply Z.eqb_eq.
  apply (all_from_spec (fun c => crc16_unshift (crc16_shift c) =? c)
           (Z.to_nat 65536) 0).
  - vm_compute. reflexivity.
  - unfold in_u16 in Hc. rewrite Z2Nat.id; lia.
Qed.

Lemma crc16_shift_range (c : Z) : in_u16 (crc16_shift c).
Proof. unfold crc16_shift. destruct (negb _); apply to_u16_range. Qed.

Lemma crc16_shift_inj (a b : Z) :
  in_u16 a -> in_u16 b -> crc16_shift a = crc16_shift b -> a = b.
Proof.
  intros Ha Hb E. rewrite <- (crc16_unshift_shift a Ha), E.
  now apply crc16_unshift_shift.
Qed.

Lemma iter_shift_range (n : nat) (c : Z) :
  in_u16 c -> in_u16 (Nat.iter n crc16_shift c).
Proof. intros Hc. destruct n; [exact Hc|apply crc16_shift_range]. Qed.

Lemma iter_shift_inj (n : nat) (a b : Z) :
  in_u16 a -> in_u16 b ->
  Nat.iter n crc16_shift a = Nat.iter n crc16_shift b -> a = b.
Proof.
  intros Ha Hb. induction n as [|n IH]; [easy|].
  simpl. intros E. apply IH.
  apply crc16_shift_inj; [now apply iter_shift_range..|exact E].
Qed.

Lemma crc16_update_range (crc byte : Z) : in_u16 (crc16_update crc byte).
Proof. apply iter_shift_range, to_u16_range. Qed.

Lemma lxor_crc_byte (crc byte : Z) :
  in_u16 crc -> in_u8 byte -> in_u16 (Z.lxor crc byte).
Proof.
  unfold in_u16, in_u8. intros Hc Hb.
  change 65536 with (2 ^ 16). apply (lxor_bound 16);
    change (2 ^ 16) with 65536; lia.
Qed.

Lemma crc16_update_inj_crc (a b byte : Z) :
  in_u16 a -> in_u16 b -> in_u8 byte ->
  crc16_update a byte = crc16_update b byte -> a = b.
Proof.
  intros Ha Hb Hx E. unfold crc16_update in E.
  apply iter_shift_inj in E; try apply to_u16_range.
  rewrite !to_u16_id in E by now apply lxor_crc_byte.
  now apply lxor_cancel_r in E.
Qed.

Lemma crc16_update_inj_byte (crc x y : Z) :
  in_u16 crc -> in_u8 x -> in_u8 y ->
  crc16_update crc x = crc16_update crc y -> x = y.
Proof.
  intros Hc Hx Hy E. unfold crc16_update in E.
  apply iter_shift_inj in E; try apply to_u16_range.
  rewrite !to_u16_id in E by now apply lxor_crc_byte.
  now apply lxor_cancel_l in E.
Qed.

Lemma fold_crc_range (bs : list Z) (crc : Z) :
  in_u16 crc -> in_u16 (fold_left crc16_update bs crc).
Proof.
  revert crc. induction bs as [|b bs IH]; intros crc Hc; [exact Hc|].
  simpl. apply IH, crc16_update_range.
Qed.

Lemma crc16_range (bs : list Z) : in_u16 (crc16 bs).
Proof. apply fold_crc_range. unfold in_u16. lia. Qed.

Lemma fold_crc_inj (bs : list Z) (a b : Z) :
  Forall in_u8 bs -> in_u16 a -> in_u16 b ->
  fold_left crc16_update bs a = fold_left crc16_update bs b -> a = b.
Proof.
  intros Hbs. revert a b.
  induction Hbs as [|x bs Hx _ IH]; intros a b Ha Hb E; [exact E|].
  simpl in E. apply IH in E; try apply crc16_update_range.
  now apply crc16_update_inj_crc in E.
Qed.

Lemma crc16_app (a b : list Z) :
  crc16 (a ++ b) = fold_left crc16_update b (crc16 a).
Proof. apply fold_left_app. Qed.

(** A telegram that differs from another in one byte has another CRC16. *)
Lemma crc16_byte_change (pre post : list Z) (x y : Z) :
  in_u8 x -> in_u8 y -> Forall in_u8 post -> x <> y ->
  crc16 (pre ++ x :: post) <> crc16 (pre ++ y :: post).
Proof.
  intros Hx Hy Hpost Hne E. rewrite !crc16_app in E. simpl in E.
  apply fold_crc_inj in E; try assumption; try apply crc16_update_range.
  apply crc16_update_inj_byte in E; try assumption.
  - contradiction.
  - apply crc16_range.
Qed.

(** So has a telegram that lost its first byte. *)
Lemma crc16_first_byte_lost (rest : list Z) :
  Forall in_u8 rest -> crc16 (SLASH :: rest) <> crc16 rest.
Proof.
  intros Hrest E. unfold crc16 in E. simpl in E.
  apply fold_crc_inj in E; try assumption.
  - vm_compute in E. discriminate.
  - apply crc16_update_range.
  - unfold in_u16. lia.
Qed.

(** ** The line buffer *)

Lemma char_at_insert_eq (l : list Z) (i : nat) (v : Z) :
  (i < length l)%nat -> char_at (<[i:=v]> l) i = v.
Proof.
  intros Hi. unfold char_at. rewrite nth_lookup.
  now rewrite list_lookup_insert_eq.
Qed.

Lemma char_at_insert_ne (l : list Z) (i j : nat) (v : Z) :
  i <> j -> char_at (<[i:=v]> l) j = char_at l j.
Proof.
  intros Hij. unfold char_at. rewrite !nth_lookup.
  now rewrite list_lookup_insert_ne.
Qed.

(** ** Lines that are not the terminator *)

Lemma store_value_frame_complete (data : dsmr_data_t) (obis_type : obis_id_t)
    (value_str : list Z) :
  frame_complete (store_value data obis_type value_str) = frame_complete data.
Proof. destruct obis_type; reflexivity. Qed.

Lemma process_line_parser (parser : dsmr_parser_t) (data : dsmr_data_t)
    (line : list Z) :
  fst (process_line parser data line) = parser \/
  fst (process_line parser data line) = set_frame_active 0 parser.
Proof.
  unfold process_line.
  destruct (_ || _); [now left|].
  destruct (_ && _); [now left|].
  destruct (_ =? BANG).
  { right. destruct (5 <=? _); [destruct (_ =? _)|]; reflexivity. }
  left. destruct (strchr line LPAREN) as [paren|]; [|reflexivity].
  destruct (match_obis_code _); try reflexivity;
    destruct (extract_value line); reflexivity.
Qed.

Lemma process_line_other (parser : dsmr_parser_t) (data : dsmr_data_t)
    (line : list Z) :
  char_at line 0 <> BANG ->
  fst (process_line parser data line) = parser /\
  frame_complete (snd (process_line parser data line)) = frame_complete data.
Proof.
  intros Hnb. unfold process_line.
  destruct (_ || _); [now split|].
  destruct (_ && _); [now split|].
  destruct (Z.eqb_spec (char_at line 0) BANG); [contradiction|].
  destruct (strchr line LPAREN) as [paren|]; [|now split].
  destruct (match_obis_code _); try (now split);
    destruct (extract_value line); try (now split);
    (split; [reflexivity|apply store_value_frame_complete]).
Qed.

(** ** Bytes inside a frame *)

Ltac parser_simpl :=
  cbn [line_buffer line_index frame_active crc_calculated crc_done set_crc
       set_line set_frame_active fst snd] in *.

Lemma parse_byte_in_frame (cs : list Z) (p : dsmr_parser_t) (d : dsmr_data_t)
    (c : Z) :
  in_frame cs p d -> c <> BANG ->
  exists p' d',
    dsmr_parse_byte p d c = (p', d', 0) /\
    in_frame (cs ++ [c]) p' d' /\
    (c = LF -> line_index p' = 0).
Proof.
  intros (Hfa & Hcd & Hcrc & Hfc & Hlen & Hidx & Hhead) Hc.
  destruct p as [buf idx fa crc cd].
  parser_simpl. subst fa cd crc.
  assert (Hcrc' : crc16_update (crc16 cs) c = crc16 (cs ++ [c]))
    by (now rewrite crc16_app).
  unfold dsmr_parse_byte, in_frame. parser_simpl.
  change (1 =? 0) with false. change (0 =? 0) with true. cbv iota.
  destruct (Z.eqb_spec c BANG) as [|_]; [contradiction|].
  parser_simpl.
  unfold LINE_BUFFER_SIZE in *. change (Z.of_nat 80 - 1) with 79.
  destruct (Z.eqb_spec c LF) as [Hlf|Hlf].
  - set (line := <[Z.to_nat idx := NUL]> buf).
    assert (Hl0 : char_at line 0 <> BANG).
    { subst line. destruct Hhead as [-> | Hh].
      - rewrite char_at_insert_eq by (simpl; lia). discriminate.
      - destruct (Z.eq_dec idx 0) as [-> | Hnz].
        + rewrite char_at_insert_eq by (simpl; lia). discriminate.
        + rewrite char_at_insert_ne by lia. exact Hh. }
    match goal with
    | |- context [process_line ?pp d line] =>
        destruct (process_line_other pp d line Hl0) as [Hp Hd];
        destruct (process_line pp d line) as [p1 d1]
    end.
    parser_simpl. subst p1. rewrite Hfc in Hd. rewrite Hd.
    eexists _, _. split; [reflexivity|]. parser_simpl.
    split; [|reflexivity].
    repeat split; try assumption; try lia.
    subst line. now rewrite length_insert.
  - destruct (Z.eqb_spec c CR) as [Hcr|Hcr].
    + eexists _, _. split; [reflexivity|]. split; [|contradiction].
      parser_simpl. repeat split; try assumption; lia.
    + destruct (Z.ltb_spec idx 79) as [Hlt|Hge].
      * eexists _, _. split; [reflexivity|]. split; [|contradiction].
        parser_simpl. rewrite to_u8_id by (unfold in_u8; lia).
        repeat split; try assumption; try lia.
        -- now rewrite length_insert.
        -- right. destruct (Z.eq_dec idx 0) as [-> | Hnz].
           ++ rewrite char_at_insert_eq by (simpl; lia). exact Hc.
           ++ rewrite char_at_insert_ne by lia.
              destruct Hhead; [contradiction|assumption].
      * eexists _, _. split; [reflexivity|]. split; [|contradiction].
        parser_simpl. repeat split; try assumption; lia.
Qed.

Lemma feed_step (p : dsmr_parser_t) (d : dsmr_data_t) (c : Z) (rest : list Z)
    (p1 : dsmr_parser_t) (d1 : dsmr_data_t) (r : Z)
    (p2 : dsmr_parser_t) (d2 : dsmr_data_t) (rs : list Z) :
  dsmr_parse_byte p d c = (p1, d1, r) ->
  feed p1 d1 rest = (p2, d2, rs) ->
  feed p d (c :: rest) = (p2, d2, r :: rs).
Proof. intros H1 H2. simpl. now rewrite H1, H2. Qed.

Lemma feed_app (p : dsmr_parser_t) (d : dsmr_data_t) (a b : list Z)
    (p1 : dsmr_parser_t) (d1 : dsmr_data_t) (r1 : list Z)
    (p2 : dsmr_parser_t) (d2 : dsmr_data_t) (r2 : list Z) :
  feed p d a = (p1, d1, r1) ->
  feed p1 d1 b = (p2, d2, r2) ->
  feed p d (a ++ b) = (p2, d2, r1 ++ r2).
Proof.
  revert p d p1 d1 r1. induction a as [|c a IH]; intros p d p1 d1 r1 Ha Hb.
  - simpl in Ha. inversion Ha; subst. exact Hb.
  - simpl in Ha. simpl.
    destruct (dsmr_parse_byte p d c) as [[p0 d0] r0].
    destruct (feed p0 d0 a) as [[p0' d0'] rs0] eqn:E.
    inversion Ha; subst.
    now rewrite (IH _ _ _ _ _ E Hb).
Qed.

Lemma feed_in_frame (cs : list Z) (p : dsmr_parser_t) (d : dsmr_data_t)
    (bs : list Z) :
  in_frame cs p d -> Forall (fun c => c <> BANG) bs ->
  exists p' d',
    feed p d bs = (p', d', repeat 0 (length bs)) /\
    in_frame (cs ++ bs) p' d' /\
    (forall bs0, bs = bs0 ++ [LF] -> line_index p' = 0).
Proof.
  intros Hin Hbs. revert cs p d Hin.
  induction Hbs as [|c bs Hc _ IH]; intros cs p d Hin.
  - exists p, d. rewrite app_nil_r.
    split; [reflexivity|split; [assumption|]].
    intros [|? ?] E; discriminate E.
  - destruct (parse_byte_in_frame cs p d c Hin Hc)
      as (p1 & d1 & H1 & Hin1 & Hlf).
    destruct (IH _ _ _ Hin1) as (p2 & d2 & H2 & Hin2 & Hlast).
    exists p2, d2. split; [|split].
    + exact (feed_step _ _ _ _ _ _ _ _ _ _ H1 H2).
    + now rewrite <- app_assoc in Hin2.
    + intros [|c0 bs0] E; simpl in E; inversion E; subst.
      * simpl in H2. inversion H2; subst. now apply Hlf.
      * now apply (Hlast bs0).
Qed.

(** ** Bytes inside a line that is not the terminator *)

Lemma parse_byte_off_line_start (p : dsmr_parser_t) (d : dsmr_data_t)
    (c : Z) :
  off_line_start p d -> c <> LF ->
  exists p', dsmr_parse_byte p d c = (p', d, 0) /\ off_line_start p' d.
Proof.
  intros (Hfa & Hfc & Hlen & Hidx & Hhead) Hc.
  destruct p as [buf idx fa crc cd]. parser_simpl. subst fa.
  unfold dsmr_parse_byte, off_line_start. parser_simpl.
  change (1 =? 0) with false. cbv iota.
  unfold LINE_BUFFER_SIZE in *. change (Z.of_nat 80 - 1) with 79.
  destruct (cd =? 0); parser_simpl;
    (destruct (Z.eqb_spec c LF) as [|_]; [contradiction|]);
    (destruct (c =? CR);
     [eexists; split; [reflexivity|]; parser_simpl;
      repeat split; try assumption; lia|]);
    (destruct (Z.ltb_spec idx 79);
     [|eexists; split; [reflexivity|]; parser_simpl;
       repeat split; try assumption; lia]);
    (eexists; split; [reflexivity|]; parser_simpl;
     rewrite to_u8_id by (unfold in_u8; lia);
     rewrite length_insert, char_at_insert_ne by lia;
     repeat split; try assumption; lia).
Qed.

Lemma feed_off_line_start (p : dsmr_parser_t) (d : dsmr_data_t)
    (bs : list Z) :
  off_line_start p d -> Forall (fun c => c <> LF) bs ->
  exists p',
    feed p d bs = (p', d, repeat 0 (length bs)) /\ off_line_start p' d.
Proof.
  intros Hin Hbs. revert p Hin.
  induction Hbs as [|c bs Hc _ IH]; intros p Hin.
  - exists p. now split.
  - destruct (parse_byte_off_line_start p d c Hin Hc) as (p1 & H1 & Hin1).
    destruct (IH _ Hin1) as (p2 & H2 & Hin2).
    exists p2. split; [|exact Hin2].
    exact (feed_step _ _ _ _ _ _ _ _ _ _ H1 H2).
Qed.

Lemma parse_lf_off_line_start (p : dsmr_parser_t) (d : dsmr_data_t) :
  off_line_start p d ->
  exists p' d',
    dsmr_parse_byte p d LF = (p', d', 0) /\ frame_complete d' = false.
Proof.
  intros (Hfa & Hfc & Hlen & Hidx & Hhead).
  destruct p as [buf idx fa crc cd]. parser_simpl. subst fa.
  unfold dsmr_parse_byte. parser_simpl.
  change (1 =? 0) with false. change (LF =? LF) with true.
  change (LF =? BANG) with false. cbv iota.
  assert (Hl0 : char_at (<[Z.to_nat idx := NUL]> buf) 0 <> BANG).
  { rewrite char_at_insert_ne by lia. exact Hhead. }
  destruct (cd =? 0); parser_simpl;
    set (line := <[Z.to_nat idx := NUL]> buf) in *;
    match goal with
    | |- context [process_line ?pp d line] =>
        destruct (process_line_other pp d line Hl0) as [Hp Hd];
        destruct (process_line pp d line) as [p1 d1]
    end;
    parser_simpl; subst p1; rewrite Hfc in Hd; rewrite Hd;
    eexists _, _; (split; [reflexivity|exact Hd]).
Qed.

(** ** The terminator line at the start of a line *)

Lemma parse_bang_line_start (cs : list Z) (p : dsmr_parser_t)
    (d : dsmr_data_t) :
  in_frame cs p d -> line_index p = 0 ->
  dsmr_parse_byte p d BANG =
    ({| line_buffer := <[O := BANG]> (line_buffer p);
        line_index := 1;
        frame_active := 1;
        crc_calculated := crc16 (cs ++ [BANG]);
        crc_done := 1 |}, d, 0).
Proof.
  intros (Hfa & Hcd & Hcrc & _) Hidx.
  destruct p as [buf idx fa crc cd]. parser_simpl. subst.
  rewrite crc16_app. reflexivity.
Qed.

Lemma parse_byte_closed (p : dsmr_parser_t) (d : dsmr_data_t) (c : Z) :
  frame_active p = 1 -> crc_done p = 1 -> plain c ->
  0 <= line_index p < 79 ->
  dsmr_parse_byte p d c =
    (set_line (<[Z.to_nat (line_index p) := c]> (line_buffer p))
              (line_index p + 1) p, d, 0).
Proof.
  intros Hfa Hcd (Hnul & Hlf & Hcr) Hidx.
  unfold dsmr_parse_byte. rewrite Hfa, Hcd.
  change (1 =? 0) with false. cbv iota.
  destruct (Z.eqb_spec c LF); [contradiction|].
  destruct (Z.eqb_spec c CR); [contradiction|].
  change (Z.of_nat LINE_BUFFER_SIZE - 1) with 79.
  destruct (Z.ltb_spec (line_index p) 79); [|lia].
  now rewrite to_u8_id by (unfold in_u8; lia).
Qed.

Lemma parse_cr_closed (p : dsmr_parser_t) (d : dsmr_data_t) :
  frame_active p = 1 -> crc_done p = 1 ->
  dsmr_parse_byte p d CR = (p, d, 0).
Proof.
  intros Hfa Hcd. unfold dsmr_parse_byte. rewrite Hfa, Hcd. reflexivity.
Qed.

Lemma parse_lf_closed (p : dsmr_parser_t) (d : dsmr_data_t) :
  frame_active p = 1 -> crc_done p = 1 ->
  dsmr_parse_byte p d LF =
    (let line := <[Z.to_nat (line_index p) := NUL]> (line_buffer p) in
     let r := process_line (set_line line (line_index p) p) d line in
     (set_line (line_buffer (fst r)) 0 (fst r), snd r,
      if frame_complete (snd r) then 1 else 0)).
Proof.
  intros Hfa Hcd. unfold dsmr_parse_byte. rewrite Hfa, Hcd.
  change (1 =? 0) with false. change (LF =? LF) with true. cbv iota.
  parser_simpl. cbv zeta.
  now destruct (process_line _ _ _).
Qed.

Lemma feed_terminator (cs : list Z) (p : dsmr_parser_t) (d : dsmr_data_t)
    (h : list Z) :
  in_frame cs p d -> line_index p = 0 ->
  length h = 4%nat -> Forall plain h ->
  exists p' d' r,
    feed p d (BANG :: h ++ CRLF) = (p', d', [0; 0; 0; 0; 0; 0; r]) /\
    (to_u16 (strtol16 (h ++ [NUL])) = crc16 (cs ++ [BANG]) ->
     d' = set_frame_complete true d /\ r = 1) /\
    (to_u16 (strtol16 (h ++ [NUL])) <> crc16 (cs ++ [BANG]) ->
     d' = d /\ r = 0).
Proof.
  intros Hin Hidx Hlen Hplain.
  pose proof Hin as (_ & _ & _ & Hfc & Hbuf & _).
  destruct h as [|h1 [|h2 [|h3 [|h4 [|]]]]]; try discriminate Hlen.
  inversion Hplain as [|? ? P1 Hp1]; subst.
  inversion Hp1 as [|? ? P2 Hp2]; subst.
  inversion Hp2 as [|? ? P3 Hp3]; subst.
  inversion Hp3 as [|? ? P4 _]; subst.
  destruct p as [buf idx fa crc cd]. parser_simpl. subst idx.
  destruct buf as [|b0 [|b1 [|b2 [|b3 [|b4 [|b5 rest]]]]]];
    try discriminate Hbuf.
  simpl app. unfold CRLF.
  eexists _, _, _. split.
  - eapply feed_step; [exact (parse_bang_line_start _ _ _ Hin eq_refl)|].
    parser_simpl.
    eapply feed_step; [apply parse_byte_closed; parser_simpl;
                       [reflexivity|reflexivity|assumption|lia]|].
    eapply feed_step; [apply parse_byte_closed; parser_simpl;
                       [reflexivity|reflexivity|assumption|lia]|].
    eapply feed_step; [apply parse_byte_closed; parser_simpl;
                       [reflexivity|reflexivity|assumption|lia]|].
    eapply feed_step; [apply parse_byte_closed; parser_simpl;
                       [reflexivity|reflexivity|assumption|lia]|].
    eapply feed_step; [apply parse_cr_closed; reflexivity|].
    eapply feed_step; [apply parse_lf_closed; reflexivity|].
    reflexivity.
  - parser_simpl. cbv zeta. parser_simpl.
    change (Z.to_nat 1) with 1%nat.
    change (Z.to_nat (1 + 1)) with 2%nat.
    change (Z.to_nat (1 + 1 + 1)) with 3%nat.
    change (Z.to_nat (1 + 1 + 1 + 1)) with 4%nat.
    change (Z.to_nat (1 + 1 + 1 + 1 + 1)) with 5%nat.
    cbn [insert list_insert].
    rewrite process_line_bang by reflexivity.
    assert (Hs : strlen (BANG :: h1 :: h2 :: h3 :: h4 :: NUL :: rest) = 5).
    { destruct P1 as (N1 & _), P2 as (N2 & _), P3 as (N3 & _),
        P4 as (N4 & _).
      cbn [strlen]. change (BANG =? NUL) with false.
      destruct (Z.eqb_spec h1 NUL); [contradiction|].
      destruct (Z.eqb_spec h2 NUL); [contradiction|].
      destruct (Z.eqb_spec h3 NUL); [contradiction|].
      destruct (Z.eqb_spec h4 NUL); [contradiction|].
      reflexivity. }
    rewrite Hs. change (5 <=? 5) with true. cbv iota.
    change (char_at (BANG :: h1 :: h2 :: h3 :: h4 :: NUL :: rest) 1) with h1.
    change (char_at (BANG :: h1 :: h2 :: h3 :: h4 :: NUL :: rest) 2) with h2.
    change (char_at (BANG :: h1 :: h2 :: h3 :: h4 :: NUL :: rest) 3) with h3.
    change (char_at (BANG :: h1 :: h2 :: h3 :: h4 :: NUL :: rest) 4) with h4.
    parser_simpl.
    destruct (Z.eqb_spec (to_u16 (strtol16 [h1; h2; h3; h4; NUL]))
                (crc16 (cs ++ [BANG]))) as [E|E].
    + split; [intros _; split; reflexivity|intros Hne; contradiction].
    + split; [intros He; contradiction|intros _].
      rewrite Hfc. split; reflexivity.
Qed.

Lemma feed_terminator_elsewhere (cs : list Z) (p : dsmr_parser_t)
    (d : dsmr_data_t) (h : list Z) :
  in_frame cs p d -> line_index p <> 0 -> Forall plain h ->
  exists p' d',
    feed p d (BANG :: h ++ CRLF) =
      (p', d', repeat 0 (length (BANG :: h ++ CRLF))) /\
    frame_complete d' = false.
Proof.
  intros (Hfa & _ & _ & Hfc & Hlen & Hidx & Hhead) Hnz Hplain.
  assert (Hoff : off_line_start p d).
  { repeat split; try assumption; lia. }
  assert (Hbs : Forall (fun c => c <> LF) (BANG :: h ++ [CR])).
  { constructor; [discriminate|]. apply Forall_app. split.
    - revert Hplain. apply List.Forall_impl. now intros c (_ & Hc & _).
    - constructor; [discriminate|constructor]. }
  destruct (feed_off_line_start p d _ Hoff Hbs) as (p1 & H1 & Hoff1).
  destruct (parse_lf_off_line_start p1 d Hoff1) as (p2 & d2 & H2 & Hfc2).
  exists p2, d2. split; [|exact Hfc2].
  replace (BANG :: h ++ CRLF) with ((BANG :: h ++ [CR]) ++ [LF])
    by (simpl; now rewrite <- app_assoc).
  rewrite length_app, repeat_app.
  eapply feed_app; [exact H1|].
  exact (feed_step p1 d LF [] p2 d2 0 p2 d2 [] H2 eq_refl).
Qed.

(** ** The start of a frame *)

Lemma frame_start_not_bang (c : Z) : is_frame_start c = true -> c <> BANG.
Proof. unfold is_frame_start, is_upper, is_digit, SLASH, BANG. lia. Qed.

Lemma parse_frame_start (p : dsmr_parser_t) (d : dsmr_data_t) (c : Z) :
  frame_active p = 0 ->
  length (line_buffer p) = LINE_BUFFER_SIZE ->
  frame_complete d = false ->
  is_frame_start c = true ->
  exists p', dsmr_parse_byte p d c = (p', d, 0) /\ in_frame [c] p' d.
Proof.
  intros Hfa Hlen Hfc Hc. unfold dsmr_parse_byte. rewrite Hfa, Hc.
  change (0 =? 0) with true. cbv iota.
  eexists. split; [reflexivity|].
  unfold in_frame. parser_simpl.
  repeat split; try assumption; try lia.
  - now rewrite length_insert.
  - right. rewrite char_at_insert_eq by (rewrite Hlen; unfold LINE_BUFFER_SIZE; lia).
    now apply frame_start_not_bang.
Qed.

(** ** A whole telegram *)

Lemma feed_telegram (p : dsmr_parser_t) (d : dsmr_data_t) (start : Z)
    (body h : list Z) :
  frame_active p = 0 ->
  length (line_buffer p) = LINE_BUFFER_SIZE ->
  frame_complete d = false ->
  is_frame_start start = true ->
  Forall (fun c => c <> BANG) body ->
  length h = 4%nat -> Forall plain h ->
  exists p' d' r,
    feed p d (start :: body ++ BANG :: h ++ CRLF) =
      (p', d', repeat 0 (length (start :: body ++ BANG :: h ++ [CR])) ++ [r]) /\
    (r = 0 /\ frame_complete d' = false \/
     r = 1 /\ frame_complete d' = true /\
     to_u16 (strtol16 (h ++ [NUL])) = crc16 (start :: body ++ [BANG])) /\
    (forall body0, body = body0 ++ [LF] ->
     to_u16 (strtol16 (h ++ [NUL])) = crc16 (start :: body ++ [BANG]) ->
     r = 1).
Proof.
  intros Hfa Hlen Hfc Hstart Hbody Hh4 Hplain.
  destruct (parse_frame_start p d start Hfa Hlen Hfc Hstart)
    as (p0 & H0 & Hin0).
  destruct (feed_in_frame [start] p0 d body Hin0 Hbody)
    as (p1 & d1 & H1 & Hin1 & Hlast).
  simpl app in Hin1.
  pose proof Hin1 as (_ & _ & _ & Hfc1 & _).
  assert (Hshape : forall rs, 
            repeat 0 (length (start :: body ++ BANG :: h ++ [CR])) ++ [rs] =
            0 :: repeat 0 (length body) ++ [0; 0; 0; 0; 0; 0; rs]).
  { intros rs.
    destruct h as [|h1 [|h2 [|h3 [|h4 [|]]]]]; try discriminate Hh4.
    simpl length. rewrite length_app. simpl length.
    cbn [repeat app]. f_equal.
    rewrite repeat_app, <- app_assoc. reflexivity. }
  destruct (Z.eq_dec (line_index p1) 0) as [Hidx|Hidx].
  - destruct (feed_terminator _ p1 d1 h Hin1 Hidx Hh4 Hplain)
      as (p2 & d2 & r & H2 & Heq & Hne).
    exists p2, d2, r. split; [|split].
    + rewrite Hshape.
      eapply feed_step; [exact H0|]. eapply feed_app; [exact H1|exact H2].
    + destruct (Z.eq_dec (to_u16 (strtol16 (h ++ [NUL])))
                  (crc16 (start :: body ++ [BANG]))) as [E|E].
      * right. destruct (Heq E) as [-> ->]. now repeat split.
      * left. destruct (Hne E) as [-> ->]. now split.
    + intros body0 _ E. now destruct (Heq E).
  - destruct (feed_terminator_elsewhere _ p1 d1 h Hin1 Hidx Hplain)
      as (p2 & d2 & H2 & Hfc2).
    exists p2, d2, 0. split; [|split].
    + rewrite Hshape.
      eapply feed_step; [exact H0|]. eapply feed_app; [exact H1|].
      rewrite H2. f_equal.
      destruct h as [|h1 [|h2 [|h3 [|h4 [|]]]]]; try discriminate Hh4.
      reflexivity.
    + left. now split.
    + intros body0 E _. elim Hidx. now apply (Hlast body0).
Qed.

(** ** Four hexadecimal digits *)

Lemma is_hex_facts (c : Z) :
  is_hex c = true ->
  exists v, hex_digit c = Some v /\ 0 <= v < 16 /\
            48 <= c <= 102 /\ c <> 88 /\ c <> 120.
Proof.
  unfold is_hex, hex_digit, is_digit.
  destruct ((48 <=? c) && (c <=? 57)) eqn:E1;
    [intros _; exists (c - 48); repeat split; lia|].
  destruct ((97 <=? c) && (c <=? 102)) eqn:E2;
    [intros _; exists (c - 97 + 10); repeat split; lia|].
  destruct ((65 <=? c) && (c <=? 70)) eqn:E3;
    [intros _; exists (c - 65 + 10); repeat split; lia|].
  intros H. discriminate H.
Qed.

Lemma is_hex_plain (c : Z) : is_hex c = true -> plain c /\ c <> BANG.
Proof.
  intros H. destruct (is_hex_facts c H) as (v & _ & _ & Hc & _).
  unfold plain, NUL, LF, CR, BANG. lia.
Qed.

Lemma hex_plain (h : list Z) :
  Forall (fun c => is_hex c = true) h -> Forall plain h.
Proof.
  induction 1 as [|c t Hc _ IH]; constructor; [|assumption].
  now destruct (is_hex_plain c Hc).
Qed.

Lemma strtol16_hex (h : list Z) :
  length h = 4%nat -> Forall (fun c => is_hex c = true) h ->
  to_u16 (strtol16 (h ++ [NUL])) = hex_value h.
Proof.
  intros Hlen Hhex.
  destruct h as [|a [|b [|c [|e [|]]]]]; try discriminate Hlen.
  inversion Hhex as [|? ? Ha H1]; subst.
  inversion H1 as [|? ? Hb H2]; subst.
  inversion H2 as [|? ? Hc H3]; subst.
  inversion H3 as [|? ? He _]; subst.
  destruct (is_hex_facts a Ha) as (va & Ea & Hva & Hra & _).
  destruct (is_hex_facts b Hb) as (vb & Eb & Hvb & Hrb & Hb1 & Hb2).
  destruct (is_hex_facts c Hc) as (vc & Ec & Hvc & Hrc & _).
  destruct (is_hex_facts e He) as (ve & Ee & Hve & Hre & _).
  assert (Hcstr : cstr ([a; b; c; e] ++ [NUL]) = [a; b; c; e]).
  { apply cstr_app_nul. repeat constructor; unfold NUL; lia. }
  unfold strtol16. rewrite Hcstr.
  assert (Hsp : isspace a = false) by (unfold isspace; lia).
  cbn [skip_space]. rewrite Hsp.
  destruct (Z.eqb_spec a MINUS) as [E|_]; [unfold MINUS in E; lia|].
  destruct (Z.eqb_spec a 43) as [E|_]; [lia|].
  assert (Hpre : strtol_prefix [a; b; c; e] = [a; b; c; e]).
  { unfold strtol_prefix.
    destruct (Z.eqb_spec b 120); [contradiction|].
    destruct (Z.eqb_spec b 88); [contradiction|].
    now rewrite andb_false_r. }
  rewrite Hpre. unfold hex_value, hex_digit_value.
  cbn [strtol_digits fold_left]. rewrite Ea, Eb, Ec, Ee.
  apply to_u16_id. unfold in_u16. lia.
Qed.

(** ** Checksum validation of whole telegrams *)

Lemma flipped_bit (x k : Z) :
  in_u8 x -> 0 <= k < 8 ->
  in_u8 (Z.lxor x (2 ^ k)) /\ Z.lxor x (2 ^ k) <> x.
Proof.
  unfold in_u8. intros Hx Hk.
  assert (Hp : 0 < 2 ^ k < 2 ^ 8).
  { split; [apply Z.pow_pos_nonneg; lia|apply Z.pow_lt_mono_r; lia]. }
  split.
  - change 256 with (2 ^ 8). apply lxor_bound; [lia| |lia].
    change (2 ^ 8) with 256. lia.
  - intros E. rewrite <- (Z.lxor_0_r x) in E at 2.
    apply lxor_cancel_l in E. lia.
Qed.

Lemma flipped_slash_ignored (k : Z) :
  0 <= k < 8 -> is_frame_start (Z.lxor SLASH (2 ^ k)) = false.
Proof.
  intros Hk.
  assert (H : k = 0 \/ k = 1 \/ k = 2 \/ k = 3 \/ k = 4 \/ k = 5 \/ k = 6 \/
              k = 7) by lia.
  repeat (destruct H as [-> | H]; [reflexivity|]). now subst.
Qed.

Lemma fresh_parser :
  frame_active (fst dsmr_parser_init) = 0 /\
  length (line_buffer (fst dsmr_parser_init)) = LINE_BUFFER_SIZE /\
  frame_complete (snd dsmr_parser_init) = false.
Proof. repeat split. Qed.

(** X1 (the checksum property, as the code has it).  Take a telegram [/ body ! h CR LF] whose body has no
    [!] and whose four hexadecimal digits [h] are the CRC16 of the bytes from
    [/] to [!].  (1) If the body ends with LF, so that [!] starts a line,
    feeding the telegram to a fresh parser sets frame-complete.  (2) With one
    bit flipped in a byte of the body, the flipped byte not being [!],
    frame-complete stays unset.  (3) It stays unset with one bit of the [!]
    flipped, and (4) with one bit of the leading [/] flipped when the byte
    after it is an upper-case letter or a digit, as in an identification
    line. *)
Theorem crc_validation (body h : list Z) :
  Forall in_u8 body ->
  Forall (fun c => c <> BANG) body ->
  length h = 4%nat ->
  Forall (fun c => is_hex c = true) h ->
  hex_value h = crc16 (SLASH :: body ++ [BANG]) ->
  (forall body0, body = body0 ++ [LF] ->
   frame_complete_after (SLASH :: body ++ BANG :: h ++ CRLF) = true) /\
  (forall pre x post k, body = pre ++ x :: post -> 0 <= k < 8 ->
   Z.lxor x (2 ^ k) <> BANG ->
   frame_complete_after
     (SLASH :: (pre ++ Z.lxor x (2 ^ k) :: post) ++ BANG :: h ++ CRLF)
   = false) /\
  (forall k, 0 <= k < 8 ->
   frame_complete_after (SLASH :: body ++ Z.lxor BANG (2 ^ k) :: h ++ CRLF)
   = false) /\
  (forall k, 0 <= k < 8 -> is_frame_start (char_at body 0) = true ->
   frame_complete_after (Z.lxor SLASH (2 ^ k) :: body ++ BANG :: h ++ CRLF)
   = false).
Proof.
  intros Hbytes Hbody Hlen Hhex Hcrc.
  destruct fresh_parser as (Hfa & Hbuf & Hfc).
  pose proof (hex_plain h Hhex) as Hplain.
  pose proof (strtol16_hex h Hlen Hhex) as Hrx. rewrite Hcrc in Hrx.
  unfold frame_complete_after.
  split; [|split; [|split]].
  - intros body0 Hlf.
    destruct (feed_telegram _ _ SLASH body h Hfa Hbuf Hfc eq_refl Hbody Hlen
                Hplain) as (p' & d' & r & Hfeed & Hout & Hline).
    rewrite Hfeed. specialize (Hline body0 Hlf Hrx).
    destruct Hout as [[Hr _]|(_ & Hf & _)]; [lia|exact Hf].
  - intros pre x post k -> Hk Hnb.
    apply Forall_app in Hbytes as [Hpre Hx].
    inversion Hx as [|? ? Hx8 Hpost]; subst.
    apply Forall_app in Hbody as [Hpre' Hx'].
    inversion Hx' as [|? ? _ Hpost']; subst.
    destruct (flipped_bit x k Hx8 Hk) as [Hy8 Hne].
    assert (Hbody' : Forall (fun c => c <> BANG)
                       (pre ++ Z.lxor x (2 ^ k) :: post)).
    { apply Forall_app. split; [assumption|]. now constructor. }
    destruct (feed_telegram _ _ SLASH _ h Hfa Hbuf Hfc eq_refl Hbody' Hlen
                Hplain) as (p' & d' & r & Hfeed & Hout & _).
    rewrite Hfeed.
    destruct Hout as [[_ Hf]|(_ & _ & Hmatch)]; [exact Hf|].
    exfalso. rewrite Hrx in Hmatch.
    apply (crc16_byte_change (SLASH :: pre) (post ++ [BANG]) x
             (Z.lxor x (2 ^ k))); try assumption.
    + apply Forall_app. split; [assumption|].
      constructor; [unfold in_u8, BANG; lia|constructor].
    + now intros E; apply Hne.
    + simpl. rewrite <- !app_assoc in Hmatch. simpl in Hmatch. exact Hmatch.
  - intros k Hk.
    destruct (flipped_bit BANG k ltac:(unfold in_u8, BANG; lia) Hk)
      as [_ Hne].
    destruct (parse_frame_start _ _ SLASH Hfa Hbuf Hfc eq_refl)
      as (p0 & H0 & Hin0).
    assert (Hrest : Forall (fun c => c <> BANG)
                      (body ++ Z.lxor BANG (2 ^ k) :: h ++ CRLF)).
    { apply Forall_app. split; [assumption|]. constructor; [assumption|].
      apply Forall_app. split.
      - revert Hhex. apply List.Forall_impl. intros c Hc.
        now destruct (is_hex_plain c Hc).
      - repeat constructor; discriminate. }
    destruct (feed_in_frame _ p0 _ _ Hin0 Hrest)
      as (p1 & d1 & H1 & Hin1 & _).
    rewrite (feed_step _ _ _ _ _ _ _ _ _ _ H0 H1).
    now destruct Hin1 as (_ & _ & _ & Hf & _).
  - intros k Hk Hstart.
    destruct body as [|b0 body1]; [discriminate Hstart|].
    change (char_at (b0 :: body1) 0) with b0 in Hstart.
    inversion Hbody as [|? ? _ Hbody1]; subst.
    destruct (feed_telegram _ _ b0 body1 h Hfa Hbuf Hfc Hstart Hbody1 Hlen
                Hplain) as (p' & d' & r & Hfeed & Hout & _).
    assert (Hskip : dsmr_parse_byte (fst dsmr_parser_init)
                      (snd dsmr_parser_init) (Z.lxor SLASH (2 ^ k)) =
                    (fst dsmr_parser_init, snd dsmr_parser_init, 0)).
    { unfold dsmr_parse_byte. rewrite Hfa, (flipped_slash_ignored k Hk).
      reflexivity. }
    change ((b0 :: body1) ++ BANG :: h ++ CRLF)
      with (b0 :: body1 ++ BANG :: h ++ CRLF).
    rewrite (feed_step _ _ _ _ _ _ _ _ _ _ Hskip Hfeed).
    destruct Hout as [[_ Hf]|(_ & _ & Hmatch)]; [exact Hf|].
    exfalso. rewrite Hrx in Hmatch.
    apply (crc16_first_byte_lost ((b0 :: body1) ++ [BANG])).
    + apply Forall_app. split; [assumption|].
      constructor; [unfold in_u8, BANG; lia|constructor].
    + exact Hmatch.
Qed.

Lemma Forall_of_forallb (P : Z -> Prop) (f : Z -> bool) (l : list Z) :
  (forall x, f x = true -> P x) -> forallb f l = true -> Forall P l.
Proof.
  intros Hf. induction l as [|x l IH]; simpl; [constructor|].
  intros H. apply andb_true_iff in H as [Hx Hl].
  constructor; [now apply Hf|now apply IH].
Qed.

Lemma bytes_in_u8 (l : list Z) :
  forallb (fun x => (0 <=? x) && (x <? 256)) l = true -> Forall in_u8 l.
Proof. apply Forall_of_forallb. unfold in_u8. lia. Qed.

Lemma bytes_no_bang (l : list Z) :
  forallb (fun x => negb (x =? BANG)) l = true ->
  Forall (fun c => c <> BANG) l.
Proof. apply Forall_of_forallb. lia. Qed.

Lemma crc_validation_witness :
  frame_complete_after sample_telegram = true /\
  frame_complete_after
    (bytes "/ISk5\2MT382-1000" ++ CRLF ++
     bytes "1-0:1.7.0(00.424*" ++ Z.lxor (chr "k") (2 ^ 0) :: bytes "W)" ++
     CRLF ++ bytes "1-0:2.7.0(00.000*kW)" ++ CRLF ++ bytes "!383D" ++ CRLF)
  = false.
Proof.
  assert (H1 : Forall in_u8 (tl (removelast sample_body)))
    by (apply bytes_in_u8; reflexivity).
  assert (H2 : Forall (fun c => c <> BANG) (tl (removelast sample_body)))
    by (apply bytes_no_bang; reflexivity).
  assert (H3 : Forall (fun c => is_hex c = true) (bytes "383D")).
  { repeat constructor. }
  destruct (crc_validation (tl (removelast sample_body)) (bytes "383D")
              H1 H2 eq_refl H3 eq_refl) as (Hok & Hflip & _ & _).
  split.
  - exact (Hok (removelast (tl (removelast sample_body))) eq_refl).
  - apply (Hflip (bytes "ISk5\2MT382-1000" ++ CRLF ++ bytes "1-0:1.7.0(00.424*")
                 (chr "k")
                 (bytes "W)" ++ CRLF ++ bytes "1-0:2.7.0(00.000*kW)" ++ CRLF)
                 0).
    + reflexivity.
    + lia.
    + vm_compute. discriminate.
Defined.

(** A bit flip that does produce a [!] can go unnoticed.  In a telegram with
    a correct checksum, flipping bit 4 of the [1] that starts the first data
    line turns it into [!]: the line is taken for the terminator, the
    characters [-0:1] after it are converted to 0, and 0 is the CRC16
    accumulated up to there, so the frame is signalled as complete.  In a
    telegram with a line made of the single character [1], the same flip
    gives a terminator line without checksum, which is accepted as it is. *)
Lemma crc_flip_undetected :
  (hex_value (bytes "D880") =
     crc16 (meter_header ++ chr "1" :: meter_lines ++ [BANG]) /\
   frame_complete_after (meter_telegram (chr "1") (bytes "D880")) = true /\
   Z.lxor (chr "1") (2 ^ 4) = BANG /\
   frame_complete_after
     (meter_telegram (Z.lxor (chr "1") (2 ^ 4)) (bytes "D880")) = true) /\
  (frame_complete_after (short_line_telegram (chr "1") (bytes "2B32")) = true /\
   frame_complete_after
     (short_line_telegram (Z.lxor (chr "1") (2 ^ 4)) (bytes "2B32")) = true).
Proof. vm_compute. repeat split. Qed.

(** * Further properties of the code *)

(** ** The caller and the last known good record *)

Lemma parse_byte_quiet (p : dsmr_parser_t) (d : dsmr_data_t) (c : Z)
    (p' : dsmr_parser_t) (d' : dsmr_data_t) :
  dsmr_parse_byte p d c = (p', d', 0) ->
  frame_complete d = false -> frame_complete d' = false.
Proof.
  unfold dsmr_parse_byte. intros H Hfc.
  destruct (frame_active p =? 0).
  { destruct (is_frame_start c); inversion H; subst; exact Hfc. }
  destruct (c =? LF).
  { destruct (process_line _ _ _) as [p1 d1].
    destruct (frame_complete d1) eqn:E; inversion H; subst. exact E. }
  destruct (c =? CR); [|destruct (_ <? _)]; inversion H; subst; exact Hfc.
Qed.

Lemma parse_byte_buffer_length (p : dsmr_parser_t) (d : dsmr_data_t) (c : Z) :
  length (line_buffer (fst (fst (dsmr_parse_byte p d c)))) =
  length (line_buffer p).
Proof.
  unfold dsmr_parse_byte.
  destruct (frame_active p =? 0).
  { destruct (is_frame_start c); simpl; [apply length_insert|reflexivity]. }
  destruct (c =? LF).
  { match goal with
    | |- context [process_line ?pp d ?l] =>
        destruct (process_line_parser pp d l) as [E|E];
        destruct (process_line pp d l) as [p1 d1]
    end; simpl in E; subst p1; simpl;
    destruct (crc_done p =? 0); simpl; apply length_insert. }
  destruct (c =? CR); [|destruct (_ <? _)];
    destruct (crc_done p =? 0); simpl; rewrite ?length_insert; reflexivity.
Qed.

Lemma processDataByte_ok (s : system_t) (c : Z) :
  system_ok s -> system_ok (processDataByte s c).
Proof.
  intros [Hlen Hfc]. unfold processDataByte, system_ok.
  pose proof (parse_byte_buffer_length (dsmr_parser s) (dsmr_data s) c) as Hl.
  destruct (dsmr_parse_byte (dsmr_parser s) (dsmr_data s) c)
    as [[p1 d1] r] eqn:E.
  destruct (Z.eqb_spec r 0) as [-> | Hr]; simpl.
  - split; [simpl in Hl; congruence|].
    exact (parse_byte_quiet _ _ _ _ _ E Hfc).
  - split; reflexivity.
Qed.

Lemma run_ok (s : system_t) (bs : list Z) :
  system_ok s -> system_ok (run s bs).
Proof.
  revert s. induction bs as [|c bs IH]; intros s Hs; [exact Hs|].
  apply (IH (processDataByte s c)), processDataByte_ok, Hs.
Qed.

Lemma system_start_ok : system_ok system_start.
Proof. split; reflexivity. Qed.

Lemma run_quiet (bs : list Z) (s : system_t) (p : dsmr_parser_t)
    (d : dsmr_data_t) :
  feed (dsmr_parser s) (dsmr_data s) bs = (p, d, repeat 0 (length bs)) ->
  run s bs =
    {| dsmr_data := d; dsmr_last_good := dsmr_last_good s; dsmr_parser := p |}.
Proof.
  revert s. induction bs as [|c bs IH]; intros s H.
  - simpl in H. inversion H; subst. now destruct s.
  - simpl in H. unfold run. simpl fold_left. fold (run (processDataByte s c) bs).
    unfold processDataByte.
    destruct (dsmr_parse_byte (dsmr_parser s) (dsmr_data s) c)
      as [[p1 d1] r].
    destruct (feed p1 d1 bs) as [[p2 d2] rs] eqn:E2.
    inversion H; subst.
    change (0 =? 0) with true. cbv iota.
    now rewrite (IH {| dsmr_data := d1; dsmr_last_good := dsmr_last_good s;
                       dsmr_parser := p1 |} E2).
Qed.

Lemma last_good_step (s : system_t) (c : Z) :
  dsmr_last_good (processDataByte s c) = dsmr_last_good s \/
  exists p' d',
    dsmr_parse_byte (dsmr_parser s) (dsmr_data s) c = (p', d', 1) /\
    frame_complete d' = true /\
    char_at (meter_id d') 0 <> NUL /\
    dsmr_last_good (processDataByte s c) = d'.
Proof.
  unfold processDataByte.
  destruct (dsmr_parse_byte (dsmr_parser s) (dsmr_data s) c)
    as [[p1 d1] r] eqn:E.
  destruct (parse_byte_ready _ _ _ _ _ _ E) as ([-> | ->] & _ & _).
  - now left.
  - change (1 =? 0) with false. cbv iota.
    destruct (Z.eqb_spec (char_at (meter_id d1) 0) NUL) as [Hid|Hid];
      [now left|].
    destruct (frame_complete d1) eqn:Hfc; [|now left].
    right. exists p1, d1. now repeat split.
Qed.

(** X2.  The last known good record changes only on a byte for which
    [dsmr_parse_byte] returns 1 with frame-complete set and a meter
    identifier present, and it then becomes the working record.  A telegram
    received from the idle state whose checksum characters do not convert to
    the accumulated CRC16 (or whose [!] does not start a line) leaves the
    last known good record exactly as it was. *)
Theorem failed_checksum_keeps_last_good :
  (forall s c,
     dsmr_last_good (processDataByte s c) <> dsmr_last_good s ->
     exists p' d',
       dsmr_parse_byte (dsmr_parser s) (dsmr_data s) c = (p', d', 1) /\
       frame_complete d' = true /\
       char_at (meter_id d') 0 <> NUL /\
       dsmr_last_good (processDataByte s c) = d') /\
  (forall pre body h,
     let s := run system_start pre in
     frame_active (dsmr_parser s) = 0 ->
     Forall (fun c => c <> BANG) body ->
     length h = 4%nat -> Forall plain h ->
     to_u16 (strtol16 (h ++ [NUL])) <> crc16 (SLASH :: body ++ [BANG]) ->
     dsmr_last_good (run s (SLASH :: body ++ BANG :: h ++ CRLF)) =
     dsmr_last_good s).
Proof.
  split.
  - intros s c Hchg. destruct (last_good_step s c) as [E|H]; [contradiction|].
    exact H.
  - intros pre body h s Hidle Hbody Hlen Hplain Hne.
    destruct (run_ok system_start pre system_start_ok) as [Hbuf Hfc].
    fold s in Hbuf, Hfc.
    destruct (feed_telegram _ _ SLASH body h Hidle Hbuf Hfc eq_refl Hbody Hlen
                Hplain) as (p' & d' & r & Hfeed & Hout & _).
    destruct Hout as [[-> _]|(_ & _ & Hmatch)]; [|contradiction].
    assert (Hrets : repeat 0 (length (SLASH :: body ++ BANG :: h ++ [CR]))
                      ++ [0] =
                    repeat 0 (length (SLASH :: body ++ BANG :: h ++ CRLF))).
    { replace (SLASH :: body ++ BANG :: h ++ CRLF)
        with ((SLASH :: body ++ BANG :: h ++ [CR]) ++ [LF]).
      - now rewrite (length_app _ [LF]), repeat_app.
      - simpl. rewrite <- app_assoc. simpl. now rewrite <- app_assoc. }
    rewrite Hrets in Hfeed.
    now rewrite (run_quiet _ s p' d' Hfeed).
Qed.

Lemma failed_checksum_keeps_last_good_witness :
  dsmr_last_good (run system_start (sample_body ++ bytes "0000" ++ CRLF)) =
  dsmr_last_good system_start.
Proof.
  apply (proj2 failed_checksum_keeps_last_good []
           (tl (removelast sample_body)) (bytes "0000")).
  - reflexivity.
  - apply bytes_no_bang. reflexivity.
  - reflexivity.
  - repeat constructor; discriminate.
  - vm_compute. discriminate.
Defined.

Lemma parse_byte_text_fields (p : dsmr_parser_t) (d : dsmr_data_t) (c : Z) :
  text_fields_ok d ->
  text_fields_ok (snd (fst (dsmr_parse_byte p d c))).
Proof.
  intros Hok. unfold dsmr_parse_byte.
  destruct (frame_active p =? 0).
  { destruct (is_frame_start c); exact Hok. }
  destruct (c =? LF).
  { match goal with
    | |- context [process_line ?pp d ?l] =>
        pose proof (process_line_text_fields pp d l Hok) as H;
        destruct (process_line pp d l) as [p1 d1]
    end. exact H. }
  destruct (c =? CR); [|destruct (_ <? _)]; exact Hok.
Qed.

(** X3.  Whatever bytes the firmware has received since it started: the
    record shown to consumers is either still the all-zero record it started
    with, or a record with the frame-complete flag set and a non-empty meter
    identifier; the working record never carries the frame-complete flag
    between two bytes; and the text fields of both records keep their
    declared sizes and their terminators. *)
Theorem published_records_complete (bs : list Z) :
  let s := run system_start bs in
  (dsmr_last_good s = dsmr_data_zero \/
   frame_complete (dsmr_last_good s) = true /\
   char_at (meter_id (dsmr_last_good s)) 0 <> NUL) /\
  frame_complete (dsmr_data s) = false /\
  text_fields_ok (dsmr_last_good s) /\
  text_fields_ok (dsmr_data s).
Proof.
  assert (Hstep : forall s c,
    ((dsmr_last_good s = dsmr_data_zero \/
      frame_complete (dsmr_last_good s) = true /\
      char_at (meter_id (dsmr_last_good s)) 0 <> NUL) /\
     frame_complete (dsmr_data s) = false /\
     text_fields_ok (dsmr_last_good s) /\
     text_fields_ok (dsmr_data s)) ->
    let s' := processDataByte s c in
    (dsmr_last_good s' = dsmr_data_zero \/
     frame_complete (dsmr_last_good s') = true /\
     char_at (meter_id (dsmr_last_good s')) 0 <> NUL) /\
    frame_complete (dsmr_data s') = false /\
    text_fields_ok (dsmr_last_good s') /\
    text_fields_ok (dsmr_data s')).
  { intros s c (Hpub & Hfc & Hlg & Hd) s'.
    pose proof (parse_byte_text_fields (dsmr_parser s) (dsmr_data s) c Hd)
      as Htf.
    pose proof (last_good_step s c) as Hlast. fold s' in Hlast.
    assert (Hrest : frame_complete (dsmr_data s') = false /\
                    text_fields_ok (dsmr_data s')).
    { subst s'. unfold processDataByte.
      destruct (dsmr_parse_byte (dsmr_parser s) (dsmr_data s) c)
        as [[p1 d1] r] eqn:E.
      destruct (Z.eqb_spec r 0) as [-> | Hr]; simpl.
      - split; [exact (parse_byte_quiet _ _ _ _ _ E Hfc)|exact Htf].
      - split; [reflexivity|exact text_fields_ok_zero]. }
    destruct Hrest as [Hfc' Hd'].
    destruct Hlast as [E|(p1 & d1 & E & Hc & Hid & Elg)].
    - rewrite E. split; [exact Hpub|]. split; [exact Hfc'|].
      split; assumption.
    - rewrite Elg. rewrite E in Htf. simpl in Htf.
      split; [right; now split|]. split; [exact Hfc'|].
      split; assumption. }
  unfold run.
  assert (Hinit :
    (dsmr_last_good system_start = dsmr_data_zero \/
     frame_complete (dsmr_last_good system_start) = true /\
     char_at (meter_id (dsmr_last_good system_start)) 0 <> NUL) /\
    frame_complete (dsmr_data system_start) = false /\
    text_fields_ok (dsmr_last_good system_start) /\
    text_fields_ok (dsmr_data system_start)).
  { split; [now left|]. split; [reflexivity|].
    split; exact text_fields_ok_zero. }
  revert Hinit. generalize system_start.
  induction bs as [|c bs IH]; intros s Hs; [exact Hs|].
  simpl fold_left. apply IH, Hstep, Hs.
Qed.

Lemma run_same_parser (bs : list Z) (s1 s2 : system_t) :
  dsmr_parser s1 = dsmr_parser s2 -> dsmr_data s1 = dsmr_data s2 ->
  dsmr_parser (run s1 bs) = dsmr_parser (run s2 bs) /\
  dsmr_data (run s1 bs) = dsmr_data (run s2 bs) /\
  (dsmr_last_good (run s1 bs) = dsmr_last_good (run s2 bs) \/
   dsmr_last_good (run s1 bs) = dsmr_last_good s1 /\
   dsmr_last_good (run s2 bs) = dsmr_last_good s2).
Proof.
  intros Hp Hd.
  assert (Hgen : forall l1 l2 t1 t2,
    dsmr_parser t1 = dsmr_parser t2 -> dsmr_data t1 = dsmr_data t2 ->
    (dsmr_last_good t1 = dsmr_last_good t2 \/
     dsmr_last_good t1 = l1 /\ dsmr_last_good t2 = l2) ->
    dsmr_parser (run t1 bs) = dsmr_parser (run t2 bs) /\
    dsmr_data (run t1 bs) = dsmr_data (run t2 bs) /\
    (dsmr_last_good (run t1 bs) = dsmr_last_good (run t2 bs) \/
     dsmr_last_good (run t1 bs) = l1 /\ dsmr_last_good (run t2 bs) = l2)).
  { intros l1 l2. induction bs as [|c bs IH]; intros t1 t2 Ep Ed El.
    - now repeat split.
    - unfold run. simpl fold_left.
      apply IH; unfold processDataByte; rewrite Ep, Ed;
        destruct (dsmr_parse_byte (dsmr_parser t2) (dsmr_data t2) c)
          as [[p1 d1] r];
        destruct (r =? 0); try reflexivity; simpl.
      + exact El.
      + destruct (_ && _); [now left|exact El]. }
  apply Hgen; try assumption. right. now split.
Qed.

(** X4.  Once [dsmr_parse_byte] has returned 1, [processDataByte] leaves the
    parser and the working record as they are after start-up, so every
    following byte sequence is parsed exactly as by a freshly started
    firmware, and any record it publishes is the one a freshly started
    firmware would publish. *)
Theorem reset_after_frame (s : system_t) (c : Z) (p' : dsmr_parser_t)
    (d' : dsmr_data_t) (bs : list Z) :
  dsmr_parse_byte (dsmr_parser s) (dsmr_data s) c = (p', d', 1) ->
  let s' := processDataByte s c in
  dsmr_parser (run s' bs) = dsmr_parser (run system_start bs) /\
  dsmr_data (run s' bs) = dsmr_data (run system_start bs) /\
  (dsmr_last_good (run s' bs) = dsmr_last_good (run system_start bs) \/
   dsmr_last_good (run s' bs) = dsmr_last_good s').
Proof.
  intros Hready s'.
  assert (Hp : dsmr_parser s' = dsmr_parser system_start).
  { subst s'. unfold processDataByte. now rewrite Hready. }
  assert (Hd : dsmr_data s' = dsmr_data system_start).
  { subst s'. unfold processDataByte. now rewrite Hready. }
  destruct (run_same_parser bs s' system_start Hp Hd) as (E1 & E2 & E3).
  split; [exact E1|]. split; [exact E2|].
  destruct E3 as [E3|[E3 _]]; [now left|now right].
Qed.

Lemma reset_after_frame_witness :
  let s := run system_start (removelast sample_telegram) in
  let s' := processDataByte s LF in
  dsmr_parser (run s' sample_telegram) =
  dsmr_parser (run system_start sample_telegram).
Proof.
  intros s s'.
  apply (reset_after_frame s LF
           (fst (fst (dsmr_parse_byte (dsmr_parser s) (dsmr_data s) LF)))
           (snd (fst (dsmr_parse_byte (dsmr_parser s) (dsmr_data s) LF)))
           sample_telegram).
  vm_compute. reflexivity.
Defined.

(** ** The line buffer stays inside its storage *)

Lemma parse_byte_bounds (p : dsmr_parser_t) (d : dsmr_data_t) (c : Z) :
  0 <= line_index p <= 79 ->
  0 <= line_index (fst (fst (dsmr_parse_byte p d c))) <= 79.
Proof.
  intros Hidx. unfold dsmr_parse_byte.
  destruct (frame_active p =? 0).
  { destruct (is_frame_start c); simpl; lia. }
  destruct (c =? LF).
  { destruct (process_line _ _ _) as [p1 d1]. simpl. lia. }
  change (Z.of_nat LINE_BUFFER_SIZE - 1) with 79.
  destruct (c =? CR);
    [destruct (crc_done p =? 0); simpl; exact Hidx|].
  destruct (crc_done p =? 0); parser_simpl;
    (destruct (Z.ltb_spec (line_index p) 79); parser_simpl;
     [rewrite to_u8_id by (unfold in_u8; lia); lia|exact Hidx]).
Qed.

(** X5.  Whatever bytes are fed to the parser, the line buffer keeps its 80
    characters and the write index stays between 0 and 79, so every character
    stored, and the terminator written at the index when a line ends, lands
    inside the buffer. *)
Theorem line_buffer_bounds (p : dsmr_parser_t) (d : dsmr_data_t)
    (bs : list Z) :
  length (line_buffer p) = LINE_BUFFER_SIZE ->
  0 <= line_index p <= 79 ->
  let p' := fst (fst (feed p d bs)) in
  length (line_buffer p') = LINE_BUFFER_SIZE /\
  0 <= line_index p' <= 79 /\
  (Z.to_nat (line_index p') < length (line_buffer p'))%nat.
Proof.
  revert p d. induction bs as [|c bs IH]; intros p d Hlen Hidx.
  - simpl. unfold LINE_BUFFER_SIZE in *. repeat split; lia.
  - pose proof (parse_byte_buffer_length p d c) as Hl.
    pose proof (parse_byte_bounds p d c Hidx) as Hi.
    simpl feed.
    destruct (dsmr_parse_byte p d c) as [[p1 d1] r]. simpl in Hl, Hi.
    specialize (IH p1 d1 ltac:(congruence) Hi).
    destruct (feed p1 d1 bs) as [[p2 d2] rs]. exact IH.
Qed.

Lemma line_buffer_bounds_witness :
  let p' := fst (fst (feed dsmr_parser_zero dsmr_data_zero
                        (bytes "/" ++ repeat 65 200))) in
  length (line_buffer p') = LINE_BUFFER_SIZE /\
  0 <= line_index p' <= 79 /\
  (Z.to_nat (line_index p') < length (line_buffer p'))%nat.
Proof.
  apply (line_buffer_bounds dsmr_parser_zero dsmr_data_zero).
  - reflexivity.
  - simpl. lia.
Defined.

(** ** Long lines *)

Lemma take_insert_next (buf : list Z) (n : nat) (c : Z) :
  (n < length buf)%nat -> take (S n) (<[n := c]> buf) = take n buf ++ [c].
Proof.
  revert buf. induction n as [|n IH]; intros [|b buf] Hn; simpl in *;
    try lia; [reflexivity|].
  f_equal. apply IH. lia.
Qed.

Lemma feed_line_chars (w : list Z) (p : dsmr_parser_t) (d : dsmr_data_t)
    (acc : list Z) :
  frame_active p <> 0 ->
  length (line_buffer p) = LINE_BUFFER_SIZE ->
  line_index p = Z.of_nat (length acc) ->
  (length acc <= 79)%nat ->
  take (length acc) (line_buffer p) = acc ->
  Forall (fun c => c <> LF /\ c <> CR) w ->
  exists p',
    feed p d w = (p', d, repeat 0 (length w)) /\
    line_index p' = Z.of_nat (length (take 79 (acc ++ w))) /\
    take (length (take 79 (acc ++ w))) (line_buffer p') = take 79 (acc ++ w) /\
    frame_active p' = frame_active p.
Proof.
  intros Hfa Hlen Hidx Hacc Htake Hw. revert p acc Hfa Hlen Hidx Hacc Htake.
  induction Hw as [|c w [Hlf Hcr] _ IH]; intros p acc Hfa Hlen Hidx Hacc Htake.
  - exists p. rewrite app_nil_r.
    rewrite (take_ge acc) by lia. now repeat split.
  - assert (Hstep : exists p1,
      dsmr_parse_byte p d c = (p1, d, 0) /\
      frame_active p1 = frame_active p /\
      length (line_buffer p1) = LINE_BUFFER_SIZE /\
      ((length acc < 79)%nat /\
       line_index p1 = Z.of_nat (length (acc ++ [c])) /\
       take (length (acc ++ [c])) (line_buffer p1) = acc ++ [c] \/
       length acc = 79%nat /\
       line_index p1 = line_index p /\ line_buffer p1 = line_buffer p)).
    { destruct p as [buf idx fa crc cd]. parser_simpl. subst idx.
      unfold dsmr_parse_byte. parser_simpl.
      destruct (Z.eqb_spec fa 0) as [|_]; [contradiction|].
      destruct (Z.eqb_spec c LF) as [|_]; [contradiction|].
      destruct (Z.eqb_spec c CR) as [|_]; [contradiction|].
      unfold LINE_BUFFER_SIZE in *. change (Z.of_nat 80 - 1) with 79.
      destruct (cd =? 0); parser_simpl;
        (destruct (Z.ltb_spec (Z.of_nat (length acc)) 79) as [Hlt|Hge];
         [eexists; split; [reflexivity|]; parser_simpl;
          split; [reflexivity|]; split; [now rewrite length_insert|];
          left; split; [lia|];
          rewrite to_u8_id by (unfold in_u8; lia);
          rewrite Nat2Z.id, length_app; simpl length;
          split; [lia|];
          replace (length acc + 1)%nat with (S (length acc)) by lia;
          rewrite take_insert_next by lia; now rewrite Htake
         |eexists; split; [reflexivity|]; parser_simpl;
          split; [reflexivity|]; split; [assumption|];
          right; repeat split; lia]). }
    destruct Hstep as (p1 & H1 & Hfa1 & Hlen1 & Hcase).
    destruct Hcase as [(Hlt & Hidx1 & Htake1)|(Hfull & Hidx1 & Hbuf1)].
    + destruct (IH p1 (acc ++ [c])) as (p2 & H2 & Hi2 & Ht2 & Hf2);
        try assumption; try congruence.
      { rewrite length_app. simpl. lia. }
      exists p2. rewrite <- app_assoc in Hi2, Ht2. simpl in Hi2, Ht2.
      split; [exact (feed_step _ _ _ _ _ _ _ _ _ _ H1 H2)|].
      repeat split; try assumption. congruence.
    + assert (Htk : forall v, take 79 (acc ++ v) = acc).
      { intros v. rewrite take_app_le by lia. apply take_ge. lia. }
      destruct (IH p1 acc) as (p2 & H2 & Hi2 & Ht2 & Hf2);
        try assumption; try congruence.
      exists p2. rewrite Htk in *.
      split; [exact (feed_step _ _ _ _ _ _ _ _ _ _ H1 H2)|].
      repeat split; try assumption. congruence.
Qed.

(** X6.  Inside a frame and at the start of a line, a run of characters
    without CR and LF fills the line buffer with its first 79 characters and
    drops the rest: nothing is signalled, the record is untouched, and the
    line that will be processed is the run cut to 79 characters. *)
Theorem long_line_truncated (p : dsmr_parser_t) (d : dsmr_data_t)
    (w : list Z) :
  frame_active p <> 0 ->
  length (line_buffer p) = LINE_BUFFER_SIZE ->
  line_index p = 0 ->
  Forall (fun c => c <> LF /\ c <> CR) w ->
  exists p',
    feed p d w = (p', d, repeat 0 (length w)) /\
    line_index p' = Z.of_nat (min 79 (length w)) /\
    take (min 79 (length w)) (line_buffer p') = take 79 w.
Proof.
  intros Hfa Hlen Hidx Hw.
  destruct (feed_line_chars w p d [] Hfa Hlen Hidx) as (p' & H & Hi & Ht & _);
    try assumption; [simpl; lia|reflexivity|].
  simpl app in Hi, Ht. rewrite length_take in Hi, Ht.
  exists p'. repeat split; assumption.
Qed.

Lemma long_line_truncated_witness :
  exists p',
    feed (fst (fst (feed dsmr_parser_zero dsmr_data_zero
                      (bytes "/" ++ CRLF))))
         dsmr_data_zero (repeat 65 200) =
      (p', dsmr_data_zero, repeat 0 200) /\
    line_index p' = 79 /\
    take 79 (line_buffer p') = repeat 65 79.
Proof.
  destruct (long_line_truncated
              (fst (fst (feed dsmr_parser_zero dsmr_data_zero
                           (bytes "/" ++ CRLF))))
              dsmr_data_zero (repeat 65 200)) as (p' & H1 & H2 & H3).
  - vm_compute. discriminate.
  - reflexivity.
  - reflexivity.
  - apply List.Forall_forall. intros c Hc. apply repeat_spec in Hc. subst c.
    split; discriminate.
  - exists p'. split; [exact H1|]. split; [exact H2|exact H3].
Defined.

(** ** Bytes between frames *)

(** X7.  While no frame is in progress, bytes other than [/], an upper-case
    letter or a digit are dropped: a whole run of them leaves the parser and
    the record exactly as they were, and nothing is signalled. *)
Theorem idle_noise_discarded (p : dsmr_parser_t) (d : dsmr_data_t)
    (bs : list Z) :
  frame_active p = 0 ->
  Forall (fun c => is_frame_start c = false) bs ->
  feed p d bs = (p, d, repeat 0 (length bs)).
Proof.
  intros Hidle Hbs. induction Hbs as [|c bs Hc _ IH]; [reflexivity|].
  eapply feed_step; [|exact IH].
  unfold dsmr_parse_byte. now rewrite Hidle, Hc.
Qed.

Lemma idle_noise_discarded_witness :
  feed dsmr_parser_zero dsmr_data_zero (bytes "!x(" ++ CRLF) =
    (dsmr_parser_zero, dsmr_data_zero, repeat 0 5).
Proof.
  apply (idle_noise_discarded dsmr_parser_zero dsmr_data_zero
           (bytes "!x(" ++ CRLF)).
  - reflexivity.
  - repeat constructor.
Defined.

(** ** What the running CRC covers *)



(** X9.  The CRC16 of a byte sequence is a 16-bit value, and changing one
    byte of the sequence, whatever comes before and after it, changes the
    CRC16; in particular every single-bit error is detected. *)
Theorem crc16_detects_byte_change (pre post : list Z) (x y : Z) :
  in_u8 x -> in_u8 y -> Forall in_u8 post -> x <> y ->
  in_u16 (crc16 (pre ++ x :: post)) /\
  crc16 (pre ++ x :: post) <> crc16 (pre ++ y :: post) /\
  (forall k, 0 <= k < 8 ->
   crc16 (pre ++ Z.lxor x (2 ^ k) :: post) <> crc16 (pre ++ x :: post)).
Proof.
  intros Hx Hy Hpost Hne. split; [apply crc16_range|].
  split; [now apply crc16_byte_change|].
  intros k Hk. destruct (flipped_bit x k Hx Hk) as [Hf Hfne].
  now apply crc16_byte_change.
Qed.

Lemma crc16_detects_byte_change_witness :
  crc16 (bytes "1-0:1.7.0(00.4" ++ chr "2" :: bytes "4*kW)") <>
  crc16 (bytes "1-0:1.7.0(00.4" ++ chr "3" :: bytes "4*kW)").
Proof.
  assert (H2 : in_u8 (chr "2")) by (vm_compute; split; [discriminate|reflexivity]).
  assert (H3 : in_u8 (chr "3")) by (vm_compute; split; [discriminate|reflexivity]).
  assert (Hp : Forall in_u8 (bytes "4*kW)")) by (apply bytes_in_u8; reflexivity).
  assert (Hne : chr "2" <> chr "3") by discriminate.
  exact (proj1 (proj2 (crc16_detects_byte_change (bytes "1-0:1.7.0(00.4")
                         (bytes "4*kW)") (chr "2") (chr "3") H2 H3 Hp Hne))).
Defined.

(** ** The OBIS matcher *)

Lemma cstr_nil_iff (s : list Z) : cstr s = [] <-> char_at s 0 = NUL.
Proof.
  destruct s as [|c t]; [now split|].
  change (char_at (c :: t) 0) with c. simpl.
  destruct (Z.eqb_spec c NUL); split; intros H; try easy.
Qed.

Lemma strcmp_P_safe_true (str pstr : list Z) :
  strcmp_P_safe str pstr = true <-> cstr str = cstr pstr.
Proof.
  revert pstr. induction str as [|c1 str IH]; intros pstr.
  - simpl. rewrite Z.eqb_eq, <- cstr_nil_iff. split; intros H; now rewrite H.
  - cbn [strcmp_P_safe cstr].
    destruct (Z.eqb_spec c1 NUL) as [E1|E1].
    { rewrite Z.eqb_eq, <- cstr_nil_iff. split; intros H; now rewrite H. }
    destruct (Z.eqb_spec c1 (char_at pstr 0)) as [E2|E2].
    + destruct pstr as [|c2 pstr]; [now elim E1|].
      change (char_at (c2 :: pstr) 0) with c2 in E2. subst c2.
      cbn [tl cstr]. destruct (Z.eqb_spec c1 NUL); [contradiction|].
      rewrite IH. split; intros H; [now rewrite H|now inversion H].
    + split; [discriminate|]. intros H. exfalso. apply E2.
      destruct pstr as [|c2 pstr]; [discriminate H|].
      change (char_at (c2 :: pstr) 0) with c2. simpl in H.
      destruct (c2 =? NUL); [discriminate H|now inversion H].
Qed.

(** X10.  [strcmp_P_safe] answers true exactly when its two arguments are the
    same C string: the same characters up to the first NUL of each, whatever
    follows the terminators.  A proper prefix or extension never matches. *)
Theorem strcmp_P_safe_exact (str pstr : list Z) :
  (strcmp_P_safe str pstr = true <-> cstr str = cstr pstr) /\
  (forall extra, extra <> [] -> Forall (fun c => c <> NUL) (pstr ++ extra) ->
   strcmp_P_safe (pstr ++ extra) pstr = false /\
   strcmp_P_safe pstr (pstr ++ extra) = false).
Proof.
  split; [apply strcmp_P_safe_true|].
  intros extra Hne Hnz.
  assert (Hc : forall l, Forall (fun c => c <> NUL) l -> cstr l = l).
  { intros l Hl. rewrite <- (app_nil_r l) at 1.
    induction Hl as [|c l Hcn _ IHl]; simpl; [reflexivity|].
    destruct (Z.eqb_spec c NUL); [contradiction|]. now rewrite IHl. }
  pose proof Hnz as Hnz'. apply Forall_app in Hnz' as [Hp _].
  assert (Hdiff : pstr ++ extra <> pstr).
  { intros E. apply Hne. rewrite <- (app_nil_r pstr) in E at 2.
    now apply app_inv_head in E. }
  split; apply not_true_is_false; rewrite strcmp_P_safe_true;
    rewrite (Hc _ Hnz), (Hc _ Hp); congruence.
Qed.

Lemma strcmp_P_safe_exact_witness :
  strcmp_P_safe (bytes "1-0:1.7.00") (bytes "1-0:1.7.0") = false /\
  strcmp_P_safe (bytes "1-0:1.7.0") (bytes "1-0:1.7.00") = false.
Proof.
  apply (proj2 (strcmp_P_safe_exact (bytes "1-0:1.7.00") (bytes "1-0:1.7.0"))
           (bytes "0")).
  - discriminate.
  - apply (Forall_of_forallb _ (fun c => negb (c =? NUL))); [|reflexivity].
    intros x. unfold NUL. lia.
Defined.

Lemma strcmp_P_safe_cstr (str pstr : list Z) :
  strcmp_P_safe (cstr str) pstr = strcmp_P_safe str pstr.
Proof.
  destruct (strcmp_P_safe str pstr) eqn:E.
  - apply strcmp_P_safe_true. rewrite cstr_idem.
    now apply strcmp_P_safe_true.
  - apply not_true_is_false. intros H. apply strcmp_P_safe_true in H.
    rewrite cstr_idem in H. apply strcmp_P_safe_true in H. congruence.
Qed.

Lemma match_obis_table_cstr (table : list (list Z * obis_id_t))
    (obis : list Z) :
  match_obis_table table (cstr obis) = match_obis_table table obis.
Proof.
  induction table as [|[s id] table IH]; [reflexivity|].
  simpl. now rewrite strcmp_P_safe_cstr, IH.
Qed.

Lemma match_obis_table_found (table : list (list Z * obis_id_t))
    (obis : list Z) :
  match_obis_table table obis <> OBIS_ID_NONE ->
  exists s, In (s, match_obis_table table obis) table /\
            strcmp_P_safe obis s = true.
Proof.
  induction table as [|[s id] table IH]; simpl; [congruence|].
  destruct (strcmp_P_safe obis s) eqn:E.
  - intros _. exists s. split; [now left|exact E].
  - intros H. destruct (IH H) as (s' & Hin & Hs').
    exists s'. split; [now right|exact Hs'].
Qed.

Lemma obis_table_strings (s : list Z) (id : obis_id_t) :
  In (s, id) OBIS_TABLE ->
  match_obis_code s = id /\ id <> OBIS_ID_NONE /\
  Forall (fun c => c <> NUL /\ c <> LPAREN) s /\
  is_digit (char_at s 0) = true.
Proof.
  unfold OBIS_TABLE. intros H.
  repeat (destruct H as [H|H];
          [inversion H; subst; split; [vm_compute; reflexivity|];
           split; [discriminate|];
           split; [|reflexivity];
           apply (Forall_of_forallb _
                    (fun c => negb (c =? NUL) && negb (c =? LPAREN)));
           [unfold NUL, LPAREN; lia|reflexivity]|]).
  destruct H.
Qed.

(** X11.  [match_obis_code] is an exact table lookup: every code of the table
    is mapped to the identifier listed with it, and a string that is mapped to
    an identifier other than OBIS_ID_NONE is, up to its terminator, one of the
    codes of the table, listed with that identifier.  So a code that is not in
    the table, such as a table code with a character added or removed, gives
    OBIS_ID_NONE. *)
Theorem match_obis_code_exact (obis : list Z) :
  (forall s id, In (s, id) OBIS_TABLE -> cstr obis = s ->
   match_obis_code obis = id) /\
  (match_obis_code obis <> OBIS_ID_NONE ->
   In (cstr obis, match_obis_code obis) OBIS_TABLE) /\
  ((forall id, ~ In (cstr obis, id) OBIS_TABLE) ->
   match_obis_code obis = OBIS_ID_NONE).
Proof.
  assert (Hfound : match_obis_code obis <> OBIS_ID_NONE ->
                   In (cstr obis, match_obis_code obis) OBIS_TABLE).
  { intros Hne. unfold match_obis_code in *.
    destruct (match_obis_table_found OBIS_TABLE obis Hne) as (s & Hin & Hs).
    apply strcmp_P_safe_true in Hs.
    destruct (obis_table_strings s _ Hin) as (_ & _ & Hclean & _).
    assert (Hc : cstr s = s).
    { clear -Hclean. induction Hclean as [|c l [Hc _] _ IHl]; simpl;
        [reflexivity|].
      destruct (Z.eqb_spec c NUL); [contradiction|]. now rewrite IHl. }
    now rewrite Hs, Hc. }
  split; [|split; [exact Hfound|]].
  - intros s id Hin Hs. unfold match_obis_code.
    rewrite <- match_obis_table_cstr, Hs.
    now destruct (obis_table_strings s id Hin).
  - intros Hnone.
    destruct (match_obis_code obis) eqn:E; try reflexivity;
      exfalso; eapply Hnone; apply Hfound; discriminate.
Qed.

Lemma match_obis_code_exact_witness :
  match_obis_code (bytes "1-0:1.7.0" ++ NUL :: bytes "00.424*kW)") =
  OBIS_ID_CURRENT_POWER.
Proof.
  apply (proj1 (match_obis_code_exact
                  (bytes "1-0:1.7.0" ++ NUL :: bytes "00.424*kW)"))
           (bytes "1-0:1.7.0") OBIS_ID_CURRENT_POWER).
  - unfold OBIS_TABLE. do 7 right. now left.
  - reflexivity.
Defined.

(** ** Value extraction *)

Lemma strchr_app_found (v : list Z) (t : Z) (rest : list Z) :
  Forall (fun c => c <> t /\ c <> NUL) v ->
  strchr (v ++ t :: rest) t = Some (length v).
Proof.
  induction 1 as [|c v [Hc Hn] _ IH]; simpl.
  - now rewrite Z.eqb_refl.
  - destruct (Z.eqb_spec c t); [contradiction|].
    destruct (Z.eqb_spec c NUL); [contradiction|]. now rewrite IH.
Qed.

Lemma strchr_app_later (v : list Z) (t ch : Z) (rest : list Z) :
  Forall (fun c => c <> ch /\ c <> NUL) v -> t <> ch ->
  strchr (v ++ t :: rest) ch = None \/
  exists j, strchr (v ++ t :: rest) ch = Some j /\ (length v < j)%nat.
Proof.
  intros Hv Ht. induction Hv as [|c v [Hc Hn] _ IH]; simpl.
  - destruct (Z.eqb_spec t ch); [contradiction|].
    destruct (t =? NUL); [now left|].
    destruct (strchr rest ch) as [j|]; [right|now left].
    exists (S j). split; [reflexivity|lia].
  - destruct (Z.eqb_spec c ch); [contradiction|].
    destruct (Z.eqb_spec c NUL); [contradiction|].
    destruct IH as [-> | (j & -> & Hj)]; [now left|right].
    exists (S j). split; [reflexivity|simpl; lia].
Qed.

Lemma strchr_absent (v fin : list Z) (ch : Z) :
  Forall (fun c => c <> ch /\ c <> NUL) v -> ch <> NUL ->
  char_at fin 0 = NUL ->
  strchr (v ++ fin) ch = None.
Proof.
  intros Hv Hch Hfin. induction Hv as [|c v [Hc Hn] _ IH]; simpl.
  - destruct fin as [|f fin]; [reflexivity|].
    change (char_at (f :: fin) 0) with f in Hfin. subst f.
    cbn [app strchr].
    destruct (Z.eqb_spec NUL ch); [congruence|now rewrite Z.eqb_refl].
  - destruct (Z.eqb_spec c ch); [contradiction|].
    destruct (Z.eqb_spec c NUL); [contradiction|]. now rewrite IH.
Qed.

Lemma skipn_past (code : list Z) (c : Z) (tail : list Z) :
  skipn (S (length code)) (code ++ c :: tail) = tail.
Proof. induction code as [|a code IH]; [reflexivity|exact IH]. Qed.

Lemma take_cut (v rest : list Z) :
  firstn (if (80 <=? length v)%nat then 79%nat else length v) (v ++ rest) =
  take 79 v.
Proof.
  destruct (Nat.leb_spec 80 (length v)).
  - now rewrite take_app_le by lia.
  - rewrite take_app_length. symmetry. apply take_ge. lia.
Qed.

Lemma extract_value_found (code v : list Z) (t : Z) (rest : list Z) :
  Forall (fun c => c <> LPAREN /\ c <> NUL) code ->
  Forall (fun c => c <> RPAREN /\ c <> STAR /\ c <> NUL) v ->
  t = RPAREN \/ t = STAR ->
  extract_value (code ++ LPAREN :: v ++ t :: rest) = Some (take 79 v).
Proof.
  intros Hcode Hv Ht. unfold extract_value.
  rewrite (strchr_app_found code LPAREN _ Hcode), skipn_past.
  assert (Hr : Forall (fun c => c <> RPAREN /\ c <> NUL) v).
  { revert Hv. apply List.Forall_impl. tauto. }
  assert (Hs : Forall (fun c => c <> STAR /\ c <> NUL) v).
  { revert Hv. apply List.Forall_impl. tauto. }
  destruct Ht as [-> | ->].
  - rewrite (strchr_app_found v RPAREN rest Hr).
    destruct (strchr_app_later v RPAREN STAR rest Hs ltac:(discriminate))
      as [-> | (j & -> & Hj)].
    + now rewrite take_cut.
    + destruct (Nat.ltb_spec j (length v)); [lia|]. now rewrite take_cut.
  - rewrite (strchr_app_found v STAR rest Hs).
    destruct (strchr_app_later v STAR RPAREN rest Hr ltac:(discriminate))
      as [-> | (j & -> & Hj)].
    + now rewrite take_cut.
    + destruct (Nat.ltb_spec (length v) j); [|lia]. now rewrite take_cut.
Qed.

(** X12.  For a line [code(value)...] or [code(value*unit)...], where the code
    has no [(] and the value has no [)] and no [*], [extract_value] returns
    the value: in full when it has at most 79 characters, cut to its first 79
    characters otherwise; the unit and whatever follows are left out. *)
Theorem extract_value_round_trip (code v : list Z) (t : Z) (rest : list Z) :
  Forall (fun c => c <> LPAREN /\ c <> NUL) code ->
  Forall (fun c => c <> RPAREN /\ c <> STAR /\ c <> NUL) v ->
  t = RPAREN \/ t = STAR ->
  extract_value (code ++ LPAREN :: v ++ t :: rest) = Some (take 79 v) /\
  ((length v <= 79)%nat ->
   extract_value (code ++ LPAREN :: v ++ t :: rest) = Some v).
Proof.
  intros Hcode Hv Ht.
  pose proof (extract_value_found code v t rest Hcode Hv Ht) as H.
  split; [exact H|]. intros Hlen. rewrite H. f_equal. now apply take_ge.
Qed.

Lemma extract_value_round_trip_witness :
  extract_value (bytes "1-0:1.7.0" ++ LPAREN :: bytes "00.424" ++
                 STAR :: bytes "kW)")
  = Some (bytes "00.424").
Proof.
  apply (extract_value_round_trip (bytes "1-0:1.7.0") (bytes "00.424") STAR
           (bytes "kW)")).
  - apply (Forall_of_forallb _
             (fun c => negb (c =? LPAREN) && negb (c =? NUL)));
      [unfold LPAREN, NUL; lia|reflexivity].
  - apply (Forall_of_forallb _
             (fun c => negb (c =? RPAREN) && negb (c =? STAR)
                       && negb (c =? NUL)));
      [unfold RPAREN, STAR, NUL; lia|reflexivity].
  - now right.
  - simpl. lia.
Defined.

(** X13.  [extract_value] returns no value for a line without [(], and for a
    line that has neither [)] nor [*] after its first [(]; and a value it
    returns never has more than 79 characters, so it fits the 80-character
    scratch buffer with its terminator. *)
Theorem extract_value_no_value (line : list Z) :
  (forall s fin, line = s ++ fin -> char_at fin 0 = NUL ->
   Forall (fun c => c <> LPAREN /\ c <> NUL) s ->
   extract_value line = None) /\
  (forall code tail fin, line = code ++ LPAREN :: tail ++ fin ->
   char_at fin 0 = NUL ->
   Forall (fun c => c <> LPAREN /\ c <> NUL) code ->
   Forall (fun c => c <> RPAREN /\ c <> STAR /\ c <> NUL) tail ->
   extract_value line = None) /\
  (forall v, extract_value line = Some v -> (length v <= 79)%nat).
Proof.
  split; [|split].
  - intros s fin -> Hfin Hs. unfold extract_value.
    now rewrite (strchr_absent s fin LPAREN Hs ltac:(discriminate) Hfin).
  - intros code tail fin -> Hfin Hcode Htail. unfold extract_value.
    rewrite (strchr_app_found code LPAREN _ Hcode), skipn_past.
    assert (Hr : Forall (fun c => c <> RPAREN /\ c <> NUL) tail).
    { revert Htail. apply List.Forall_impl. tauto. }
    assert (Hs : Forall (fun c => c <> STAR /\ c <> NUL) tail).
    { revert Htail. apply List.Forall_impl. tauto. }
    rewrite (strchr_absent tail fin RPAREN Hr ltac:(discriminate) Hfin).
    now rewrite (strchr_absent tail fin STAR Hs ltac:(discriminate) Hfin).
  - intros v. unfold extract_value.
    destruct (strchr line LPAREN) as [i|]; [|discriminate].
    set (start := skipn (S i) line).
    assert (Hcut : forall len,
      (length (firstn (if (80 <=? len)%nat then 79%nat else len) start)
       <= 79)%nat).
    { intros len. rewrite length_take.
      destruct (Nat.leb_spec 80 len); lia. }
    destruct (strchr start STAR) as [u|]; destruct (strchr start RPAREN)
      as [e|]; try discriminate;
      try (destruct (u <? e)%nat);
      intros H; inversion H; subst; apply Hcut.
Qed.

Lemma extract_value_no_value_witness :
  extract_value (bytes "!383D") = None /\
  extract_value (bytes "1-0:1.7.0(00.424") = None.
Proof.
  split.
  - apply (proj1 (extract_value_no_value (bytes "!383D")) (bytes "!383D") []).
    + reflexivity.
    + reflexivity.
    + apply (Forall_of_forallb _
               (fun c => negb (c =? LPAREN) && negb (c =? NUL)));
        [unfold LPAREN, NUL; lia|reflexivity].
  - apply (proj1 (proj2 (extract_value_no_value (bytes "1-0:1.7.0(00.424")))
             (bytes "1-0:1.7.0") (bytes "00.424") []).
    + reflexivity.
    + reflexivity.
    + apply (Forall_of_forallb _
               (fun c => negb (c =? LPAREN) && negb (c =? NUL)));
        [unfold LPAREN, NUL; lia|reflexivity].
    + apply (Forall_of_forallb _
               (fun c => negb (c =? RPAREN) && negb (c =? STAR)
                         && negb (c =? NUL)));
        [unfold RPAREN, STAR, NUL; lia|reflexivity].
Defined.

(** ** Data lines *)

Lemma insert_at_length (code : list Z) (c x : Z) (tail : list Z) :
  <[length code := x]> (code ++ c :: tail) = code ++ x :: tail.
Proof. induction code as [|a code IH]; simpl; [reflexivity|now rewrite IH]. Qed.

Lemma cstr_clean (s : list Z) : Forall (fun c => c <> NUL) s -> cstr s = s.
Proof.
  induction 1 as [|c l Hc _ IH]; simpl; [reflexivity|].
  destruct (Z.eqb_spec c NUL); [contradiction|]. now rewrite IH.
Qed.

Lemma match_obis_code_in_table (obis : list Z) :
  match_obis_code obis <> OBIS_ID_NONE ->
  In (cstr obis, match_obis_code obis) OBIS_TABLE.
Proof.
  intros Hne. unfold match_obis_code in *.
  destruct (match_obis_table_found OBIS_TABLE obis Hne) as (s & Hin & Hs).
  apply strcmp_P_safe_true in Hs.
  destruct (obis_table_strings s _ Hin) as (_ & _ & Hclean & _).
  rewrite Hs, cstr_clean; [exact Hin|].
  revert Hclean. apply List.Forall_impl. tauto.
Qed.

Lemma data_line_head (code : list Z) (tail : list Z) :
  is_digit (char_at code 0) = true ->
  let c0 := char_at (code ++ tail) 0 in
  (c0 =? NUL) || (c0 =? CR) = false /\
  ((c0 =? SLASH) || is_upper c0) = false /\
  (c0 =? BANG) = false.
Proof.
  destruct code as [|a code]; [discriminate|].
  change (char_at (a :: code) 0) with a.
  change (char_at ((a :: code) ++ tail) 0) with a.
  unfold is_digit, is_upper, NUL, CR, SLASH, BANG. intros H. cbv zeta. lia.
Qed.

(** X14.  A completed line [code(value)] or [code(value*unit)] whose code is
    in the OBIS table is stored: the record becomes what [store_value] makes
    of it for the identifier listed with the code and the value (cut to 79
    characters); the parser state is untouched.  A line that starts with a
    digit and whose code before the first [(] is not in the table leaves
    parser and record as they were. *)
Theorem data_line_stored (parser : dsmr_parser_t) (data : dsmr_data_t) :
  (forall code id v t rest,
     In (code, id) OBIS_TABLE ->
     Forall (fun c => c <> RPAREN /\ c <> STAR /\ c <> NUL) v ->
     t = RPAREN \/ t = STAR ->
     process_line parser data (code ++ LPAREN :: v ++ t :: rest) =
       (parser, store_value data id (take 79 v))) /\
  (forall code tail,
     is_digit (char_at code 0) = true ->
     Forall (fun c => c <> LPAREN /\ c <> NUL) code ->
     (forall id, ~ In (code, id) OBIS_TABLE) ->
     process_line parser data (code ++ LPAREN :: tail) = (parser, data)).
Proof.
  split.
  - intros code id v t rest Hin Hv Ht.
    destruct (obis_table_strings code id Hin) as (Hm & Hid & Hclean & Hdig).
    assert (Hclean' : Forall (fun c => c <> LPAREN /\ c <> NUL) code).
    { revert Hclean. apply List.Forall_impl. tauto. }
    destruct (data_line_head code (LPAREN :: v ++ t :: rest) Hdig)
      as (H1 & H2 & H3).
    unfold process_line. cbv zeta in H1, H2, H3. rewrite H1, H2, H3.
    cbn [andb]. rewrite (strchr_app_found code LPAREN _ Hclean').
    rewrite insert_at_length.
    assert (Hmatch : match_obis_code (code ++ NUL :: v ++ t :: rest) = id).
    { unfold match_obis_code. rewrite <- match_obis_table_cstr.
      rewrite cstr_app_nul; [exact Hm|].
      revert Hclean. apply List.Forall_impl. tauto. }
    rewrite Hmatch, (extract_value_found code v t rest Hclean' Hv Ht).
    destruct id; reflexivity.
  - intros code tail Hdig Hclean Hnone.
    destruct (data_line_head code (LPAREN :: tail) Hdig) as (H1 & H2 & H3).
    unfold process_line. cbv zeta in H1, H2, H3. rewrite H1, H2, H3.
    cbn [andb]. rewrite (strchr_app_found code LPAREN _ Hclean).
    rewrite insert_at_length.
    assert (Hmatch : match_obis_code (code ++ NUL :: tail) = OBIS_ID_NONE).
    { destruct (match_obis_code (code ++ NUL :: tail)) eqn:E;
        try reflexivity; exfalso;
        (eapply Hnone;
         pose proof (match_obis_code_in_table (code ++ NUL :: tail)) as Hin;
         rewrite E in Hin;
         rewrite cstr_app_nul in Hin
           by (revert Hclean; apply List.Forall_impl; tauto);
         apply Hin; discriminate). }
    now rewrite Hmatch.
Qed.

Lemma data_line_stored_witness :
  process_line dsmr_parser_zero dsmr_data_zero
    (bytes "1-0:32.7.0" ++ LPAREN :: bytes "229.5" ++ STAR :: bytes "V)") =
    (dsmr_parser_zero,
     store_value dsmr_data_zero OBIS_ID_VOLTAGE_L1 (take 79 (bytes "229.5"))).
Proof.
  apply (proj1 (data_line_stored dsmr_parser_zero dsmr_data_zero)).
  - unfold OBIS_TABLE. do 15 right. now left.
  - apply (Forall_of_forallb _
             (fun c => negb (c =? RPAREN) && negb (c =? STAR)
                       && negb (c =? NUL)));
      [unfold RPAREN, STAR, NUL; lia|reflexivity].
  - now right.
Defined.

(** X15.  Only a line that starts with [!] ends a frame: for every other
    line, whatever it holds, [process_line] returns the parser state as it
    received it and leaves the frame-complete flag of the record as it
    was. *)
Theorem only_terminator_completes (parser : dsmr_parser_t)
    (data : dsmr_data_t) (line : list Z) :
  char_at line 0 <> BANG ->
  fst (process_line parser data line) = parser /\
  frame_complete (snd (process_line parser data line)) = frame_complete data.
Proof. apply process_line_other. Qed.

Lemma only_terminator_completes_witness :
  frame_complete
    (snd (process_line dsmr_parser_zero dsmr_data_zero
            (bytes "0-0:96.1.1(4B384547303034303436333935353037)")))
  = false.
Proof.
  apply (only_terminator_completes dsmr_parser_zero dsmr_data_zero
           (bytes "0-0:96.1.1(4B384547303034303436333935353037)")).
  discriminate.
Defined.

(** X16.  [store_value] marks a record as three-phase exactly for the
    second- and third-phase power, voltage and current codes, marks it as
    having power-factor data exactly for the four power-factor codes, and
    never touches the frame-complete flag or the equipment identifier. *)
Theorem store_value_flags (data : dsmr_data_t) (obis_type : obis_id_t)
    (value_str : list Z) :
  let data' := store_value data obis_type value_str in
  is_3phase data' =
    (is_3phase data ||
     match obis_type with
     | OBIS_ID_POWER_L2 | OBIS_ID_POWER_L3
     | OBIS_ID_VOLTAGE_L2 | OBIS_ID_VOLTAGE_L3
     | OBIS_ID_CURRENT_L2 | OBIS_ID_CURRENT_L3 => true
     | _ => false
     end) /\
  has_pf_data data' =
    (has_pf_data data ||
     match obis_type with
     | OBIS_ID_PF_TOTAL | OBIS_ID_PF_L1 | OBIS_ID_PF_L2 | OBIS_ID_PF_L3 => true
     | _ => false
     end) /\
  frame_complete data' = frame_complete data /\
  equipment_id data' = equipment_id data.
Proof.
  destruct obis_type; cbv zeta; simpl;
    rewrite ?orb_false_r, ?orb_true_r; repeat split.
Qed.

(** ** Decimal numerals at every scale *)

Lemma scan_frac_full (l : list Z) (st : scan_t) :
  Forall (fun c => is_digit c = true) l ->
  sc_decimal_seen st = 1 -> sc_frac_digits st = 6 ->
  scan_string to_s64 l st = st.
Proof.
  intros Hl Hseen Hfull. induction Hl as [|c l Hc _ IH]; [reflexivity|].
  destruct (is_digit_plain c Hc) as (Hnul & Hdot & _).
  simpl. destruct (Z.eqb_spec c NUL); [contradiction|].
  assert (Hstep : scan_char to_s64 st c = st).
  { unfold scan_char. rewrite Hc, Hseen, Hfull.
    destruct (Z.eqb_spec c DOT); [contradiction|reflexivity]. }
  now rewrite Hstep.
Qed.

Lemma Forall_take_digits (n : nat) (fs : list Z) :
  Forall (fun c => is_digit c = true) fs ->
  Forall (fun c => is_digit c = true) (take n fs) /\
  Forall (fun c => is_digit c = true) (drop n fs).
Proof.
  intros H. rewrite <- (take_drop n fs) in H.
  now apply Forall_app in H.
Qed.

Lemma scan_frac_any (fs : list Z) (D : Z) :
  Forall (fun c => is_digit c = true) fs ->
  scan_string to_s64 fs (mkScan D 0 1 0) =
    mkScan D (digits_value (take 6 fs)) 1 (Z.of_nat (length (take 6 fs))) /\
  0 <= digits_value (take 6 fs) < 10 ^ Z.of_nat (length (take 6 fs)).
Proof.
  intros Hfs. destruct (Forall_take_digits 6%nat fs Hfs) as [Ht Hd].
  assert (Hlen : (length (take 6 fs) <= 6)%nat) by (rewrite length_take; lia).
  destruct (scan_frac_part (take 6 fs) (mkScan D 0 1 0) Ht) as [Hscan Hrange];
    cbn [sc_result sc_fraction sc_decimal_seen sc_frac_digits]; try lia.
  cbn [sc_result sc_fraction sc_decimal_seen sc_frac_digits] in Hscan, Hrange.
  rewrite Z.add_0_l in Hscan, Hrange.
  split; [|exact Hrange].
  rewrite <- (take_drop 6%nat fs) at 1.
  rewrite scan_string_app by now apply digits_not_nul.
  rewrite Hscan. fold (digits_value (take 6 fs)).
  destruct (Nat.eq_dec (length (take 6 fs)) 6%nat) as [E|E].
  - apply scan_frac_full; [exact Hd|reflexivity|].
    cbn [sc_frac_digits]. now rewrite E.
  - rewrite length_take in E.
    assert (Hshort : drop 6 fs = []) by (apply drop_ge; lia).
    now rewrite Hshort.
Qed.

Lemma micro_value_range (ds fs : list Z) :
  Forall (fun c => is_digit c = true) ds ->
  Forall (fun c => is_digit c = true) fs ->
  digits_value ds * 1000000 <= micro_value ds fs
    <= digits_value ds * 1000000 + 999999 /\
  0 <= digits_value ds.
Proof.
  intros Hds Hfs. destruct (scan_frac_any fs 0 Hfs) as [_ Hrange].
  assert (HD : 0 <= digits_value ds)
    by (apply (digits_fold_mono ds 0 Hds); lia).
  unfold micro_value.
  set (k := Z.of_nat (length (take 6 fs))) in *.
  assert (Hk : 0 <= k <= 6) by (subst k; rewrite length_take; lia).
  assert (Hsplit : 10 ^ k * 10 ^ (6 - k) = 1000000).
  { rewrite <- Z.pow_add_r by lia. replace (k + (6 - k)) with 6 by lia.
    reflexivity. }
  assert (0 < 10 ^ (6 - k)) by (apply Z.pow_pos_nonneg; lia).
  split; [|exact HD]. nia.
Qed.

Lemma rescale_range (scale x : Z) :
  0 <= x < 2 ^ 63 -> 0 <= rescale scale x < 2 ^ 63.
Proof.
  intros Hx. unfold rescale.
  assert (Hq : forall k, 0 < k -> 0 <= Z.quot x k <= x).
  { intros k Hk. split; [apply Z.quot_pos; lia|].
    apply Z.quot_le_upper_bound; nia. }
  destruct (scale =? 2); [specialize (Hq 10000); lia|].
  destruct (scale =? 3); [specialize (Hq 1000); lia|lia].
Qed.

Lemma ascii_to_fixed_tail (sign : Z) (str : list Z) (scale D F k : Z) :
  scan_string to_s64 str scan_init = mkScan D F 1 k \/
  (scan_string to_s64 str scan_init = mkScan D F 0 k /\ F = 0 /\ k = 0) ->
  0 <= k <= 6 -> 0 <= F < 10 ^ k -> 0 <= D ->
  D * 1000000 + 999999 < 2 ^ 63 ->
  sign = 1 \/ sign = -1 ->
  to_s64
    ((let result :=
        to_s64 (sc_result (scan_string to_s64 str scan_init) * 1000000 +
                pad_fraction to_s64
                  (Z.to_nat (6 - sc_frac_digits
                                   (scan_string to_s64 str scan_init)))
                  (sc_fraction (scan_string to_s64 str scan_init))) in
      if scale =? 2 then Z.quot result 10000
      else if scale =? 3 then Z.quot result 1000 else result) * sign) =
  sign * rescale scale (D * 1000000 + F * 10 ^ (6 - k)).
Proof.
  intros Hscan Hk HF HD Hrange Hsign.
  assert (Hfields : sc_result (scan_string to_s64 str scan_init) = D /\
                    sc_fraction (scan_string to_s64 str scan_init) = F /\
                    sc_frac_digits (scan_string to_s64 str scan_init) = k).
  { destruct Hscan as [-> | [-> _]]; now repeat split. }
  destruct Hfields as (-> & -> & ->).
  assert (Hsplit : 10 ^ k * 10 ^ (6 - k) = 1000000).
  { rewrite <- Z.pow_add_r by lia. replace (k + (6 - k)) with 6 by lia.
    reflexivity. }
  assert (0 < 10 ^ (6 - k)) by (apply Z.pow_pos_nonneg; lia).
  assert (Hpad : 0 <= F * 10 ^ (6 - k) <= 999999) by nia.
  rewrite pad_fraction_exact; rewrite ?Z2Nat.id; try lia.
  cbv zeta.
  rewrite (to_s64_id (D * 1000000 + F * 10 ^ (6 - k)))
    by (unfold in_s64; lia).
  fold (rescale scale (D * 1000000 + F * 10 ^ (6 - k))).
  pose proof (rescale_range scale (D * 1000000 + F * 10 ^ (6 - k))
                ltac:(lia)) as Hr.
  rewrite to_s64_id by (unfold in_s64; destruct Hsign as [-> | ->]; lia).
  lia.
Qed.

Lemma ascii_to_fixed_decimal (ds fs : list Z) (scale : Z) :
  Forall (fun c => is_digit c = true) ds ->
  Forall (fun c => is_digit c = true) fs ->
  digits_value ds * 1000000 + 999999 < 2 ^ 63 ->
  ascii_to_fixed (ds ++ DOT :: fs) scale = rescale scale (micro_value ds fs) /\
  ascii_to_fixed (MINUS :: ds ++ DOT :: fs) scale =
    - rescale scale (micro_value ds fs) /\
  ascii_to_fixed ds scale = rescale scale (digits_value ds * 1000000) /\
  ascii_to_fixed (MINUS :: ds) scale =
    - rescale scale (digits_value ds * 1000000).
Proof.
  intros Hds Hfs Hrange.
  destruct (micro_value_range ds fs Hds Hfs) as [_ HD].
  destruct (scan_frac_any fs (digits_value ds) Hfs) as [Hfrac HF].
  assert (Hint : scan_string to_s64 ds scan_init =
                 mkScan (digits_value ds) 0 0 0).
  { rewrite (scan_int_part ds scan_init Hds); try reflexivity;
      simpl; fold (digits_value ds); lia. }
  assert (Hscan : scan_string to_s64 (ds ++ DOT :: fs) scan_init =
                  mkScan (digits_value ds) (digits_value (take 6 fs)) 1
                         (Z.of_nat (length (take 6 fs)))).
  { rewrite scan_string_app by now apply digits_not_nul.
    rewrite Hint. exact Hfrac. }
  assert (Hk : 0 <= Z.of_nat (length (take 6 fs)) <= 6)
    by (rewrite length_take; lia).
  assert (Hhead : forall tail,
            (char_at (ds ++ tail) 0 =? MINUS) = false \/ ds = []).
  { intros tail. destruct Hds as [|c t Hc _]; [now right|left].
    change (char_at ((c :: t) ++ tail) 0) with c.
    destruct (is_digit_plain c Hc) as (_ & _ & Hm). now apply Z.eqb_neq. }
  assert (Hhead1 : (char_at (ds ++ DOT :: fs) 0 =? MINUS) = false).
  { destruct (Hhead (DOT :: fs)) as [E | ->]; [exact E|reflexivity]. }
  split; [|split; [|split]].
  - unfold ascii_to_fixed. rewrite Hhead1.
    etransitivity;
      [exact (ascii_to_fixed_tail 1 (ds ++ DOT :: fs) scale _ _ _
                (or_introl Hscan) Hk HF HD Hrange (or_introl eq_refl))|].
    unfold micro_value. lia.
  - unfold ascii_to_fixed.
    change (char_at (MINUS :: ds ++ DOT :: fs) 0 =? MINUS) with true.
    cbn [tl].
    etransitivity;
      [exact (ascii_to_fixed_tail (-1) (ds ++ DOT :: fs) scale _ _ _
                (or_introl Hscan) Hk HF HD Hrange (or_intror eq_refl))|].
    unfold micro_value. lia.
  - unfold ascii_to_fixed.
    assert (Hhead0 : (char_at ds 0 =? MINUS) = false).
    { destruct (Hhead []) as [E | ->]; [|reflexivity].
      now rewrite app_nil_r in E. }
    rewrite Hhead0.
    assert (H0 : scan_string to_s64 ds scan_init =
                   mkScan (digits_value ds) 0 1 0 \/
                 scan_string to_s64 ds scan_init =
                   mkScan (digits_value ds) 0 0 0 /\ 0 = 0 /\ 0 = 0)
      by (right; now repeat split).
    etransitivity;
      [exact (ascii_to_fixed_tail 1 ds scale (digits_value ds) 0 0 H0
                ltac:(lia) ltac:(simpl; lia) HD Hrange (or_introl eq_refl))|].
    rewrite Z.mul_0_l, Z.add_0_r. lia.
  - unfold ascii_to_fixed. change (char_at (MINUS :: ds) 0 =? MINUS) with true.
    cbn [tl].
    assert (H0 : scan_string to_s64 ds scan_init =
                   mkScan (digits_value ds) 0 1 0 \/
                 scan_string to_s64 ds scan_init =
                   mkScan (digits_value ds) 0 0 0 /\ 0 = 0 /\ 0 = 0)
      by (right; now repeat split).
    etransitivity;
      [exact (ascii_to_fixed_tail (-1) ds scale (digits_value ds) 0 0 H0
                ltac:(lia) ltac:(simpl; lia) HD Hrange (or_intror eq_refl))|].
    rewrite Z.mul_0_l, Z.add_0_r. lia.
Qed.

Lemma digits_value_snoc (l : list Z) (c : Z) :
  digits_value (l ++ [c]) = digits_value l * 10 + (c - 48).
Proof. unfold digits_value. now rewrite fold_left_app. Qed.

Lemma micro_value_short (ds fs : list Z) :
  (length fs <= 6)%nat ->
  micro_value ds fs =
    digits_value ds * 1000000 +
    digits_value fs * 10 ^ (6 - Z.of_nat (length fs)).
Proof. intros H. unfold micro_value. now rewrite take_ge by lia. Qed.

Lemma micro_value_zero (ds fs : list Z) :
  micro_value ds (fs ++ [48]) = micro_value ds fs.
Proof.
  destruct (Nat.le_gt_cases 6 (length fs)) as [Hlong|Hshort].
  - unfold micro_value. now rewrite take_app_le by lia.
  - rewrite !micro_value_short by (rewrite ?length_app; simpl; lia).
    rewrite digits_value_snoc, length_app. simpl length.
    replace (6 - Z.of_nat (length fs))
      with (Z.succ (6 - Z.of_nat (length fs + 1))) by lia.
    rewrite Z.pow_succ_r by lia. lia.
Qed.

Lemma micro_value_extra (ds fs extra : list Z) :
  (6 <= length fs)%nat -> micro_value ds (fs ++ extra) = micro_value ds fs.
Proof. intros H. unfold micro_value. now rewrite take_app_le by lia. Qed.

Lemma scaled_exact_parts (ds fs : list Z) :
  Forall (fun c => is_digit c = true) ds ->
  Forall (fun c => is_digit c = true) fs ->
  digits_value ds * 1000000 + 999999 < 2 ^ 63 ->
  (Z.of_nat (length fs) <= 2 ->
   ascii_to_fixed (ds ++ DOT :: fs) 2 =
     digits_value ds * 100 +
     digits_value fs * 10 ^ (2 - Z.of_nat (length fs))) /\
  (Z.of_nat (length fs) <= 3 ->
   ascii_to_fixed (ds ++ DOT :: fs) 3 =
     digits_value ds * 1000 +
     digits_value fs * 10 ^ (3 - Z.of_nat (length fs))).
Proof.
  intros Hds Hfs Hrange.
  destruct (ascii_to_fixed_decimal ds fs 2 Hds Hfs Hrange) as (H2 & _).
  destruct (ascii_to_fixed_decimal ds fs 3 Hds Hfs Hrange) as (H3 & _).
  change (rescale 2 (micro_value ds fs))
    with (Z.quot (micro_value ds fs) 10000) in H2.
  change (rescale 3 (micro_value ds fs))
    with (Z.quot (micro_value ds fs) 1000) in H3.
  set (k := Z.of_nat (length fs)).
  assert (Hk0 : 0 <= k) by (subst k; lia).
  split; intros Hk.
  - rewrite H2, micro_value_short by lia. fold k.
    replace (6 - k) with ((2 - k) + 4) by lia.
    rewrite Z.pow_add_r by lia. change (10 ^ 4) with 10000.
    replace (digits_value ds * 1000000 +
             digits_value fs * (10 ^ (2 - k) * 10000))
      with ((digits_value ds * 100 + digits_value fs * 10 ^ (2 - k)) * 10000)
      by ring.
    apply Z.quot_mul. lia.
  - rewrite H3, micro_value_short by lia. fold k.
    replace (6 - k) with ((3 - k) + 3) by lia.
    rewrite Z.pow_add_r by lia. change (10 ^ 3) with 1000.
    replace (digits_value ds * 1000000 +
             digits_value fs * (10 ^ (3 - k) * 1000))
      with ((digits_value ds * 1000 + digits_value fs * 10 ^ (3 - k)) * 1000)
      by ring.
    apply Z.quot_mul. lia.
Qed.

(** X17.  For a numeral [D.F] of decimal digits whose value fits, the result
    at scale 2 (scale 3) is the value in millionths divided by 10000 (by
    1000), cut towards zero: the coarser unit is obtained from the
    full-precision value, not from fewer digits.  With at most two (three)
    digits after the point nothing is lost: the result is the value in
    hundredths (thousandths). *)
Theorem ascii_to_fixed_scaled (ds fs : list Z) :
  Forall (fun c => is_digit c = true) ds ->
  Forall (fun c => is_digit c = true) fs ->
  digits_value ds * 1000000 + 999999 < 2 ^ 63 ->
  let k := Z.of_nat (length fs) in
  ascii_to_fixed (ds ++ DOT :: fs) 2 = Z.quot (micro_value ds fs) 10000 /\
  ascii_to_fixed (ds ++ DOT :: fs) 3 = Z.quot (micro_value ds fs) 1000 /\
  (k <= 2 -> ascii_to_fixed (ds ++ DOT :: fs) 2 =
             digits_value ds * 100 + digits_value fs * 10 ^ (2 - k)) /\
  (k <= 3 -> ascii_to_fixed (ds ++ DOT :: fs) 3 =
             digits_value ds * 1000 + digits_value fs * 10 ^ (3 - k)).
Proof.
  intros Hds Hfs Hrange k.
  destruct (ascii_to_fixed_decimal ds fs 2 Hds Hfs Hrange) as (H2 & _).
  destruct (ascii_to_fixed_decimal ds fs 3 Hds Hfs Hrange) as (H3 & _).
  destruct (scaled_exact_parts ds fs Hds Hfs Hrange) as (E2 & E3).
  split; [exact H2|]. split; [exact H3|]. split; assumption.
Qed.

Lemma ascii_to_fixed_scaled_witness :
  ascii_to_fixed (bytes "229" ++ DOT :: bytes "5") 2 = 22950.
Proof.
  assert (H1 : Forall (fun c => is_digit c = true) (bytes "229"))
    by (repeat constructor).
  assert (H2 : Forall (fun c => is_digit c = true) (bytes "5"))
    by (repeat constructor).
  assert (H3 : digits_value (bytes "229") * 1000000 + 999999 < 2 ^ 63)
    by (vm_compute; reflexivity).
  destruct (ascii_to_fixed_scaled (bytes "229") (bytes "5") H1 H2 H3)
    as (_ & _ & Hexact & _).
  rewrite Hexact; [reflexivity|simpl; lia].
Defined.

(** X18.  A leading [-] negates: for a numeral of decimal digits, with or
    without a fractional part, whose value fits, the result for the numeral
    with [-] in front is the negative of the result for the numeral itself,
    at every scale. *)
Theorem ascii_to_fixed_negative (ds fs : list Z) (scale : Z) :
  Forall (fun c => is_digit c = true) ds ->
  Forall (fun c => is_digit c = true) fs ->
  digits_value ds * 1000000 + 999999 < 2 ^ 63 ->
  ascii_to_fixed (MINUS :: ds ++ DOT :: fs) scale =
    - ascii_to_fixed (ds ++ DOT :: fs) scale /\
  ascii_to_fixed (MINUS :: ds) scale = - ascii_to_fixed ds scale.
Proof.
  intros Hds Hfs Hrange.
  destruct (ascii_to_fixed_decimal ds fs scale Hds Hfs Hrange)
    as (H1 & H2 & H3 & H4).
  now rewrite H1, H2, H3, H4.
Qed.

Lemma ascii_to_fixed_negative_witness :
  ascii_to_fixed (MINUS :: bytes "0" ++ DOT :: bytes "955") 6 =
  - ascii_to_fixed (bytes "0" ++ DOT :: bytes "955") 6.
Proof.
  apply (ascii_to_fixed_negative (bytes "0") (bytes "955") 6).
  - repeat constructor.
  - repeat constructor.
  - vm_compute. reflexivity.
Defined.

(** X19.  Writing a numeral with more digits than needed does not change its
    result, at any scale: a zero added at the end of the fractional part,
    any digits after the sixth fractional digit (they are dropped, not
    rounded), and a point with nothing after it. *)
Theorem ascii_to_fixed_padding (ds fs : list Z) (scale : Z) :
  Forall (fun c => is_digit c = true) ds ->
  Forall (fun c => is_digit c = true) fs ->
  digits_value ds * 1000000 + 999999 < 2 ^ 63 ->
  ascii_to_fixed (ds ++ DOT :: fs ++ [48]) scale =
    ascii_to_fixed (ds ++ DOT :: fs) scale /\
  (forall extra, (6 <= length fs)%nat ->
   Forall (fun c => is_digit c = true) extra ->
   ascii_to_fixed (ds ++ DOT :: fs ++ extra) scale =
     ascii_to_fixed (ds ++ DOT :: fs) scale) /\
  ascii_to_fixed (ds ++ [DOT]) scale = ascii_to_fixed ds scale.
Proof.
  intros Hds Hfs Hrange.
  destruct (ascii_to_fixed_decimal ds fs scale Hds Hfs Hrange)
    as (H1 & _ & H3 & _).
  split; [|split].
  - assert (Hfs0 : Forall (fun c => is_digit c = true) (fs ++ [48])).
    { apply Forall_app. split; [exact Hfs|repeat constructor]. }
    destruct (ascii_to_fixed_decimal ds (fs ++ [48]) scale Hds Hfs0 Hrange)
      as (H0 & _).
    now rewrite H0, H1, micro_value_zero.
  - intros extra Hlong Hextra.
    assert (Hfs0 : Forall (fun c => is_digit c = true) (fs ++ extra)).
    { apply Forall_app. now split. }
    destruct (ascii_to_fixed_decimal ds (fs ++ extra) scale Hds Hfs0 Hrange)
      as (H0 & _).
    now rewrite H0, H1, micro_value_extra.
  - destruct (ascii_to_fixed_decimal ds [] scale Hds ltac:(constructor)
                Hrange) as (H0 & _).
    rewrite H0, H3. f_equal.
    rewrite micro_value_short by (simpl; lia).
    change (digits_value []) with 0. lia.
Qed.

Lemma ascii_to_fixed_padding_witness :
  ascii_to_fixed (bytes "229" ++ DOT :: bytes "5" ++ [48]) 2 =
  ascii_to_fixed (bytes "229" ++ DOT :: bytes "5") 2.
Proof.
  assert (H1 : Forall (fun c => is_digit c = true) (bytes "229"))
    by (repeat constructor).
  assert (H2 : Forall (fun c => is_digit c = true) (bytes "5"))
    by (repeat constructor).
  assert (H3 : digits_value (bytes "229") * 1000000 + 999999 < 2 ^ 63)
    by (vm_compute; reflexivity).
  exact (proj1 (ascii_to_fixed_padding (bytes "229") (bytes "5") 2 H1 H2 H3)).
Defined.

(** ** The raw frame buffer *)

Lemma run_raw_app (r : raw_t) (l1 l2 : list Z) :
  run_raw r (l1 ++ l2) = run_raw (run_raw r l1) l2.
Proof. apply fold_left_app. Qed.

Lemma run_raw_cons (r : raw_t) (c : Z) (l : list Z) :
  run_raw r (c :: l) = run_raw (processDataByte_raw r c) l.
Proof. reflexivity. Qed.

Lemma raw_step_slash (r : raw_t) :
  processDataByte_raw r SLASH = mkRaw [SLASH] false false (lastFrameBuffer r).
Proof. destruct r. reflexivity. Qed.

(** A byte that neither restarts the buffer, nor overflows it, nor ends the
    terminator line is appended. *)
Lemma raw_step_plain (r : raw_t) (c : Z) :
  c <> SLASH ->
  (frameEndDetected r = false /\ c <> BANG) \/ c <> LF ->
  (length (tempBuffer r) < 1500)%nat ->
  processDataByte_raw r c =
    mkRaw (tempBuffer r ++ [c]) (tempOverflowed r)
      (frameEndDetected r || (c =? BANG)) (lastFrameBuffer r).
Proof.
  intros Hs Hq Hlen. destruct r as [buf ov fe last].
  cbn [tempBuffer tempOverflowed frameEndDetected lastFrameBuffer] in *.
  unfold processDataByte_raw, MAX_FRAME_SIZE.
  destruct (Z.eqb_spec c SLASH); [contradiction|].
  cbn [tempBuffer tempOverflowed frameEndDetected lastFrameBuffer].
  destruct (Z.leb_spec 1500 (Z.of_nat (length buf))); [lia|].
  cbn [tempBuffer tempOverflowed frameEndDetected lastFrameBuffer].
  destruct (Z.eqb_spec c BANG) as [->|Hb];
    cbn [tempBuffer tempOverflowed frameEndDetected lastFrameBuffer].
  - rewrite orb_true_r. reflexivity.
  - rewrite orb_false_r. destruct (Z.eqb_spec c LF) as [->|Hl].
    + destruct Hq as [[-> _]|Hq]; [reflexivity|contradiction].
    + rewrite andb_false_r. reflexivity.
Qed.

Lemma raw_step_capture (r : raw_t) :
  frameEndDetected r = true -> tempOverflowed r = false ->
  (length (tempBuffer r) < 1500)%nat ->
  processDataByte_raw r LF =
    mkRaw [] false false (tempBuffer r ++ [LF]).
Proof.
  intros Hfe Hov Hlen. destruct r as [buf ov fe last].
  cbn [tempBuffer tempOverflowed frameEndDetected lastFrameBuffer] in *.
  subst. unfold processDataByte_raw, MAX_FRAME_SIZE.
  change (LF =? SLASH) with false. change (LF =? BANG) with false.
  change (LF =? LF) with true.
  cbn [tempBuffer tempOverflowed frameEndDetected lastFrameBuffer].
  destruct (Z.leb_spec 1500 (Z.of_nat (length buf))); [lia|].
  reflexivity.
Qed.

(** What one byte other than [/] does to the flags and the sizes. *)
Lemma raw_step_facts (r : raw_t) (c : Z) :
  c <> SLASH ->
  let r' := processDataByte_raw r c in
  ((frameEndDetected r = false /\ c <> BANG) \/ c <> LF ->
   lastFrameBuffer r' = lastFrameBuffer r /\
   (tempOverflowed r = true -> tempOverflowed r' = true) /\
   (tempOverflowed r' = true \/
    length (tempBuffer r') = S (length (tempBuffer r)))) /\
  (c <> BANG -> frameEndDetected r = false -> frameEndDetected r' = false) /\
  (tempOverflowed r = true \/ (1500 <= length (tempBuffer r))%nat ->
   lastFrameBuffer r' = lastFrameBuffer r).
Proof.
  intros Hs. destruct r as [buf ov fe last].
  cbn [tempBuffer tempOverflowed frameEndDetected lastFrameBuffer] in *.
  unfold processDataByte_raw, MAX_FRAME_SIZE.
  destruct (Z.eqb_spec c SLASH); [contradiction|].
  cbn [tempBuffer tempOverflowed frameEndDetected lastFrameBuffer].
  destruct (Z.leb_spec 1500 (Z.of_nat (length buf))) as [Hov|Hov];
    cbn [tempBuffer tempOverflowed frameEndDetected lastFrameBuffer];
    destruct (Z.eqb_spec c BANG) as [Hb|Hb];
    cbn [tempBuffer tempOverflowed frameEndDetected lastFrameBuffer andb];
    destruct (Z.eqb_spec c LF) as [Hl|Hl];
    cbn [tempBuffer tempOverflowed frameEndDetected lastFrameBuffer andb];
    try (subst; discriminate);
    rewrite ?andb_false_r, ?andb_true_r;
    cbn [tempBuffer tempOverflowed frameEndDetected lastFrameBuffer];
    try (destruct fe, ov;
         cbn [tempBuffer tempOverflowed frameEndDetected lastFrameBuffer];
         rewrite ?length_app; cbn [length];
         intuition (try congruence; try lia)).
Qed.

Ltac raw_len :=
  cbn [tempBuffer tempOverflowed frameEndDetected lastFrameBuffer];
  rewrite ?length_app; cbn [length]; lia.

Lemma raw_body_exact (l : list Z) (r : raw_t) :
  Forall (fun c => c <> SLASH /\ c <> BANG) l ->
  frameEndDetected r = false ->
  (length (tempBuffer r) + length l <= 1500)%nat ->
  run_raw r l =
    mkRaw (tempBuffer r ++ l) (tempOverflowed r) false (lastFrameBuffer r).
Proof.
  revert r. induction l as [|c l IH]; intros r Hl Hfe Hlen.
  - rewrite app_nil_r. destruct r. cbn in Hfe. subst. reflexivity.
  - inversion Hl as [|? ? [Hs Hb] Hl']; subst. cbn [length] in Hlen.
    rewrite run_raw_cons, raw_step_plain by (auto; lia).
    rewrite IH; cbn [tempBuffer tempOverflowed frameEndDetected
                     lastFrameBuffer]; rewrite ?length_app; cbn [length].
    + now rewrite <- app_assoc.
    + exact Hl'.
    + rewrite Hfe. destruct (Z.eqb_spec c BANG); [contradiction|reflexivity].
    + lia.
Qed.

Lemma raw_tail_exact (l : list Z) (r : raw_t) :
  Forall (fun c => c <> SLASH /\ c <> LF) l ->
  frameEndDetected r = true ->
  (length (tempBuffer r) + length l <= 1500)%nat ->
  run_raw r l =
    mkRaw (tempBuffer r ++ l) (tempOverflowed r) true (lastFrameBuffer r).
Proof.
  revert r. induction l as [|c l IH]; intros r Hl Hfe Hlen.
  - rewrite app_nil_r. destruct r. cbn in Hfe. subst. reflexivity.
  - inversion Hl as [|? ? [Hs Hb] Hl']; subst. cbn [length] in Hlen.
    rewrite run_raw_cons, raw_step_plain by (auto; lia).
    rewrite IH; cbn [tempBuffer tempOverflowed frameEndDetected
                     lastFrameBuffer]; rewrite ?length_app; cbn [length].
    + now rewrite <- app_assoc.
    + exact Hl'.
    + now rewrite Hfe.
    + lia.
Qed.

(** Bytes of an oversized frame: once the buffer has overflowed, or as long
    as it is bound to, the flag or the bound stays and the captured frame is
    not replaced. *)
Lemma raw_body_over (l : list Z) (r : raw_t) (n : nat) :
  Forall (fun c => c <> SLASH /\ c <> BANG) l ->
  frameEndDetected r = false ->
  tempOverflowed r = true \/
    (1500 < length (tempBuffer r) + length l + n)%nat ->
  let r' := run_raw r l in
  frameEndDetected r' = false /\
  lastFrameBuffer r' = lastFrameBuffer r /\
  (tempOverflowed r' = true \/ (1500 < length (tempBuffer r') + n)%nat).
Proof.
  revert r. induction l as [|c l IH]; intros r Hl Hfe Hover.
  - cbn [length] in Hover. cbn. split; [exact Hfe|]. split; [reflexivity|].
    destruct Hover; [now left|right; lia].
  - inversion Hl as [|? ? [Hs Hb] Hl']; subst. cbn [length] in Hover.
    cbv zeta. rewrite run_raw_cons.
    destruct (raw_step_facts r c Hs) as (H1 & H2 & _).
    destruct H1 as (Hlast & Hov & Hlen); [now left|].
    specialize (H2 Hb Hfe).
    destruct (IH (processDataByte_raw r c) Hl' H2) as (Ha & Hb' & Hc).
    + destruct Hover as [Hover|Hover]; [left; auto|].
      destruct Hlen as [Hlen|Hlen]; [now left|right; lia].
    + split; [exact Ha|]. split; [congruence|exact Hc].
Qed.

Lemma raw_tail_over (l : list Z) (r : raw_t) (n : nat) :
  Forall (fun c => c <> SLASH /\ c <> LF) l ->
  tempOverflowed r = true \/
    (1500 < length (tempBuffer r) + length l + n)%nat ->
  let r' := run_raw r l in
  lastFrameBuffer r' = lastFrameBuffer r /\
  (tempOverflowed r' = true \/ (1500 < length (tempBuffer r') + n)%nat).
Proof.
  revert r. induction l as [|c l IH]; intros r Hl Hover.
  - cbn [length] in Hover. cbn. split; [reflexivity|].
    destruct Hover; [now left|right; lia].
  - inversion Hl as [|? ? [Hs Hb] Hl']; subst. cbn [length] in Hover.
    cbv zeta. rewrite run_raw_cons.
    destruct (raw_step_facts r c Hs) as (H1 & _ & _).
    destruct H1 as (Hlast & Hov & Hlen); [now right|].
    destruct (IH (processDataByte_raw r c) Hl') as (Ha & Hb').
    + destruct Hover as [Hover|Hover]; [left; auto|].
      destruct Hlen as [Hlen|Hlen]; [now left|right; lia].
    + split; [congruence|exact Hb'].
Qed.

(** X20.  A telegram [/ body ! tail LF] of at most 1500 bytes, with no
    further [/], no [!] before its terminator line and no line feed inside
    the terminator line, is captured whole: whatever the buffer held before,
    after its last byte [lastFrameBuffer] is the telegram, byte for byte, and
    the working buffer is empty with both flags cleared. *)
Theorem raw_frame_captured (r : raw_t) (body tail : list Z) :
  Forall (fun c => c <> SLASH /\ c <> BANG) body ->
  Forall (fun c => c <> SLASH /\ c <> LF) tail ->
  text (body ++ tail) ->
  (length (SLASH :: body ++ BANG :: tail ++ [LF]) <= 1500)%nat ->
  run_raw r (SLASH :: body ++ BANG :: tail ++ [LF]) =
    mkRaw [] false false (SLASH :: body ++ BANG :: tail ++ [LF]).
Proof.
  intros Hbody Htail _ Hlen.
  cbn [length] in Hlen. rewrite !length_app in Hlen. cbn [length] in Hlen.
  rewrite length_app in Hlen. cbn [length] in Hlen.
  rewrite run_raw_cons, raw_step_slash, run_raw_app.
  rewrite (raw_body_exact body);
    [|exact Hbody|reflexivity|cbn [tempBuffer length]; lia].
  cbn [tempBuffer tempOverflowed frameEndDetected lastFrameBuffer].
  rewrite run_raw_cons, raw_step_plain;
    [|discriminate|right; discriminate|raw_len].
  cbn [tempBuffer tempOverflowed frameEndDetected lastFrameBuffer].
  change (BANG =? BANG) with true. cbn [orb].
  rewrite run_raw_app.
  rewrite (raw_tail_exact tail); [|exact Htail|reflexivity|raw_len].
  cbn [tempBuffer tempOverflowed frameEndDetected lastFrameBuffer].
  cbn [run_raw fold_left].
  rewrite raw_step_capture; [|reflexivity|reflexivity|raw_len].
  cbn [tempBuffer tempOverflowed frameEndDetected lastFrameBuffer].
  f_equal. cbn [app]. f_equal. rewrite <- !app_assoc. reflexivity.
Qed.

(** X21.  A telegram [/ body ! tail LF] of more than 1500 bytes is never
    captured: with the same conditions on its bytes, [lastFrameBuffer] after
    its last byte is what it was before its first. *)
Theorem raw_oversize_ignored (r : raw_t) (body tail : list Z) :
  Forall (fun c => c <> SLASH /\ c <> BANG) body ->
  Forall (fun c => c <> SLASH /\ c <> LF) tail ->
  text (body ++ tail) ->
  (1500 < length (SLASH :: body ++ BANG :: tail ++ [LF]))%nat ->
  lastFrameBuffer (run_raw r (SLASH :: body ++ BANG :: tail ++ [LF])) =
    lastFrameBuffer r.
Proof.
  intros Hbody Htail _ Hlen.
  cbn [length] in Hlen. rewrite !length_app in Hlen. cbn [length] in Hlen.
  rewrite length_app in Hlen. cbn [length] in Hlen.
  rewrite run_raw_cons, raw_step_slash, run_raw_app.
  set (r1 := mkRaw [SLASH] false false (lastFrameBuffer r)).
  destruct (raw_body_over body r1 (S (length tail + 1)) Hbody eq_refl)
    as (Hfe & Hlast & Hover).
  { right. cbn [r1 tempBuffer length]. lia. }
  cbv zeta in Hfe, Hlast, Hover.
  change (BANG :: tail ++ [LF]) with ((BANG :: tail) ++ [LF]).
  rewrite run_raw_app.
  assert (Htail' : Forall (fun c => c <> SLASH /\ c <> LF) (BANG :: tail)).
  { constructor; [split; discriminate|exact Htail]. }
  destruct (raw_tail_over (BANG :: tail) (run_raw r1 body) 1 Htail')
    as (Hlast' & Hover').
  { destruct Hover as [Hover|Hover]; [now left|right].
    cbn [length]. lia. }
  cbv zeta in Hlast', Hover'.
  change (run_raw (run_raw (run_raw r1 body) (BANG :: tail)) [LF])
    with (processDataByte_raw (run_raw (run_raw r1 body) (BANG :: tail)) LF).
  destruct (raw_step_facts (run_raw (run_raw r1 body) (BANG :: tail)) LF)
    as (_ & _ & H3); [discriminate|].
  cbv zeta in H3. rewrite H3.
  - rewrite Hlast', Hlast. reflexivity.
  - destruct Hover' as [Hover'|Hover']; [now left|right; lia].
Qed.

Lemma raw_frame_captured_witness :
  run_raw raw_start
    (SLASH :: (bytes "ISk5" ++ CRLF) ++ BANG :: (bytes "383D" ++ [CR]) ++ [LF]) =
  mkRaw [] false false
    (SLASH :: (bytes "ISk5" ++ CRLF) ++ BANG :: (bytes "383D" ++ [CR]) ++ [LF]).
Proof.
  apply (raw_frame_captured raw_start (bytes "ISk5" ++ CRLF)
           (bytes "383D" ++ [CR])).
  - repeat (constructor; [split; discriminate|]). constructor.
  - repeat (constructor; [split; discriminate|]). constructor.
  - repeat (constructor; [discriminate|]). constructor.
  - apply Nat.leb_le. vm_compute. reflexivity.
Defined.

Lemma raw_oversize_ignored_witness :
  lastFrameBuffer
    (run_raw raw_start
       (SLASH :: repeat 48%Z 1500%nat ++ BANG :: [CR] ++ [LF])) =
  lastFrameBuffer raw_start.
Proof.
  apply (raw_oversize_ignored raw_start (repeat 48%Z 1500%nat) [CR]).
  - apply List.Forall_forall. intros x Hx. apply repeat_spec in Hx.
    subst x. split; discriminate.
  - repeat (constructor; [split; discriminate|]). constructor.
  - apply Forall_app. split.
    + apply List.Forall_forall. intros x Hx. apply repeat_spec in Hx.
      subst x. discriminate.
    + repeat (constructor; [discriminate|]). constructor.
  - cbn [length]. rewrite length_app, repeat_length. cbn [length app]. lia.
Defined.

(** One step of the raw half, with its three decisions named. *)
Lemma raw_step_eq (r : raw_t) (c : Z) :
  processDataByte_raw r c =
    let cleared := c =? SLASH in
    let over :=
      1500 <=? Z.of_nat (length (if cleared then [] else tempBuffer r)) in
    let buf1 := if cleared || over then [] else tempBuffer r in
    let ov1 :=
      if over then true else if cleared then false else tempOverflowed r in
    let fe1 := if cleared || over then false else frameEndDetected r in
    let buf2 := buf1 ++ [c] in
    let fe2 := fe1 || (c =? BANG) in
    if fe2 && (c =? LF)
    then mkRaw [] false false (if ov1 then lastFrameBuffer r else buf2)
    else mkRaw buf2 ov1 fe2 (lastFrameBuffer r).
Proof.
  destruct r as [buf ov fe last].
  unfold processDataByte_raw, MAX_FRAME_SIZE.
  cbn [tempBuffer tempOverflowed frameEndDetected lastFrameBuffer].
  destruct (c =? SLASH);
    cbn [tempBuffer tempOverflowed frameEndDetected lastFrameBuffer orb];
    [change (1500 <=? Z.of_nat (length (@nil Z))) with false|
     destruct (1500 <=? Z.of_nat (length buf))];
    cbn [tempBuffer tempOverflowed frameEndDetected lastFrameBuffer orb];
    destruct (c =? BANG);
    cbn [tempBuffer tempOverflowed frameEndDetected lastFrameBuffer orb andb];
    rewrite ?orb_true_r, ?orb_false_r; try reflexivity.
Qed.

Lemma raw_step_bounds (r : raw_t) (c : Z) :
  (length (lastFrameBuffer r) <= 1500)%nat ->
  (length (tempBuffer (processDataByte_raw r c)) <= 1500)%nat /\
  (length (lastFrameBuffer (processDataByte_raw r c)) <= 1500)%nat.
Proof.
  intros Hlast. rewrite raw_step_eq. cbv zeta.
  set (cleared := c =? SLASH).
  set (over := 1500 <=? Z.of_nat (length (if cleared then [] else tempBuffer r))).
  assert (Hbuf1 : (length (if cleared || over then [] else tempBuffer r)
                   < 1500)%nat).
  { subst over. destruct cleared; cbn [orb]; [cbn; lia|].
    destruct (Z.leb_spec 1500 (Z.of_nat (length (tempBuffer r))));
      [cbn; lia|lia]. }
  set (buf1 := if cleared || over then [] else tempBuffer r) in *.
  assert (Hbuf2 : (length (buf1 ++ [c]) <= 1500)%nat)
    by (rewrite length_app; cbn [length]; lia).
  destruct (_ && _);
    cbn [tempBuffer tempOverflowed frameEndDetected lastFrameBuffer].
  - split; [cbn; lia|]. destruct (if over then _ else _); assumption.
  - split; assumption.
Qed.

(** X22.  The two buffers never hold more than 1500 characters: if the
    captured frame is within that size, then after any bytes the working
    buffer and the captured frame both are. *)
Theorem raw_buffers_bounded (r : raw_t) (bs : list Z) :
  text bs ->
  (length (tempBuffer r) <= 1500)%nat ->
  (length (lastFrameBuffer r) <= 1500)%nat ->
  (length (tempBuffer (run_raw r bs)) <= 1500)%nat /\
  (length (lastFrameBuffer (run_raw r bs)) <= 1500)%nat.
Proof.
  intros _. revert r. induction bs as [|c bs IH]; intros r Htemp Hlast.
  - split; assumption.
  - rewrite run_raw_cons.
    destruct (raw_step_bounds r c Hlast) as [H1 H2]. now apply IH.
Qed.

Lemma raw_buffers_bounded_witness :
  (length (tempBuffer (run_raw raw_start (repeat 48%Z 1600%nat))) <= 1500)%nat /\
  (length (lastFrameBuffer (run_raw raw_start (repeat 48%Z 1600%nat))) <= 1500)%nat.
Proof.
  apply (raw_buffers_bounded raw_start (repeat 48%Z 1600%nat)).
  - apply List.Forall_forall. intros x Hx. apply repeat_spec in Hx.
    subst x. discriminate.
  - cbn. lia.
  - apply Nat.leb_le. vm_compute. reflexivity.
Defined.

Lemma received_later (consumed : list Z) (c : Z) (last : list Z) :
  (last = lastFrameBuffer raw_start \/
   exists pre frame post,
     consumed = pre ++ (frame ++ [LF]) ++ post /\
     last = frame ++ [LF] /\ In BANG frame) ->
  last = lastFrameBuffer raw_start \/
  exists pre frame post,
    consumed ++ [c] = pre ++ (frame ++ [LF]) ++ post /\
    last = frame ++ [LF] /\ In BANG frame.
Proof.
  intros [H|(pre & frame & post & H1 & H2 & H3)]; [now left|right].
  exists pre, frame, (post ++ [c]). split; [|now split].
  rewrite H1, <- !app_assoc. reflexivity.
Qed.

Lemma received_step (consumed : list Z) (r : raw_t) (c : Z) :
  received consumed r ->
  received (consumed ++ [c]) (processDataByte_raw r c).
Proof.
  intros ([pre Hpre] & Hfe & Hlast). rewrite raw_step_eq. cbv zeta.
  set (cleared := c =? SLASH).
  set (over := 1500 <=? Z.of_nat (length (if cleared then [] else tempBuffer r))).
  assert (H1 : exists pre1,
             consumed = pre1 ++ (if cleared || over then [] else tempBuffer r)).
  { destruct (cleared || over); [|now exists pre].
    exists consumed. now rewrite app_nil_r. }
  assert (H2 : (if cleared || over then false else frameEndDetected r) = true ->
               In BANG (if cleared || over then [] else tempBuffer r)).
  { destruct (cleared || over); [discriminate|exact Hfe]. }
  set (buf1 := if cleared || over then [] else tempBuffer r) in *.
  set (fe1 := if cleared || over then false else frameEndDetected r) in *.
  set (ov1 := if over then true else if cleared then false
              else tempOverflowed r).
  destruct H1 as [pre1 H1].
  destruct (_ && _) eqn:Hcap.
  - apply andb_true_iff in Hcap. destruct Hcap as [Hfe2 Hlf].
    apply Z.eqb_eq in Hlf. subst c.
    change (LF =? BANG) with false in Hfe2. rewrite orb_false_r in Hfe2.
    split; [|split];
      cbn [tempBuffer tempOverflowed frameEndDetected lastFrameBuffer].
    + exists (consumed ++ [LF]). now rewrite app_nil_r.
    + discriminate.
    + destruct ov1.
      * now apply received_later.
      * right. exists pre1, buf1, []. split; [|split; auto].
        rewrite H1, app_nil_r, <- app_assoc. reflexivity.
  - split; [|split];
      cbn [tempBuffer tempOverflowed frameEndDetected lastFrameBuffer].
    + exists pre1. rewrite H1, <- app_assoc. reflexivity.
    + intros Hfe2. apply in_or_app. apply orb_true_iff in Hfe2.
      destruct Hfe2 as [Hfe2|Hfe2]; [left; auto|right].
      apply Z.eqb_eq in Hfe2. subst c. now left.
    + now apply received_later.
Qed.

Lemma received_run (bs consumed : list Z) (r : raw_t) :
  received consumed r -> received (consumed ++ bs) (run_raw r bs).
Proof.
  revert consumed r. induction bs as [|c bs IH]; intros consumed r H.
  - now rewrite app_nil_r.
  - rewrite run_raw_cons.
    replace (consumed ++ c :: bs) with ((consumed ++ [c]) ++ bs)
      by (now rewrite <- app_assoc).
    apply IH. now apply received_step.
Qed.

(** X23.  The status page never shows a frame that was not received: after
    any bytes since start-up, [lastFrameBuffer] is the start-up text or a
    piece of the byte stream, one that ends in a line feed and holds a [!]
    before it. *)
Theorem raw_capture_was_received (bs : list Z) :
  text bs ->
  lastFrameBuffer (run_raw raw_start bs) = lastFrameBuffer raw_start \/
  exists pre frame post,
    bs = pre ++ (frame ++ [LF]) ++ post /\
    lastFrameBuffer (run_raw raw_start bs) = frame ++ [LF] /\
    In BANG frame.
Proof.
  intros _.
  assert (H0 : received [] raw_start).
  { split; [now exists []|]. split; [discriminate|now left]. }
  destruct (received_run bs [] raw_start H0) as (_ & _ & H). exact H.
Qed.

Lemma raw_capture_was_received_witness :
  lastFrameBuffer (run_raw raw_start (bytes "/A!" ++ [LF])) =
    lastFrameBuffer raw_start \/
  exists pre frame post,
    bytes "/A!" ++ [LF] = pre ++ (frame ++ [LF]) ++ post /\
    lastFrameBuffer (run_raw raw_start (bytes "/A!" ++ [LF])) = frame ++ [LF] /\
    In BANG frame.
Proof.
  apply (raw_capture_was_received (bytes "/A!" ++ [LF])).
  repeat (constructor; [discriminate|]). constructor.
Defined.

(** ** URL encoding *)

Lemma hex_upper_safe (n : Z) :
  0 <= n < 16 -> isalnum (hex_upper n) = true.
Proof.
  intros H. unfold hex_upper, isalnum, is_digit, is_upper, is_lower.
  destruct (Z.ltb_spec n 10).
  - replace ((48 <=? 48 + n) && (48 + n <=? 57)) with true; [reflexivity|].
    symmetry. apply andb_true_iff. split; apply Z.leb_le; lia.
  - replace ((65 <=? 55 + n) && (55 + n <=? 90)) with true;
      [now rewrite orb_true_r|].
    symmetry. apply andb_true_iff. split; apply Z.leb_le; lia.
Qed.

Lemma hex_upper_inj (a b : Z) :
  0 <= a < 16 -> 0 <= b < 16 -> hex_upper a = hex_upper b -> a = b.
Proof.
  unfold hex_upper. intros Ha Hb.
  destruct (Z.ltb_spec a 10), (Z.ltb_spec b 10); lia.
Qed.

Lemma u8_digits (c : Z) :
  in_u8 c ->
  0 <= Z.quot (to_u8 c) 16 < 16 /\ 0 <= Z.rem (to_u8 c) 16 < 16 /\
  c = 16 * Z.quot (to_u8 c) 16 + Z.rem (to_u8 c) 16.
Proof.
  intros H. rewrite (to_u8_id c H). unfold in_u8 in H.
  rewrite Z.quot_div_nonneg, Z.rem_mod_nonneg by lia.
  pose proof (Z.div_mod c 16 ltac:(lia)).
  pose proof (Z.mod_pos_bound c 16 ltac:(lia)).
  split; [|split; lia].
  split; [apply Z.div_pos; lia|apply Z.div_lt_upper_bound; lia].
Qed.

Lemma isalnum_percent : isalnum PERCENT = false.
Proof. reflexivity. Qed.

(** X24.  [customUrlEncode] produces only letters, digits and [%], whatever
    the name holds; it never shortens a name and at most triples its length;
    and two different names never get the same encoding. *)
Theorem customUrlEncode_safe (s1 s2 : list Z) :
  Forall in_u8 s1 -> Forall in_u8 s2 ->
  Forall (fun c => isalnum c = true \/ c = PERCENT) (customUrlEncode s1) /\
  (length s1 <= length (customUrlEncode s1) <= 3 * length s1)%nat /\
  (customUrlEncode s1 = customUrlEncode s2 -> s1 = s2).
Proof.
  intros H1 H2. split; [|split].
  - clear s2 H2. induction H1 as [|c s Hc Hs IH]; [constructor|].
    cbn [customUrlEncode flat_map]. apply Forall_app. split; [|exact IH].
    destruct (isalnum c) eqn:Ha.
    + constructor; [now left|constructor].
    + destruct (u8_digits c Hc) as (Hq & Hr & _).
      constructor; [now right|].
      constructor; [left; now apply hex_upper_safe|].
      constructor; [left; now apply hex_upper_safe|constructor].
  - clear s2 H1 H2. induction s1 as [|c s IH]; [cbn; lia|].
    cbn [customUrlEncode flat_map]. rewrite length_app.
    fold (customUrlEncode s).
    destruct (isalnum c); cbn [length]; lia.
  - revert s2 H2. induction H1 as [|c1 s1 Hc1 Hs1 IH]; intros s2 H2 Heq.
    + destruct H2 as [|c2 s2 Hc2 Hs2]; [reflexivity|].
      cbn [customUrlEncode flat_map] in Heq.
      destruct (isalnum c2); discriminate.
    + destruct H2 as [|c2 s2 Hc2 Hs2].
      * cbn [customUrlEncode flat_map] in Heq.
        destruct (isalnum c1); discriminate.
      * cbn [customUrlEncode flat_map] in Heq.
        fold (customUrlEncode s1) in Heq. fold (customUrlEncode s2) in Heq.
        destruct (isalnum c1) eqn:Ha1, (isalnum c2) eqn:Ha2;
          cbn [app] in Heq.
        -- injection Heq as Heq0 Heq. subst c2. f_equal. now apply IH.
        -- injection Heq as Heq0 Heq. subst c1.
           rewrite isalnum_percent in Ha1. discriminate.
        -- injection Heq as Heq0 Heq. subst c2.
           rewrite isalnum_percent in Ha2. discriminate.
        -- injection Heq as Hq Hr Heq.
           destruct (u8_digits c1 Hc1) as (Hq1 & Hr1 & E1).
           destruct (u8_digits c2 Hc2) as (Hq2 & Hr2 & E2).
           apply hex_upper_inj in Hq; [|assumption..].
           apply hex_upper_inj in Hr; [|assumption..].
           f_equal; [lia|now apply IH].
Qed.

Lemma customUrlEncode_safe_witness :
  Forall (fun c => isalnum c = true \/ c = PERCENT)
    (customUrlEncode (bytes "my wifi'")) /\
  (length (bytes "my wifi'") <= length (customUrlEncode (bytes "my wifi'"))
     <= 3 * length (bytes "my wifi'"))%nat /\
  (customUrlEncode (bytes "my wifi'") = customUrlEncode (bytes "my wifi'") ->
   bytes "my wifi'" = bytes "my wifi'").
Proof.
  apply (customUrlEncode_safe (bytes "my wifi'") (bytes "my wifi'"));
    apply bytes_in_u8; reflexivity.
Defined.

(** ** Units of the stored readings *)



Lemma to_s32_small (x : Z) : 0 <= x < 2 ^ 31 -> to_s32 x = x.
Proof.
  intros H. unfold to_s32, to_signed.
  change (2 ^ (32 - 1)) with 2147483648 in *.
  change (2 ^ 31) with 2147483648 in *.
  change (2 ^ 32) with 4294967296.
  rewrite Z.mod_small by lia. lia.
Qed.




(** ** The older conversion *)

Section ScanWrap.
Variable wrap : Z -> Z.
Variable bound : Z.
Hypothesis wrap_small : forall x, 0 <= x < bound -> wrap x = x.
Hypothesis bound_large : 10 ^ 6 <= bound.

Lemma scan_int_wrap (ds : list Z) (st : scan_t) :
  Forall (fun c => is_digit c = true) ds ->
  sc_decimal_seen st = 0 -> 0 <= sc_result st ->
  fold_left (fun acc c => acc * 10 + (c - 48)) ds (sc_result st) < bound ->
  scan_string wrap ds st =
    mkScan (fold_left (fun acc c => acc * 10 + (c - 48)) ds (sc_result st))
           (sc_fraction st) 0 (sc_frac_digits st).
Proof.
  intros Hds. revert st.
  induction Hds as [|c t Hc Ht IH]; intros st Hseen Hres Hbound; simpl.
  - destruct st; simpl in *; now subst.
  - destruct (is_digit_plain c Hc) as (Hnul & Hdot & _).
    pose proof (is_digit_range c Hc) as Hrange.
    destruct (Z.eqb_spec c NUL); [contradiction|].
    simpl in Hbound.
    pose proof (digits_fold_mono t (sc_result st * 10 + (c - 48)) Ht
                  ltac:(lia)) as Hmono.
    assert (Hstep : scan_char wrap st c =
              mkScan (sc_result st * 10 + (c - 48)) (sc_fraction st)
                     (sc_decimal_seen st) (sc_frac_digits st)).
    { unfold scan_char. rewrite Hc, Hseen.
      destruct (Z.eqb_spec c DOT); [contradiction|]. simpl.
      rewrite wrap_small; [reflexivity|lia]. }
    rewrite Hstep.
    rewrite IH; cbn [sc_result sc_fraction sc_decimal_seen sc_frac_digits];
      [reflexivity|assumption|lia|assumption].
Qed.

Lemma scan_frac_wrap (fs : list Z) (st : scan_t) :
  Forall (fun c => is_digit c = true) fs ->
  sc_decimal_seen st = 1 ->
  0 <= sc_frac_digits st ->
  sc_frac_digits st + Z.of_nat (length fs) <= 6 ->
  0 <= sc_fraction st < 10 ^ sc_frac_digits st ->
  scan_string wrap fs st =
    mkScan (sc_result st)
           (fold_left (fun acc c => acc * 10 + (c - 48)) fs (sc_fraction st))
           1 (sc_frac_digits st + Z.of_nat (length fs)) /\
  0 <= fold_left (fun acc c => acc * 10 + (c - 48)) fs (sc_fraction st)
    < 10 ^ (sc_frac_digits st + Z.of_nat (length fs)).
Proof.
  intros Hfs. revert st.
  induction Hfs as [|c t Hc Ht IH]; intros st Hseen Hk Hlen Hfrac.
  - simpl. rewrite Z.add_0_r. split; [|assumption].
    destruct st; simpl in *; now subst.
  - destruct (is_digit_plain c Hc) as (Hnul & Hdot & _).
    pose proof (is_digit_range c Hc) as Hrange.
    simpl length in *. cbn [scan_string fold_left].
    destruct (Z.eqb_spec c NUL); [contradiction|].
    assert (Hpow : 10 ^ (sc_frac_digits st + 1) = 10 * 10 ^ sc_frac_digits st).
    { rewrite Z.pow_add_r by lia. lia. }
    assert (Hpow6 : 10 ^ (sc_frac_digits st + 1) <= 10 ^ 6)
      by (apply Z.pow_le_mono_r; lia).
    assert (Hstep : scan_char wrap st c =
              mkScan (sc_result st) (sc_fraction st * 10 + (c - 48))
                     1 (sc_frac_digits st + 1)).
    { unfold scan_char. rewrite Hc, Hseen.
      destruct (Z.eqb_spec c DOT); [contradiction|]. simpl.
      destruct (Z.ltb_spec (sc_frac_digits st) 6); [|lia].
      rewrite wrap_small by lia.
      unfold to_u8, to_unsigned. rewrite Z.mod_small by lia. reflexivity. }
    rewrite Hstep.
    specialize (IH (mkScan (sc_result st) (sc_fraction st * 10 + (c - 48))
                           1 (sc_frac_digits st + 1))).
    cbn [sc_result sc_fraction sc_decimal_seen sc_frac_digits] in IH.
    destruct IH as [IH1 IH2]; try lia.
    replace (sc_frac_digits st + Z.of_nat (S (length t)))
      with (sc_frac_digits st + 1 + Z.of_nat (length t)) by lia.
    split; assumption.
Qed.

Lemma pad_fraction_wrap (n : nat) (f : Z) :
  0 <= f -> f * 10 ^ Z.of_nat n < bound ->
  pad_fraction wrap n f = f * 10 ^ Z.of_nat n.
Proof.
  revert f. induction n as [|n IH]; intros f Hf Hb.
  - simpl. lia.
  - rewrite Nat2Z.inj_succ, Z.pow_succ_r in * by lia.
    cbn [pad_fraction].
    assert (0 < 10 ^ Z.of_nat n) by (apply Z.pow_pos_nonneg; lia).
    rewrite wrap_small by nia.
    rewrite IH; nia.
Qed.

End ScanWrap.

Lemma of_to_nat_max (x : Z) : Z.of_nat (Z.to_nat x) = Z.max 0 x.
Proof. lia. Qed.

(** The older conversion before its final division: the fraction is padded
    to [scale] digits only. *)
Lemma legacy_scan (ds fs : list Z) (scale : Z) :
  Forall (fun c => is_digit c = true) ds ->
  Forall (fun c => is_digit c = true) fs ->
  (length fs <= 6)%nat -> 0 <= scale <= 6 ->
  digits_value ds * 1000000 + 999999 < 2 ^ 31 ->
  let k := Z.of_nat (length fs) in
  let padded := digits_value fs * 10 ^ Z.max 0 (scale - k) in
  Legacy.ascii_to_fixed (ds ++ DOT :: fs) scale =
    rescale scale (digits_value ds * 1000000 + padded) /\
  0 <= padded < 10 ^ Z.max k scale /\ 0 <= digits_value ds.
Proof.
  intros Hds Hfs Hlen Hscale Hrange k padded.
  assert (HD : 0 <= digits_value ds)
    by (apply (digits_fold_mono ds 0 Hds); lia).
  assert (Hwrap : forall x, 0 <= x < 2 ^ 31 -> to_s32 x = x)
    by (intros x Hx; now apply to_s32_small).
  assert (Hbig : 10 ^ 6 <= 2 ^ 31) by (vm_compute; discriminate).
  change (2 ^ 31) with 2147483648 in *.
  assert (Hk : 0 <= k <= 6) by (subst k; lia).
  assert (Hscan : scan_string to_s32 (ds ++ DOT :: fs) scan_init =
                    mkScan (digits_value ds) (digits_value fs) 1 k /\
                  0 <= digits_value fs < 10 ^ k).
  { rewrite scan_string_app by now apply digits_not_nul.
    rewrite (scan_int_wrap to_s32 2147483648 Hwrap ds scan_init Hds)
      by (simpl; fold (digits_value ds); lia).
    change (fold_left (fun acc c => acc * 10 + (c - 48)) ds
              (sc_result scan_init)) with (digits_value ds).
    change (scan_string to_s32 (DOT :: fs)
              (mkScan (digits_value ds) (sc_fraction scan_init) 0
                      (sc_frac_digits scan_init)))
      with (scan_string to_s32 fs (mkScan (digits_value ds) 0 1 0)).
    destruct (scan_frac_wrap to_s32 2147483648 Hwrap Hbig fs
                (mkScan (digits_value ds) 0 1 0) Hfs)
      as [Hscan Hfrac];
      cbn [sc_result sc_fraction sc_decimal_seen sc_frac_digits];
      try lia.
    cbn [sc_result sc_fraction sc_decimal_seen sc_frac_digits] in *.
    rewrite Z.add_0_l in *. fold k in Hscan, Hfrac.
    split; assumption. }
  destruct Hscan as [Hscan Hfrac].
  assert (Hpad : 0 <= padded < 10 ^ Z.max k scale).
  { subst padded. destruct (Z.max_spec 0 (scale - k)) as [[H1 ->]|[H1 ->]].
    - replace (Z.max k scale) with (k + (scale - k)) by lia.
      rewrite Z.pow_add_r by lia.
      assert (0 < 10 ^ (scale - k)) by (apply Z.pow_pos_nonneg; lia). nia.
    - replace (Z.max k scale) with k by lia. change (10 ^ 0) with 1. lia. }
  assert (Hpow6 : 10 ^ Z.max k scale <= 10 ^ 6)
    by (apply Z.pow_le_mono_r; lia).
  change (10 ^ 6) with 1000000 in *.
  split; [|split; [exact Hpad|exact HD]].
  unfold Legacy.ascii_to_fixed. rewrite Hscan.
  cbn [sc_result sc_fraction sc_frac_digits].
  rewrite (pad_fraction_wrap to_s32 2147483648 Hwrap).
  - rewrite of_to_nat_max. fold padded.
    rewrite Hwrap by lia. reflexivity.
  - vm_compute. discriminate.
  - lia.
  - rewrite of_to_nat_max. fold padded. lia.
Qed.

(** X26.  The conversion of the older [SMR-Multi.ino], on a numeral [D.F] of
    decimal digits with at most six decimals that fits [int32_t]: at scale 6
    it agrees with the later revision; at scale 2 (with at most four
    decimals) and at scale 3 (with at most three) it returns [D * 100] and
    [D * 1000]: the decimals are lost, where the later revision keeps
    them. *)
Theorem legacy_scale_drops_decimals (ds fs : list Z) :
  Forall (fun c => is_digit c = true) ds ->
  Forall (fun c => is_digit c = true) fs ->
  (length fs <= 6)%nat ->
  digits_value ds * 1000000 + 999999 < 2 ^ 31 ->
  let k := Z.of_nat (length fs) in
  Legacy.ascii_to_fixed (ds ++ DOT :: fs) 6 =
    ascii_to_fixed (ds ++ DOT :: fs) 6 /\
  (k <= 4 -> Legacy.ascii_to_fixed (ds ++ DOT :: fs) 2 =
             digits_value ds * 100) /\
  (k <= 3 -> Legacy.ascii_to_fixed (ds ++ DOT :: fs) 3 =
             digits_value ds * 1000).
Proof.
  intros Hds Hfs Hlen Hrange k.
  assert (Hk : 0 <= k <= 6) by (subst k; lia).
  assert (Hrange64 : digits_value ds * 1000000 + 999999 < 2 ^ 63).
  { change (2 ^ 31) with 2147483648 in Hrange.
    change (2 ^ 63) with 9223372036854775808. lia. }
  split; [|split].
  - destruct (legacy_scan ds fs 6 Hds Hfs Hlen ltac:(lia) Hrange)
      as (H6 & _).
    destruct (ascii_to_fixed_decimal ds fs 6 Hds Hfs Hrange64) as (N6 & _).
    rewrite H6, N6, micro_value_short by lia. fold k.
    replace (Z.max 0 (6 - k)) with (6 - k) by lia. reflexivity.
  - intros Hk4.
    destruct (legacy_scan ds fs 2 Hds Hfs Hlen ltac:(lia) Hrange)
      as (H2 & Hpad & HD).
    cbv zeta in H2, Hpad. fold k in H2, Hpad. rewrite H2.
    change (rescale 2 ?x) with (Z.quot x 10000).
    assert (Hp : 10 ^ Z.max k 2 <= 10 ^ 4) by (apply Z.pow_le_mono_r; lia).
    change (10 ^ 4) with 10000 in Hp.
    rewrite Z.quot_div_nonneg by lia.
    symmetry. apply Z.div_unique with (r := digits_value fs * 10 ^ Z.max 0 (2 - k));
      lia.
  - intros Hk3.
    destruct (legacy_scan ds fs 3 Hds Hfs Hlen ltac:(lia) Hrange)
      as (H3 & Hpad & HD).
    cbv zeta in H3, Hpad. fold k in H3, Hpad. rewrite H3.
    change (rescale 3 ?x) with (Z.quot x 1000).
    assert (Hp : 10 ^ Z.max k 3 <= 10 ^ 3) by (apply Z.pow_le_mono_r; lia).
    change (10 ^ 3) with 1000 in Hp.
    rewrite Z.quot_div_nonneg by lia.
    symmetry. apply Z.div_unique with (r := digits_value fs * 10 ^ Z.max 0 (3 - k));
      lia.
Qed.

Lemma legacy_scale_drops_decimals_witness :
  Legacy.ascii_to_fixed (bytes "229" ++ DOT :: bytes "5") 2 = 22900.
Proof.
  assert (H1 : Forall (fun c => is_digit c = true) (bytes "229"))
    by (repeat constructor).
  assert (H2 : Forall (fun c => is_digit c = true) (bytes "5"))
    by (repeat constructor).
  assert (H3 : (length (bytes "5") <= 6)%nat) by (simpl; lia).
  assert (H4 : digits_value (bytes "229") * 1000000 + 999999 < 2 ^ 31)
    by (vm_compute; reflexivity).
  destruct (legacy_scale_drops_decimals (bytes "229") (bytes "5")
              H1 H2 H3 H4) as (_ & Hv & _).
  rewrite Hv; [reflexivity|simpl; lia].
Defined.
